(** * Generation orchestration of the novel writer: retry policy, unit
    generator, context window, planning and continuation loops, persistence.

    The TypeScript sources are embedded as Rocq functions.  Asynchronous code
    is written in a state-and-exception monad over an explicit [World]; the
    generative-text provider, the storage back end, the wall clock and the
    user are oracles collected in [Env].  Strings are sequences of UTF-16
    code units, because the sources measure them with [length] and [slice]. *)

From Stdlib Require Import ZArith NArith Bool Lia String Ascii.
From stdpp Require Import base list.

Set Default Goal Selector "!".

(* ================================================================== *)
(** ** JavaScript strings *)
(* ================================================================== *)

Module JS.

(** A string value: its UTF-16 code units, so that [length] agrees with
    the [length] property of the source. *)
Abbreviation jsstring := (list N).

(** An ASCII literal of the source as code units. *)
Definition lit (s : string) : jsstring :=
  map N_of_ascii (list_ascii_of_string s).

(** A literal with double quotes inside, written with apostrophes. *)
Definition litq (s : string) : jsstring :=
  map (fun c => if N.eqb c 39 then 34%N else c) (lit s).

(** [WhiteSpace] and [LineTerminator] of ECMAScript: what [trim] strips
    and what the regular-expression class [\s] matches. *)
Definition isWhiteSpace (c : N) : bool :=
  ((9 <=? c) && (c <=? 13) || (c =? 32) || (c =? 160) || (c =? 5760)
   || (8192 <=? c) && (c <=? 8202) || (c =? 8232) || (c =? 8233)
   || (c =? 8239) || (c =? 8287) || (c =? 12288) || (c =? 65279))%N.

Fixpoint trimStart (s : jsstring) : jsstring :=
  match s with
  | c :: r => if isWhiteSpace c then trimStart r else s
  | [] => []
  end.

Definition trimEnd (s : jsstring) : jsstring := rev (trimStart (rev s)).

Definition trim (s : jsstring) : jsstring := trimEnd (trimStart s).

Fixpoint startsWith (p s : jsstring) : bool :=
  match p, s with
  | [], _ => true
  | x :: p', y :: s' => N.eqb x y && startsWith p' s'
  | _ :: _, [] => false
  end.

Definition endsWith (p s : jsstring) : bool := startsWith (rev p) (rev s).

(** [hay.includes(needle)] *)
Fixpoint includes (needle hay : jsstring) : bool :=
  startsWith needle hay
  || match hay with
     | [] => false
     | _ :: r => includes needle r
     end.

(** [s.slice(-n)]: the last [n] code units, the whole string when it is
    shorter. *)
Definition sliceLast (n : nat) (s : jsstring) : jsstring :=
  drop (length s - n) s.

(** [s.slice(0, n)] and [s.substring(0, n)] *)
Definition sliceFirst (n : nat) (s : jsstring) : jsstring := take n s.

(** [!s] for a string *)
Definition isEmpty (s : jsstring) : bool :=
  match s with [] => true | _ => false end.

(** [a || b] on strings: [b] when [a] is empty. *)
Definition orElse (a b : jsstring) : jsstring :=
  if isEmpty a then b else a.

(** ASCII case folding of a letter, as the [i] flag compares a pattern
    letter with the subject. *)
Definition lowerAscii (c : N) : N :=
  if ((65 <=? c) && (c <=? 90))%N then (c + 32)%N else c.

Definition isDigit (c : N) : bool := ((48 <=? c) && (c <=? 57))%N.

(** Decimal digits of a natural number, [String(n)]. *)
Fixpoint digitsFuel (fuel : nat) (n : N) (acc : jsstring) : jsstring :=
  match fuel with
  | O => acc
  | S f =>
      let acc' := (48 + n mod 10)%N :: acc in
      if (n <? 10)%N then acc' else digitsFuel f (n / 10)%N acc'
  end.

Definition decimal (n : N) : jsstring :=
  digitsFuel (S (N.to_nat (N.log2 n))) n [].

(** [s.padStart(width, "0")] *)
Definition padStart0 (width : nat) (s : jsstring) : jsstring :=
  replicate (width - length s) 48%N ++ s.

End JS.

(* ================================================================== *)
(** ** JSON values and [JSON.parse] *)
(* ================================================================== *)

Module Json.
Import JS.

(** A parsed JSON value.  A number keeps its lexeme: its floating-point
    value plays no role below. *)
#[warnings="-register-all"]
Inductive JSON : Type :=
| JNull
| JBool (b : bool)
| JNumber (lexeme : jsstring)
| JString (s : jsstring)
| JArray (items : list JSON)
| JObject (members : list (jsstring * JSON)).

(** JSON white space: space, tab, line feed, carriage return. *)
Definition isJsonWs (c : N) : bool :=
  ((c =? 32) || (c =? 9) || (c =? 10) || (c =? 13))%N.

Fixpoint skipWs (s : jsstring) : jsstring :=
  match s with
  | c :: r => if isJsonWs c then skipWs r else s
  | [] => []
  end.

Definition hexValue (c : N) : option N :=
  if isDigit c then Some (c - 48)%N
  else if ((97 <=? c) && (c <=? 102))%N then Some (c - 87)%N
  else if ((65 <=? c) && (c <=? 70))%N then Some (c - 55)%N
  else None.

Definition hex4 (a b c d : N) : option N :=
  match hexValue a, hexValue b, hexValue c, hexValue d with
  | Some x, Some y, Some z, Some t => Some (((x * 16 + y) * 16 + z) * 16 + t)%N
  | _, _, _, _ => None
  end.

(** The character an escape letter stands for. *)
Definition unescape (e : N) : option N :=
  if (e =? 34)%N then Some 34%N          (* quote *)
  else if (e =? 92)%N then Some 92%N     (* backslash *)
  else if (e =? 47)%N then Some 47%N     (* slash *)
  else if (e =? 98)%N then Some 8%N      (* b: backspace *)
  else if (e =? 102)%N then Some 12%N    (* f: form feed *)
  else if (e =? 110)%N then Some 10%N    (* n: line feed *)
  else if (e =? 114)%N then Some 13%N    (* r: carriage return *)
  else if (e =? 116)%N then Some 9%N     (* t: tab *)
  else None.

(** The characters of a string literal after its opening quote, up to
    the closing quote. *)
Fixpoint parseChars (s acc : jsstring) : option (jsstring * jsstring) :=
  match s with
  | [] => None
  | c :: r =>
      if (c =? 34)%N then Some (rev acc, r)
      else if (c =? 92)%N then
        match r with
        | [] => None
        | e :: r1 =>
            if (e =? 117)%N then
              match r1 with
              | h1 :: h2 :: h3 :: h4 :: r2 =>
                  match hex4 h1 h2 h3 h4 with
                  | Some u => parseChars r2 (u :: acc)
                  | None => None
                  end
              | _ => None
              end
            else
              match unescape e with
              | Some u => parseChars r1 (u :: acc)
              | None => None
              end
        end
      else if (c <? 32)%N then None
      else parseChars r (c :: acc)
  end.

Fixpoint spanDigits (s : jsstring) : jsstring * jsstring :=
  match s with
  | c :: r =>
      if isDigit c then let '(d, rest) := spanDigits r in (c :: d, rest)
      else ([], s)
  | [] => ([], [])
  end.

(** Integer part: [0] alone or a digit sequence without a leading zero. *)
Definition parseInt (s : jsstring) : option (jsstring * jsstring) :=
  match spanDigits s with
  | ([], _) => None
  | (d :: ds, rest) =>
      if (d =? 48)%N then Some ([d], ds ++ rest) else Some (d :: ds, rest)
  end.

Definition parseFrac (s : jsstring) : option (jsstring * jsstring) :=
  match s with
  | c :: r =>
      if (c =? 46)%N then
        match spanDigits r with
        | ([], _) => None
        | (ds, rest) => Some (c :: ds, rest)
        end
      else Some ([], s)
  | [] => Some ([], [])
  end.

Definition parseExp (s : jsstring) : option (jsstring * jsstring) :=
  match s with
  | c :: r =>
      if ((c =? 101) || (c =? 69))%N then
        let '(sign, r') :=
          match r with
          | g :: r1 => if ((g =? 43) || (g =? 45))%N then ([g], r1) else ([], r)
          | [] => ([], r)
          end in
        match spanDigits r' with
        | ([], _) => None
        | (ds, rest) => Some (c :: sign ++ ds, rest)
        end
      else Some ([], s)
  | [] => Some ([], [])
  end.

Definition parseNumber (s : jsstring) : option (jsstring * jsstring) :=
  let '(sign, s1) :=
    match s with
    | c :: r => if (c =? 45)%N then ([c], r) else ([], s)
    | [] => ([], s)
    end in
  match parseInt s1 with
  | None => None
  | Some (i, s2) =>
      match parseFrac s2 with
      | None => None
      | Some (f, s3) =>
          match parseExp s3 with
          | None => None
          | Some (e, s4) => Some (sign ++ i ++ f ++ e, s4)
          end
      end
  end.

Definition expect (word : string) (v : JSON) (s : jsstring)
  : option (JSON * jsstring) :=
  if startsWith (lit word) s then Some (v, drop (String.length word) s)
  else None.

(** One JSON value at the head of [s], and the input left after it.
    [fuel] bounds the nesting depth and the number of items of a
    collection; [parse] below gives it the length of the input. *)
Fixpoint parseValue (fuel : nat) (s : jsstring) : option (JSON * jsstring) :=
  match fuel with
  | O => None
  | S f =>
      let elements :=
        fix elements (k : nat) (s : jsstring) (acc : list JSON)
          : option (list JSON * jsstring) :=
          match k with
          | O => None
          | S k' =>
              match parseValue f s with
              | None => None
              | Some (v, r) =>
                  match skipWs r with
                  | c :: r' =>
                      if (c =? 44)%N then elements k' r' (v :: acc)
                      else if (c =? 93)%N then Some (rev (v :: acc), r')
                      else None
                  | [] => None
                  end
              end
          end in
      let members :=
        fix members (k : nat) (s : jsstring) (acc : list (jsstring * JSON))
          : option (list (jsstring * JSON) * jsstring) :=
          match k with
          | O => None
          | S k' =>
              match skipWs s with
              | q :: r0 =>
                  if (q =? 34)%N then
                    match parseChars r0 [] with
                    | None => None
                    | Some (key, r1) =>
                        match skipWs r1 with
                        | colon :: r2 =>
                            if (colon =? 58)%N then
                              match parseValue f r2 with
                              | None => None
                              | Some (v, r3) =>
                                  match skipWs r3 with
                                  | c :: r4 =>
                                      if (c =? 44)%N
                                      then members k' r4 ((key, v) :: acc)
                                      else if (c =? 125)%N
                                      then Some (rev ((key, v) :: acc), r4)
                                      else None
                                  | [] => None
                                  end
                              end
                            else None
                        | [] => None
                        end
                    end
                  else None
              | [] => None
              end
          end in
      match skipWs s with
      | [] => None
      | c :: r =>
          if (c =? 110)%N then expect "null" JNull (c :: r)
          else if (c =? 116)%N then expect "true" (JBool true) (c :: r)
          else if (c =? 102)%N then expect "false" (JBool false) (c :: r)
          else if (c =? 34)%N then
            match parseChars r [] with
            | Some (str, r') => Some (JString str, r')
            | None => None
            end
          else if (c =? 91)%N then
            match skipWs r with
            | c' :: r' =>
                if (c' =? 93)%N then Some (JArray [], r')
                else
                  match elements (S f) r [] with
                  | Some (items, rest) => Some (JArray items, rest)
                  | None => None
                  end
            | [] => None
            end
          else if (c =? 123)%N then
            match skipWs r with
            | c' :: r' =>
                if (c' =? 125)%N then Some (JObject [], r')
                else
                  match members (S f) r [] with
                  | Some (ms, rest) => Some (JObject ms, rest)
                  | None => None
                  end
            | [] => None
            end
          else
            match parseNumber (c :: r) with
            | Some (lexeme, rest) => Some (JNumber lexeme, rest)
            | None => None
            end
      end
  end.

(** [JSON.parse(text)]: the value, or [None] where the source gets a
    [SyntaxError]. *)
Definition parse (text : jsstring) : option JSON :=
  match parseValue (S (length text)) text with
  | Some (v, rest) =>
      match skipWs rest with
      | [] => Some v
      | _ :: _ => None
      end
  | None => None
  end.

(** Property read [v.key] on a parsed value: the member written last
    wins, as [JSON.parse] builds the object; [None] is [undefined]. *)
Fixpoint lookupLast (key : jsstring) (ms : list (jsstring * JSON))
  : option JSON :=
  match ms with
  | [] => None
  | (k, v) :: rest =>
      match lookupLast key rest with
      | Some v' => Some v'
      | None => if bool_decide (k = key) then Some v else None
      end
  end.

Definition member (key : jsstring) (v : JSON) : option JSON :=
  match v with
  | JObject ms => lookupLast key ms
  | _ => None
  end.

End Json.

(* ================================================================== *)
(** ** Data model ([types.ts]) *)
(* ================================================================== *)

(** Identities are strings compared with [===]. *)
Abbreviation Id := (list N).

Module NovelConfig.
Record t : Type := mk {
  title : JS.jsstring;
  genre : JS.jsstring;
  tone : JS.jsstring;
  protagonist : JS.jsstring;
  worldSetting : JS.jsstring;
  writingStyle : JS.jsstring;
  targetChapterCount : Z;
  targetWordCount : Z;
  additionalNotes : JS.jsstring
}.
End NovelConfig.

Module Chapter.
Record t : Type := mk {
  id : Id;
  title : JS.jsstring;
  summary : JS.jsstring;
  content : JS.jsstring;
  isGenerated : bool
}.

(** [{ ...c, content: text, isGenerated: true }] *)
Definition written (c : t) (text : JS.jsstring) : t :=
  mk (id c) (title c) (summary c) text true.
End Chapter.

Inductive AppStep : Type := SETUP | OUTLINE | CHAPTERS | WRITING.

Module Novel.
Record t : Type := mk {
  id : Id;
  lastModified : Z;
  config : NovelConfig.t;
  outline : JS.jsstring;
  chapters : list Chapter.t;
  currentChapterId : option Id;
  step : AppStep
}.
End Novel.

(* ================================================================== *)
(** ** Asynchronous code: state passing with exceptions *)
(* ================================================================== *)

Module Async.

(** A thrown value, as far as the sources inspect it: [error.status] and
    [error.message]. *)
Record JsError : Type := mkError {
  status : option Z;
  message : option JS.jsstring
}.

(** [new Error(msg)] *)
Definition newError (msg : JS.jsstring) : JsError := mkError None (Some msg).

Inductive Completion (A : Type) : Type :=
| Returned (a : A)
| Thrown (e : JsError).
Arguments Returned {A} a.
Arguments Thrown {A} e.

(** An awaited computation over a state [S]: how it completes and the
    state it leaves. *)
Definition M (S A : Type) : Type := S -> Completion A * S.

Definition ret {S A} (a : A) : M S A := fun s => (Returned a, s).

Definition throw {S A} (e : JsError) : M S A := fun s => (Thrown e, s).

Definition bind {S A B} (m : M S A) (k : A -> M S B) : M S B :=
  fun s =>
    match m s with
    | (Returned a, s') => k a s'
    | (Thrown e, s') => (Thrown e, s')
    end.

(** [try { m } catch (e) { handler e }] *)
Definition tryCatch {S A} (m : M S A) (handler : JsError -> M S A) : M S A :=
  fun s =>
    match m s with
    | (Returned a, s') => (Returned a, s')
    | (Thrown e, s') => handler e s'
    end.

(** [try { m } finally { cleanup }], for a cleanup that cannot throw. *)
Definition tryFinally {S A} (m : M S A) (cleanup : S -> S) : M S A :=
  fun s => let '(c, s') := m s in (c, cleanup s').

Definition get {S} : M S S := fun s => (Returned s, s).

Definition modify {S} (f : S -> S) : M S unit := fun s => (Returned tt, f s).

(** Run a computation of a component on its part of a larger state. *)
Definition zoom {S P A} (proj : S -> P) (inj : P -> S -> S) (m : M P A)
  : M S A :=
  fun s => let '(c, p') := m (proj s) in (c, inj p' s).

Definition when {S} (b : bool) (m : M S unit) : M S unit :=
  if b then m else ret tt.

End Async.

Import Async.

Notation "x <- c ;; k" := (bind c (fun x => k))
  (at level 100, c at next level, right associativity).
Notation "c ;;; k" := (bind c (fun _ => k))
  (at level 100, right associativity).

(* ================================================================== *)
(** ** The environment *)
(* ================================================================== *)

(** What a request to the provider is built from.  The prompt text is a
    fixed template around these values. *)
Inductive Request : Type :=
| TrendRequest
| BatchRequest (config : NovelConfig.t) (outlinePrefix : JS.jsstring)
    (startChapterIndex batchSize : Z) (previous : list Chapter.t)
| ContentRequest (config : NovelConfig.t) (title summary : JS.jsstring)
    (previousContext outlinePrefix : JS.jsstring).

(** The collaborators outside the program, each answering its k-th call. *)
Record Env : Type := mkEnv {
  (** [ai.models.generateContent]: [response.text] ([None] for
      [undefined]) or the rejection. *)
  provider : nat -> Request -> Completion (option JS.jsstring);
  (** [crypto.randomUUID()] *)
  randomUUID : nat -> Id;
  (** a call of the File System Access API: the rejection, if any *)
  storage : nat -> option JsError;
  (** [Date.now()] *)
  dateNow : nat -> Z;
  (** whether the user presses the stop button while the k-th awaited
      step of a continuation run is pending *)
  stopPressed : nat -> bool
}.

(* ================================================================== *)
(** ** [geminiService.ts] *)
(* ================================================================== *)

Module GeminiService.
Import JS Json.

(** What the retry wrapper does, in order. *)
Inductive Step : Type :=
| Invoked                    (* [await operation()] *)
| Warned (retriesLeft : nat) (* [console.warn] *)
| Delayed (ms : Z).          (* [await delay(ms)] *)

#[global] Instance Step_eq_dec : EqDecision Step.
Proof. solve_decision. Defined.

(** The state an operation works on, and beside it the steps of the
    wrapper so far, oldest first. *)
Record Timed (S : Type) : Type := mkTimed {
  inner : S;
  timeline : list Step
}.
Arguments mkTimed {S} inner timeline.
Arguments inner {S} t.
Arguments timeline {S} t.

Definition record {S} (st : Step) : M (Timed S) unit :=
  modify (fun t => mkTimed (inner t) (timeline t ++ [st])).

Definition onInner {S A} (m : M S A) : M (Timed S) A :=
  zoom inner (fun s t => mkTimed s (timeline t)) m.

(** [error.status === 503 || error.status === 500 ||
     error.message?.includes("overloaded")] *)
Definition isTransient (e : JsError) : bool :=
  bool_decide (status e = Some 503%Z)
  || bool_decide (status e = Some 500%Z)
  || match message e with
     | Some m => includes (lit "overloaded") m
     | None => false
     end.

(** [callAIWithRetry(operation, retries, baseDelay)] *)
Fixpoint callAIWithRetry {St T} (operation : M St T) (retries : nat)
  (baseDelay : Z) : M (Timed St) T :=
  tryCatch
    (record Invoked ;;; onInner operation)
    (fun error =>
       match retries with
       | S retries' =>
           if isTransient error then
             record (Warned retries) ;;;
             record (Delayed baseDelay) ;;;
             callAIWithRetry operation retries' (baseDelay * 2)
           else throw error
       | O => throw error
       end).

(** How often a timeline invoked the operation, and the delays it
    waited, in order. *)
Definition invocations (tl : list Step) : nat :=
  length (filter (fun st => st = Invoked) tl).

Fixpoint delays (tl : list Step) : list Z :=
  match tl with
  | [] => []
  | Delayed ms :: rest => ms :: delays rest
  | _ :: rest => delays rest
  end.

(** The defaults of [retries] and [baseDelay]. *)
Definition defaultRetries : nat := 3.
Definition defaultBaseDelay : Z := 2000.

(** [cleaned.replace(/^```json\s*/i, empty)] *)
Definition dropJsonFence (s : jsstring) : jsstring :=
  if startsWith (lit "```json") (map lowerAscii (take 7 s))
  then trimStart (drop 7 s) else s.

(** [cleaned.replace(/^```\s*/, empty)] *)
Definition dropFence (s : jsstring) : jsstring :=
  if startsWith (lit "```") s then trimStart (drop 3 s) else s.

(** [cleaned.replace(/\s*```$/, empty)]: the leftmost match starts at the
    white space before the closing fence. *)
Definition dropClosingFence (s : jsstring) : jsstring :=
  if endsWith (lit "```") s then trimEnd (take (length s - 3) s) else s.

Definition cleanJson (text : jsstring) : jsstring :=
  if isEmpty text then lit "{}"
  else
    let cleaned := trim text in
    let cleaned := dropFence (dropJsonFence cleaned) in
    let cleaned := dropClosingFence cleaned in
    trim cleaned.

(** The provider side of the service: requests sent, identities drawn,
    parse errors written to the console. *)
Record AiState : Type := mkAi {
  requests : nat;
  uuids : nat;
  parseErrors : nat
}.

(** [await ai.models.generateContent(...)], giving [response.text] *)
Definition generateContent (env : Env) (req : Request)
  : M AiState (option jsstring) :=
  fun s =>
    (provider env (requests s) req,
     mkAi (S (requests s)) (uuids s) (parseErrors s)).

Definition cryptoRandomUUID (env : Env) : M AiState Id :=
  fun s =>
    (Returned (randomUUID env (uuids s)),
     mkAi (requests s) (S (uuids s)) (parseErrors s)).

Definition consoleError : M AiState unit :=
  modify (fun s => mkAi (requests s) (uuids s) (S (parseErrors s))).

(** [response.text || fallback] *)
Definition textOr (text : option jsstring) (fallback : jsstring) : jsstring :=
  match text with
  | Some t => orElse t fallback
  | None => fallback
  end.

(** The message of the content-format error: AI生成格式错误，请重试 *)
Definition formatErrorMessage : jsstring :=
  [65; 73; 29983; 25104; 26684; 24335; 38169; 35823; 65292; 35831; 37325;
   35797]%N.

Definition formatError : JsError := newError formatErrorMessage.

(** [generateTrendConfig(apiKey)].  The result is the parsed value
    itself, cast to [NovelConfig] by the source without a check. *)
Definition generateTrendConfig (env : Env) : M (Timed AiState) JSON :=
  callAIWithRetry
    (text <- generateContent env TrendRequest ;;
     match parse (cleanJson (textOr text (lit "{}"))) with
     | Some v => ret v
     | None => consoleError ;;; throw formatError
     end)
    defaultRetries defaultBaseDelay.

(** The fields the response schema of [generateTrendConfig] requires. *)
Definition requiredFields : list jsstring :=
  [lit "title"; lit "genre"; lit "protagonist"; lit "worldSetting";
   lit "writingStyle"].

Definition hasRequiredFields (v : JSON) : bool :=
  match v with
  | JObject _ =>
      forallb (fun k => bool_decide (is_Some (member k v))) requiredFields
  | _ => false
  end.

(** [item.title] and [item.summary] of a parsed entry.  [types.ts]
    declares both as strings and the response schema requires them as
    strings; the source stores whatever the member is.  A member that is
    missing or not a string lies outside the [Chapter] type: the empty
    string stands in for it here, and no statement below speaks of the
    title or summary of a chapter made from such an entry. *)
Definition textMember (key : string) (item : JSON) : jsstring :=
  match member (lit key) item with
  | Some (JString str) => str
  | _ => []
  end.

Definition nullReadError : JsError :=
  newError (lit "Cannot read properties of null").

(** [data.map(item => ({ id: crypto.randomUUID(), title: item.title,
    summary: item.summary, content: empty, isGenerated: false }))]: the
    identity is drawn first, then reading a member of [null] throws. *)
Fixpoint mapItems (env : Env) (items : list JSON) : M AiState (list Chapter.t) :=
  match items with
  | [] => ret []
  | item :: rest =>
      id <- cryptoRandomUUID env ;;
      match item with
      | JNull => throw nullReadError
      | _ =>
          mapped <- mapItems env rest ;;
          ret (Chapter.mk id (textMember "title" item)
                 (textMember "summary" item) [] false :: mapped)
      end
  end.

Definition syntaxError : JsError := newError (lit "Unexpected token").

(** [previousChaptersContext.slice(-5)] *)
Definition lastFive (cs : list Chapter.t) : list Chapter.t :=
  drop (length cs - 5) cs.

(** [generateChapterBatch(apiKey, config, outline, startChapterIndex,
    batchSize, previousChaptersContext)]; the case [JArray] is the test
    [Array.isArray(data)]. *)
Definition generateChapterBatch (env : Env) (config : NovelConfig.t)
  (outline : jsstring) (startChapterIndex batchSize : Z)
  (previousChaptersContext : list Chapter.t)
  : M (Timed AiState) (list Chapter.t) :=
  let request :=
    BatchRequest config (sliceFirst 1500 outline) startChapterIndex
      batchSize (lastFive previousChaptersContext) in
  callAIWithRetry
    (text <- generateContent env request ;;
     tryCatch
       (match parse (cleanJson (textOr text (lit "[]"))) with
        | None => throw syntaxError
        | Some (JArray items) => mapItems env items
        | Some _ => ret []
        end)
       (fun _ => consoleError ;;; ret []))
    defaultRetries defaultBaseDelay.

(** The text returned in place of an empty answer: 生成内容为空。 *)
Definition emptyContentText : jsstring :=
  [29983; 25104; 20869; 23481; 20026; 31354; 12290]%N.

(** [generateChapterContent(apiKey, config, currentChapter,
    previousContext, outline)] *)
Definition generateChapterContent (env : Env) (config : NovelConfig.t)
  (currentChapter : Chapter.t) (previousContext outline : jsstring)
  : M (Timed AiState) jsstring :=
  let request :=
    ContentRequest config (Chapter.title currentChapter)
      (Chapter.summary currentChapter) previousContext
      (sliceFirst 800 outline) in
  callAIWithRetry
    (text <- generateContent env request ;;
     ret (textOr text emptyContentText))
    defaultRetries defaultBaseDelay.

End GeminiService.

(* ================================================================== *)
(** ** [fileSystemService.ts] *)
(* ================================================================== *)

Module FileSystemService.
Import JS.

(** A handle is the path it stands for, below the connected directory. *)
Abbreviation Path := (list (list N)).

Inductive FileContent : Type :=
| Text (text : jsstring)
| ConfigJson (config : NovelConfig.t). (* [JSON.stringify(config, null, 2)] *)

(** The [console.error] lines of this module. *)
Inductive ErrorLine : Type :=
| FailedDirectoryHandle
| ErrorSavingConfig
| ErrorSavingOutline
| ErrorSavingChapter (number : nat)
| ErrorSavingAllChapters.

Record FsState : Type := mkFs {
  (** the module variable: whether a directory handle is held *)
  rootDirectoryHandle : bool;
  (** calls of the storage API so far *)
  storageCalls : nat;
  (** files closed after a write, newest first *)
  files : list (Path * FileContent);
  (** the console, newest first *)
  console : list (ErrorLine * JsError);
  (** the directories and files that exist below the connected directory,
      newest first: [getDirectoryHandle] and [getFileHandle] with
      [create: true] make the entry when they resolve, whatever becomes of
      the write that follows *)
  entries : list Path
}.

(** One awaited call of the storage API: it resolves or rejects as the
    environment says. *)
Definition storageCall (env : Env) : M FsState unit :=
  fun s =>
    let s' := mkFs (rootDirectoryHandle s) (S (storageCalls s)) (files s)
                (console s) (entries s) in
    match storage env (storageCalls s) with
    | None => (Returned tt, s')
    | Some e => (Thrown e, s')
    end.

Definition consoleError (line : ErrorLine) (e : JsError) : M FsState unit :=
  modify (fun s => mkFs (rootDirectoryHandle s) (storageCalls s) (files s)
                     ((line, e) :: console s) (entries s)).

(** The entries after [path] has been opened with [create: true]: an
    entry that exists is kept, one that does not is made. *)
Definition created (path : Path) (existing : list Path) : list Path :=
  if bool_decide (elem_of path existing) then existing
  else path :: existing.

(** The entries after the [paths] have been opened in turn. *)
Definition createdAll (paths existing : list Path) : list Path :=
  fold_left (fun known path => created path known) paths existing.

Definition create (path : Path) : M FsState unit :=
  modify (fun s => mkFs (rootDirectoryHandle s) (storageCalls s) (files s)
                     (console s) (created path (entries s))).

(** [parent.getDirectoryHandle(name, { create: true })] *)
Definition getDirectoryHandle (env : Env) (parent : Path) (name : jsstring)
  : M FsState Path :=
  storageCall env ;;; create (parent ++ [name]) ;;; ret (parent ++ [name]).

(** [dir.getFileHandle(name, { create: true })] *)
Definition getFileHandle (env : Env) (dir : Path) (name : jsstring)
  : M FsState Path :=
  storageCall env ;;; create (dir ++ [name]) ;;; ret (dir ++ [name]).

(** [createWritable], [write], [close]: the file holds the content once
    [close] has resolved; until then it holds what it held before. *)
Definition writeFile (env : Env) (file : Path) (content : FileContent)
  : M FsState unit :=
  storageCall env ;;;
  storageCall env ;;;
  storageCall env ;;;
  modify (fun s => mkFs (rootDirectoryHandle s) (storageCalls s)
                     ((file, content) :: files s) (console s) (entries s)).

(** The class [a-z0-9\u4e00-\u9fa5-_] under the [i] flag. *)
Definition isSafeTitleUnit (c : N) : bool :=
  let l := lowerAscii c in
  ((97 <=? l) && (l <=? 122) || isDigit c
   || (19968 <=? c) && (c <=? 40869) || (c =? 45) || (c =? 95))%N.

(** [novelTitle.replace(/[^a-z0-9\u4e00-\u9fa5-_]/gi, '_')
     || 'Untitled_Novel'] *)
Definition safeDirectoryName (novelTitle : jsstring) : jsstring :=
  orElse (map (fun c => if isSafeTitleUnit c then c else 95%N) novelTitle)
    (lit "Untitled_Novel").

(** [getNovelDirectory(novelTitle)]; [None] is the [null] result. *)
Definition getNovelDirectory (env : Env) (novelTitle : jsstring)
  : M FsState (option Path) :=
  s <- get ;;
  if negb (rootDirectoryHandle s) then ret None
  else
    let safeTitle := safeDirectoryName novelTitle in
    tryCatch
      (dir <- getDirectoryHandle env [] safeTitle ;; ret (Some dir))
      (fun e => consoleError FailedDirectoryHandle e ;;; ret None).

Definition saveNovelConfig (env : Env) (novel : Novel.t) : M FsState unit :=
  s <- get ;;
  if negb (rootDirectoryHandle s) then ret tt
  else
    tryCatch
      (dir <- getNovelDirectory env (NovelConfig.title (Novel.config novel)) ;;
       match dir with
       | None => ret tt
       | Some dir =>
           fileHandle <- getFileHandle env dir (lit "setting.json") ;;
           writeFile env fileHandle (ConfigJson (Novel.config novel))
       end)
      (fun e => consoleError ErrorSavingConfig e).

Definition saveOutline (env : Env) (novel : Novel.t) : M FsState unit :=
  s <- get ;;
  if negb (rootDirectoryHandle s) then ret tt
  else
    tryCatch
      (dir <- getNovelDirectory env (NovelConfig.title (Novel.config novel)) ;;
       match dir with
       | None => ret tt
       | Some dir =>
           fileHandle <- getFileHandle env dir (lit "outline.txt") ;;
           writeFile env fileHandle (Text (Novel.outline novel))
       end)
      (fun e => consoleError ErrorSavingOutline e).

(** The class of characters replaced in a file name: backslash, slash,
    colon, star, question mark, double quote, angle brackets, bar. *)
Definition isReservedUnit (c : N) : bool :=
  ((c =? 92) || (c =? 47) || (c =? 58) || (c =? 42) || (c =? 63)
   || (c =? 34) || (c =? 60) || (c =? 62) || (c =? 124))%N.

(** The file name of the chapter at [index]: the number padded to four
    digits, an underscore, the first 50 units of the sanitised title. *)
Definition chapterFileName (chapter : Chapter.t) (index : nat) : jsstring :=
  let num := padStart0 4 (decimal (N.of_nat (index + 1))) in
  let safeTitle :=
    sliceFirst 50
      (map (fun c => if isReservedUnit c then 95%N else c)
         (orElse (Chapter.title chapter) (lit "Untitled"))) in
  num ++ lit "_" ++ safeTitle ++ lit ".txt".

(** The file body: 第 number 章： title, an empty line, the content. *)
Definition chapterFileText (chapter : Chapter.t) (index : nat) : jsstring :=
  [31532%N] ++ decimal (N.of_nat (index + 1)) ++ [31456; 65306]%N
    ++ Chapter.title chapter ++ [10; 10]%N ++ Chapter.content chapter.

Definition saveChapter (env : Env) (novel : Novel.t) (chapter : Chapter.t)
  (index : nat) : M FsState unit :=
  s <- get ;;
  if negb (rootDirectoryHandle s) then ret tt
  else
    tryCatch
      (dir <- getNovelDirectory env (NovelConfig.title (Novel.config novel)) ;;
       match dir with
       | None => ret tt
       | Some dir =>
           chaptersDir <- getDirectoryHandle env dir (lit "chapters") ;;
           fileHandle <- getFileHandle env chaptersDir
                           (chapterFileName chapter index) ;;
           writeFile env fileHandle (Text (chapterFileText chapter index))
       end)
      (fun e => consoleError (ErrorSavingChapter (index + 1)) e).

(** The body of the [for] loop of [saveAllChapters], from index [i]. *)
Fixpoint saveChaptersFrom (env : Env) (novel : Novel.t)
  (rest : list Chapter.t) (i : nat) : M FsState unit :=
  match rest with
  | [] => ret tt
  | chapter :: rest' =>
      when (negb (isEmpty (Chapter.content chapter))
            && (0 <? length (trim (Chapter.content chapter))))
        (saveChapter env novel chapter i) ;;;
      saveChaptersFrom env novel rest' (S i)
  end.

Definition saveAllChapters (env : Env) (novel : Novel.t) : M FsState unit :=
  s <- get ;;
  if negb (rootDirectoryHandle s) then ret tt
  else
    tryCatch
      (saveChaptersFrom env novel (Novel.chapters novel) 0)
      (fun e => consoleError ErrorSavingAllChapters e).

(** How many of the storage calls numbered [from] up to [to - 1] the
    environment rejects. *)
Definition rejections (env : Env) (from to : nat) : nat :=
  length (filter (fun k => is_Some (storage env k)) (seq from (to - from))).

(** A step from [s] to [s'] that completed as [c] has every rejection
    among its storage calls on the console, but for the one it still
    throws; it keeps the connected directory. *)
Definition settles (env : Env) {A} (c : Completion A) (s s' : FsState)
  : Prop :=
  rootDirectoryHandle s' = rootDirectoryHandle s
  /\ storageCalls s <= storageCalls s'
  /\ length (console s') + (match c with Thrown _ => 1 | Returned _ => 0 end)
     = length (console s) + rejections env (storageCalls s) (storageCalls s').

(** Every run of [m] settles. *)
Definition Tracked (env : Env) {A} (m : M FsState A) : Prop :=
  forall s, settles env (fst (m s)) s (snd (m s)).

(** A handler that writes one line on the console and returns. *)
Definition Logging {A} (h : M FsState A) : Prop :=
  forall s,
    (exists a, fst (h s) = Returned a)
    /\ rootDirectoryHandle (snd (h s)) = rootDirectoryHandle s
    /\ storageCalls (snd (h s)) = storageCalls s
    /\ length (console (snd (h s))) = S (length (console s)).

(** [m] never throws. *)
Definition Total {A} (m : M FsState A) : Prop :=
  forall s, exists a, fst (m s) = Returned a.

End FileSystemService.

(* ================================================================== *)
(** ** Component state and the world *)
(* ================================================================== *)

(** State of [App]. *)
Module AppState.
Record t : Type := mk {
  novels : list Novel.t;
  activeNovelId : option Id;
  isFileSystemReady : bool;
  (** the item [gemini_novel_library] of [localStorage], as the library
      its text encodes; [None] while the item is absent *)
  localStorage : option (list Novel.t);
  (** readings of the clock so far *)
  clockReads : nat
}.
End AppState.

(** State of [WriterInterface]. *)
Module WriterState.

(** The lines given to [addLog]. *)
Inductive LogLine : Type :=
| StartContent
| ContentSaved
| ContentFailed
| Stopping
| BatchStart (chapterNumber : nat)
| UserStopped
| ReachedLastChapter
| Writing (current total : nat)
| ChapterSaved
| BatchComplete
| BatchError.

Inductive Alert : Type :=
| NeedChapterList
| AllChaptersComplete
| BatchInterrupted
| ContentGenerationFailed.

Record t : Type := mk {
  activeChapterId : option Id;
  isGenerating : bool;
  batchProgress : option (nat * nat);
  logs : list LogLine;
  (** [abortBatchRef.current] *)
  abortBatchRef : bool;
  (** every value given to [setBatchProgress], oldest first *)
  progressReports : list (option (nat * nat));
  (** [alert] dialogs shown, oldest first *)
  alerts : list Alert;
  (** awaited steps of continuation runs completed so far *)
  awaited : nat
}.

Definition setActiveChapterId (v : option Id) (s : t) : t :=
  mk v (isGenerating s) (batchProgress s) (logs s) (abortBatchRef s)
    (progressReports s) (alerts s) (awaited s).

Definition setIsGenerating (v : bool) (s : t) : t :=
  mk (activeChapterId s) v (batchProgress s) (logs s) (abortBatchRef s)
    (progressReports s) (alerts s) (awaited s).

Definition setBatchProgress (v : option (nat * nat)) (s : t) : t :=
  mk (activeChapterId s) (isGenerating s) v (logs s) (abortBatchRef s)
    (progressReports s ++ [v]) (alerts s) (awaited s).

(** [setLogs(prev => [...prev.slice(-4), msg])] *)
Definition addLog (msg : LogLine) (s : t) : t :=
  mk (activeChapterId s) (isGenerating s) (batchProgress s)
    (drop (length (logs s) - 4) (logs s) ++ [msg]) (abortBatchRef s)
    (progressReports s) (alerts s) (awaited s).

Definition setAbort (v : bool) (s : t) : t :=
  mk (activeChapterId s) (isGenerating s) (batchProgress s) (logs s) v
    (progressReports s) (alerts s) (awaited s).

Definition alert (a : Alert) (s : t) : t :=
  mk (activeChapterId s) (isGenerating s) (batchProgress s) (logs s)
    (abortBatchRef s) (progressReports s) (alerts s ++ [a]) (awaited s).

Definition tick (s : t) : t :=
  mk (activeChapterId s) (isGenerating s) (batchProgress s) (logs s)
    (abortBatchRef s) (progressReports s) (alerts s) (S (awaited s)).

End WriterState.

(** State of [OutlineView]. *)
Module OutlineState.
Record t : Type := mk {
  isGenerating : bool;
  progress : option (nat * Z);
  (** every value given to [setProgress], oldest first *)
  progressReports : list (option (nat * Z));
  (** [alert] dialogs shown *)
  alerts : nat
}.

Definition setIsGenerating (v : bool) (s : t) : t :=
  mk v (progress s) (progressReports s) (alerts s).

Definition setProgress (v : option (nat * Z)) (s : t) : t :=
  mk (isGenerating s) v (progressReports s ++ [v]) (alerts s).

Definition alert (s : t) : t :=
  mk (isGenerating s) (progress s) (progressReports s) (S (alerts s)).
End OutlineState.

Record World : Type := mkWorld {
  ai : GeminiService.Timed GeminiService.AiState;
  fs : FileSystemService.FsState;
  application : AppState.t;
  writer : WriterState.t;
  outlineView : OutlineState.t
}.

Definition onAi {A} (m : M (GeminiService.Timed GeminiService.AiState) A)
  : M World A :=
  zoom ai (fun x w => mkWorld x (fs w) (application w) (writer w) (outlineView w)) m.

Definition onFs {A} (m : M FileSystemService.FsState A) : M World A :=
  zoom fs (fun x w => mkWorld (ai w) x (application w) (writer w) (outlineView w)) m.

Definition onApp {A} (m : M AppState.t A) : M World A :=
  zoom application (fun x w => mkWorld (ai w) (fs w) x (writer w) (outlineView w)) m.

Definition onWriter (f : WriterState.t -> WriterState.t) : M World unit :=
  modify (fun w => mkWorld (ai w) (fs w) (application w) (f (writer w)) (outlineView w)).

Definition onOutlineView (f : OutlineState.t -> OutlineState.t) : M World unit :=
  modify (fun w => mkWorld (ai w) (fs w) (application w) (writer w) (f (outlineView w))).

(** [await new Promise(r => setTimeout(r, 500))] of the two loops: nothing
    of the state changes while the timer runs. *)
Definition pause (ms : Z) : M World unit := ret tt.

(* ================================================================== *)
(** ** [components/WriterInterface.tsx] *)
(* ================================================================== *)

Module WriterInterface.
Import JS WriterState.

Record Props : Type := mkProps {
  chapters : list Chapter.t;
  config : NovelConfig.t;
  outline : jsstring;
  onUpdateChapters : list Chapter.t -> M World unit;
  saveChapterData : Chapter.t -> nat -> M World unit
}.

(** [cs.findIndex(c => c.id === id)]; [None] is the result -1. *)
Definition findIndex (id : option Id) (cs : list Chapter.t) : option nat :=
  fst <$> list_find (fun c => Some (Chapter.id c) = id) cs.

(** 这是第一章，暂无前情提要。 *)
Definition firstChapterContext : jsstring :=
  [36825; 26159; 31532; 19968; 31456; 65292; 26242; 26080; 21069; 24773;
   25552; 35201; 12290]%N.

(** 【上章梗概】： *)
Definition summaryMarker : jsstring :=
  [12304; 19978; 31456; 26775; 27010; 12305; 65306]%N.

(** 【上章正文结尾】：, a line feed and three dots *)
Definition endingMarker : jsstring :=
  [12304; 19978; 31456; 27491; 25991; 32467; 23614; 12305; 65306; 10; 46;
   46; 46]%N.

Definition getContext (currentChap : Chapter.t) (allChapters : list Chapter.t)
  : jsstring :=
  match findIndex (Some (Chapter.id currentChap)) allChapters with
  | Some (S before) =>
      match allChapters !! before with
      | Some prevChapter =>
          let prevText := Chapter.content prevChapter in
          if isEmpty prevText || (length prevText <? 50)
          then summaryMarker ++ Chapter.summary prevChapter
          else endingMarker ++ sliceLast 3000 prevText
      | None => firstChapterContext (* not reached: before < currentIndex *)
      end
  | _ => firstChapterContext
  end.

Definition handleStopBatch (s : WriterState.t) : WriterState.t :=
  addLog Stopping (setAbort true s).

(** The stop button is rendered while [isGenerating && batchProgress]. *)
Definition stopButtonShown (s : WriterState.t) : bool :=
  isGenerating s && bool_decide (is_Some (batchProgress s)).

(** What happens in the component while an awaited step is pending: the
    user may press the stop button. *)
Definition whilePending (env : Env) (s : WriterState.t) : WriterState.t :=
  let s' := tick s in
  if stopPressed env (awaited s) && stopButtonShown s
  then handleStopBatch s' else s'.

(** The [current] of the last progress shown, if any. *)
Fixpoint lastReported (reports : list (option (nat * nat))) : option nat :=
  match reports with
  | [] => None
  | r :: rest =>
      match lastReported rest with
      | Some k => Some k
      | None => fst <$> r
      end
  end.

(** [await m] inside a continuation run. *)
Definition awaiting {A} (env : Env) (m : M World A) : M World A :=
  fun w =>
    let '(c, w') := m w in
    (c, mkWorld (ai w') (fs w') (application w') (whilePending env (writer w'))
          (outlineView w')).

Definition chaptersToGenCount : nat := 10.

(** The [while] loop that looks for the chapter to start at: [rest] is
    the list from [startIndex] on. *)
Fixpoint skipWritten (rest : list Chapter.t) (startIndex : nat) : nat :=
  match rest with
  | c :: rest' =>
      if 500 <? length (Chapter.content c)
      then skipWritten rest' (S startIndex) else startIndex
  | [] => startIndex
  end.

(** The index at which [handleBatchGenerate] starts: from the selected
    chapter (the first when none is selected) forward to the first chapter
    the loop above does not skip. *)
Definition findStartIndex (activeChapterId : option Id)
  (chapters : list Chapter.t) : nat :=
  let currentIdx := default 0 (findIndex activeChapterId chapters) in
  skipWritten (drop currentIdx chapters) currentIdx.

(** The [for] loop of [handleBatchGenerate] with [left] iterations to go
    at counter [i]; the result is [localChapters] when the loop ends. *)
Fixpoint batchLoop (env : Env) (props : Props) (total startIndex : nat)
  (left i : nat) (localChapters : list Chapter.t)
  : M World (list Chapter.t) :=
  match left with
  | O => ret localChapters
  | S left' =>
      w <- get ;;
      if abortBatchRef (writer w) then
        onWriter (addLog UserStopped) ;;; ret localChapters
      else
        let targetIndex := startIndex + i in
        match localChapters !! targetIndex with
        | None =>
            onWriter (addLog ReachedLastChapter) ;;; ret localChapters
        | Some targetChapter =>
            onWriter (setActiveChapterId (Some (Chapter.id targetChapter))) ;;;
            onWriter (addLog (Writing (i + 1) total)) ;;;
            onWriter (setBatchProgress (Some (i + 1, total))) ;;;
            let context := getContext targetChapter localChapters in
            content <- awaiting env
              (onAi (GeminiService.generateChapterContent env (config props)
                       targetChapter context (outline props))) ;;
            let localChapters' :=
              <[targetIndex := Chapter.written targetChapter content]>
                localChapters in
            onUpdateChapters props localChapters' ;;;
            awaiting env
              (saveChapterData props
                 (Chapter.written targetChapter content) targetIndex) ;;;
            onWriter (addLog ChapterSaved) ;;;
            awaiting env (pause 500) ;;;
            batchLoop env props total startIndex left' (S i) localChapters'
        end
  end.

Definition handleBatchGenerate (env : Env) (props : Props) : M World unit :=
  w <- get ;;
  if isGenerating (writer w) then ret tt
  else if bool_decide (length (chapters props) = 0) then
    onWriter (alert NeedChapterList)
  else
    onWriter (setAbort false) ;;;
    let startIndex :=
      findStartIndex (activeChapterId (writer w)) (chapters props) in
    if length (chapters props) <=? startIndex then
      onWriter (alert AllChaptersComplete)
    else
      onWriter (setIsGenerating true) ;;;
      onWriter (setBatchProgress (Some (0, chaptersToGenCount))) ;;;
      onWriter (addLog (BatchStart (startIndex + 1))) ;;;
      let localChapters := chapters props in
      tryFinally
        (tryCatch
           (batchLoop env props chaptersToGenCount startIndex
              chaptersToGenCount 0 localChapters ;;;
            w' <- get ;;
            when (negb (abortBatchRef (writer w')))
              (onWriter (addLog BatchComplete)))
           (fun e =>
              onWriter (addLog BatchError) ;;;
              onWriter (alert BatchInterrupted)))
        (fun w' =>
           mkWorld (ai w') (fs w') (application w')
             (setAbort false
                (setBatchProgress None (setIsGenerating false (writer w'))))
             (outlineView w')).



(** [after] is [before] with the units at positions [from] up to
    [to - 1] written: each got a non-empty body and the generated flag,
    and kept the rest; no other position changed. *)
Definition writtenRange (before after : list Chapter.t) (from to : nat)
  : Prop :=
  length after = length before
  /\ (forall j, from <= j < to ->
        exists c text,
          before !! j = Some c
          /\ after !! j = Some (Chapter.written c text)
          /\ text <> [])
  /\ (forall j, ~ (from <= j < to) -> after !! j = before !! j).

(** Every call of generate-unit-content succeeds. *)
Definition Succeeds (env : Env) : Prop :=
  forall cfg c ctx o s,
    exists text s',
      GeminiService.generateChapterContent env cfg c ctx o s
      = (Returned text, s').

End WriterInterface.

(* ================================================================== *)
(** ** [components/OutlineView.tsx] *)
(* ================================================================== *)

Module OutlineView.
Import JS.

Record Props : Type := mkProps {
  outline : jsstring;
  config : NovelConfig.t;
  onChaptersGenerated : list Chapter.t -> M World unit
}.

Definition BATCH_SIZE : Z := 20.

(** The [while] loop of [handleGenerateChapters] for a batch size
    [batchSize].  [fuel] bounds the number of times the loop condition
    is tested; [None] means the loop has not ended within that bound.
    Otherwise the result is [allChapters] as the loop leaves it, with the
    way the loop ended. *)
Fixpoint planLoop (fuel : nat) (env : Env) (batchSize : Z)
  (config : NovelConfig.t) (localOutline : jsstring)
  (allChapters : list Chapter.t) (w : World)
  : option (list Chapter.t * Completion unit * World) :=
  match fuel with
  | O => None
  | S fuel' =>
      let target := NovelConfig.targetChapterCount config in
      if (Z.of_nat (length allChapters) <? target)%Z then
        let remaining := (target - Z.of_nat (length allChapters))%Z in
        let currentBatchSize := Z.min batchSize remaining in
        let startIndex := Z.of_nat (length allChapters) in
        match onAi (GeminiService.generateChapterBatch env config
                      localOutline startIndex currentBatchSize allChapters) w
        with
        | (Thrown e, w1) => Some (allChapters, Thrown e, w1)
        | (Returned newBatch, w1) =>
            let allChapters' := allChapters ++ newBatch in
            match (onOutlineView
                     (OutlineState.setProgress
                        (Some (length allChapters', target))) ;;;
                   pause 500) w1
            with
            | (Thrown e, w2) => Some (allChapters', Thrown e, w2)
            | (Returned _, w2) =>
                planLoop fuel' env batchSize config localOutline
                  allChapters' w2
            end
        end
      else Some (allChapters, Returned tt, w)
  end.

(** [handleGenerateChapters], with [localOutline] the outline held by the
    component. *)
Definition handleGenerateChapters (fuel : nat) (env : Env) (props : Props)
  (localOutline : jsstring) (w : World) : option (Completion unit * World) :=
  let start :=
    (onOutlineView (OutlineState.setIsGenerating true) ;;;
     onOutlineView
       (OutlineState.setProgress
          (Some (0, NovelConfig.targetChapterCount (config props))))) in
  let finish (w' : World) : World :=
    mkWorld (ai w') (fs w') (application w') (writer w')
      (OutlineState.setProgress None
         (OutlineState.setIsGenerating false (outlineView w'))) in
  match planLoop fuel env BATCH_SIZE (config props) localOutline []
          (snd (start w))
  with
  | None => None
  | Some (allChapters, loopEnd, w1) =>
      Some (tryFinally
              (tryCatch
                 (match loopEnd with
                  | Returned _ => onChaptersGenerated props allChapters
                  | Thrown e => throw e
                  end)
                 (fun _ =>
                    onOutlineView OutlineState.alert ;;;
                    when (0 <? length allChapters)
                      (onChaptersGenerated props allChapters)))
              finish w1)
  end.

(** Every answer of the provider is a list of at least [lo] and at
    most [hi] entries, none of them [null]. *)
Definition AnswersEntries (env : Env) (lo hi : nat) : Prop :=
  forall k req,
    exists text items,
      provider env k req = Returned text
      /\ Json.parse
           (GeminiService.cleanJson (GeminiService.textOr text (lit "[]")))
         = Some (Json.JArray items)
      /\ Forall (fun item => item <> Json.JNull) items
      /\ lo <= length items <= hi.

(** The progress values of [reports] are counts that grow strictly,
    starting above [from]. *)
Fixpoint strictlyIncreasing (from : nat) (reports : list (option (nat * Z)))
  : Prop :=
  match reports with
  | [] => True
  | Some (current, _) :: rest =>
      from < current /\ strictlyIncreasing current rest
  | None :: _ => False
  end.

End OutlineView.

(* ================================================================== *)
(** ** [App.tsx] *)
(* ================================================================== *)

Module App.
Import JS AppState.

(** A [Partial<Novel>] as the callers of [updateActiveNovel] build it. *)
Record Updates : Type := mkUpdates {
  newConfig : option NovelConfig.t;
  newOutline : option jsstring;
  newChapters : option (list Chapter.t);
  newStep : option AppStep
}.

(** [{ ...n, ...updates, lastModified: now }] *)
Definition merge (n : Novel.t) (updates : Updates) (now : Z) : Novel.t :=
  Novel.mk (Novel.id n) now
    (default (Novel.config n) (newConfig updates))
    (default (Novel.outline n) (newOutline updates))
    (default (Novel.chapters n) (newChapters updates))
    (Novel.currentChapterId n)
    (default (Novel.step n) (newStep updates)).

(** The effect on [novels]: the library is written to [localStorage]
    when it is not empty. *)
Definition persistLibrary (s : t) : t :=
  if 0 <? length (novels s)
  then mk (novels s) (activeNovelId s) (isFileSystemReady s)
         (Some (novels s)) (clockReads s)
  else s.

(** [setNovels(update)] and the commit that follows it, which runs the
    effect. *)
Definition setNovels (update : list Novel.t -> list Novel.t) (s : t) : t :=
  persistLibrary
    (mk (update (novels s)) (activeNovelId s) (isFileSystemReady s)
       (localStorage s) (clockReads s)).

Definition setActiveNovelId (v : option Id) (s : t) : t :=
  mk (novels s) v (isFileSystemReady s) (localStorage s) (clockReads s).

(** [novels.find(n => n.id === activeNovelId) || null] *)
Definition activeNovel (s : t) : option Novel.t :=
  snd <$> list_find (fun n => Some (Novel.id n) = activeNovelId s) (novels s).

(** [prev.map(n => n.id === activeNovelId
      ? { ...n, ...updates, lastModified: Date.now() } : n)],
    reading the clock once for each match. *)
Fixpoint mapUpdates (env : Env) (activeId : Id) (updates : Updates)
  (prev : list Novel.t) (reads : nat) : list Novel.t * nat :=
  match prev with
  | [] => ([], reads)
  | n :: rest =>
      if bool_decide (Novel.id n = activeId) then
        let '(rest', reads') :=
          mapUpdates env activeId updates rest (S reads) in
        (merge n updates (dateNow env reads) :: rest', reads')
      else
        let '(rest', reads') := mapUpdates env activeId updates rest reads in
        (n :: rest', reads')
  end.

(** [updateActiveNovel(updates)] of a render in which the active
    identity is [activeId]; nothing happens while that is [null] or the
    empty string. *)
Definition updateActiveNovel (env : Env) (activeId : option Id)
  (updates : Updates) (s : t) : t :=
  match activeId with
  | None => s
  | Some id =>
      if isEmpty id then s
      else
        let '(novels', reads') :=
          mapUpdates env id updates (novels s) (clockReads s) in
        setNovels (fun _ => novels')
          (mk (novels s) (activeNovelId s) (isFileSystemReady s)
             (localStorage s) reads')
  end.

Definition handleDeleteNovel (id : Id) (s : t) : t :=
  let s' :=
    setNovels (filter (fun n => Novel.id n <> id)) s in
  if bool_decide (activeNovelId s = Some id)
  then setActiveNovelId None s' else s'.

(** The state of a freshly mounted [App] over a [localStorage], after the
    two mount effects: the library is restored from the stored item. *)
Definition mount (stored : option (list Novel.t)) : t :=
  let initial := persistLibrary (mk [] None false stored 0) in
  match stored with
  | Some saved => setNovels (fun _ => saved) initial
  | None => initial
  end.

(** The unit list of the active novel. *)
Definition activeChapters (s : t) : option (list Chapter.t) :=
  Novel.chapters <$> activeNovel s.

(** [handleChaptersGenerated] of a render with active novel [active]. *)
Definition handleChaptersGenerated (env : Env) (activeId : option Id)
  (active : option Novel.t) (generatedChapters : list Chapter.t)
  : M World unit :=
  match active with
  | None => ret tt
  | Some _ =>
      onApp (modify (updateActiveNovel env activeId
                       (mkUpdates None None (Some generatedChapters)
                          (Some WRITING))))
  end.

(** The props [renderContent] gives to [OutlineView]. *)
Definition outlineProps (env : Env) (s : t) : option OutlineView.Props :=
  match activeNovel s with
  | Some n =>
      match Novel.step n with
      | OUTLINE =>
          Some (OutlineView.mkProps (Novel.outline n) (Novel.config n)
                  (handleChaptersGenerated env (activeNovelId s) (Some n)))
      | _ => None
      end
  | None => None
  end.

(** The props [renderContent] gives to [WriterInterface] in a render
    with active identity [activeId], active novel [n] and
    [isFileSystemReady] equal to [ready]; the callbacks close over
    these. *)
Definition writerPropsFor (env : Env) (activeId : option Id) (n : Novel.t)
  (ready : bool) : WriterInterface.Props :=
  WriterInterface.mkProps (Novel.chapters n) (Novel.config n)
    (Novel.outline n)
    (fun newChapters =>
       onApp (modify (updateActiveNovel env activeId
                        (mkUpdates None None (Some newChapters) None))))
    (fun chapter index =>
       if ready
       then onFs (FileSystemService.saveChapter env n chapter index)
       else ret tt).

Definition writerProps (env : Env) (s : t) : option WriterInterface.Props :=
  match activeNovel s with
  | Some n =>
      match Novel.step n with
      | WRITING =>
          Some (writerPropsFor env (activeNovelId s) n (isFileSystemReady s))
      | _ => None
      end
  | None => None
  end.

End App.

(** The environment [env] with another behaviour of the storage. *)
Definition withStorage (env : Env) (storage' : nat -> option JsError) : Env :=
  mkEnv (provider env) (randomUUID env) storage' (dateNow env)
    (stopPressed env).

(** Two worlds that differ at most in the state of the file system
    service. *)
Definition sameButFs (w1 w2 : World) : Prop :=
  ai w1 = ai w2
  /\ application w1 = application w2
  /\ writer w1 = writer w2
  /\ outlineView w1 = outlineView w2.

(** The writer view is shown for the novel [n], whose identity is not the
    empty string, and no generation runs. *)
Definition WriterReady (w : World) (n : Novel.t) : Prop :=
  App.activeNovel (application w) = Some n
  /\ Novel.id n <> []
  /\ Novel.step n = WRITING
  /\ WriterState.isGenerating (writer w) = false.

(** The world in which the loop of a continuation run starts at index
    [P]. *)
Definition runStart (w : World) (P : nat) : World :=
  mkWorld (ai w) (fs w) (application w)
    (WriterState.addLog (WriterState.BatchStart (P + 1))
       (WriterState.setBatchProgress
          (Some (0, WriterInterface.chaptersToGenCount))
          (WriterState.setIsGenerating true
             (WriterState.setAbort false (writer w)))))
    (outlineView w).

(** The world a run leaves when its loop ended in [w2]. *)
Definition runEnd (w2 : World) : World :=
  mkWorld (ai w2) (fs w2) (application w2)
    (WriterState.setAbort false
       (WriterState.setBatchProgress None
          (WriterState.setIsGenerating false
             (if WriterState.abortBatchRef (writer w2) then writer w2
              else WriterState.addLog WriterState.BatchComplete (writer w2)))))
    (outlineView w2).

(** The world a run leaves when its loop threw in [w2]. *)
Definition runFailed (w2 : World) : World :=
  mkWorld (ai w2) (fs w2) (application w2)
    (WriterState.setAbort false
       (WriterState.setBatchProgress None
          (WriterState.setIsGenerating false
             (WriterState.alert WriterState.BatchInterrupted
                (WriterState.addLog WriterState.BatchError (writer w2))))))
    (outlineView w2).

(** The file system after the units at the positions [from], ...,
    [from + count - 1] of [after] have been saved in turn, as the loop of a
    continuation run saves each unit it has written. *)
Fixpoint savedUnits (env : Env) (n : Novel.t) (after : list Chapter.t)
  (from count : nat) (f : FileSystemService.FsState)
  : FileSystemService.FsState :=
  match count with
  | 0 => f
  | S count' =>
      match after !! from with
      | Some c =>
          savedUnits env n after (S from) count'
            (snd (FileSystemService.saveChapter env n c from f))
      | None => f
      end
  end.

(** The user presses the continuation button of the writer view. *)
Definition pressBatchGenerate (env : Env) (w : World) : Completion unit * World :=
  match App.writerProps env (application w) with
  | Some props => WriterInterface.handleBatchGenerate env props w
  | None => (Returned tt, w)
  end.

(** The user presses the button that plans the chapter list. *)
Definition pressGenerateChapters (fuel : nat) (env : Env) (w : World)
  : option (Completion unit * World) :=
  match App.outlineProps env (application w) with
  | Some props =>
      OutlineView.handleGenerateChapters fuel env props
        (OutlineView.outline props) w
  | None => Some (Returned tt, w)
  end.


(* ================================================================== *)
(** ** Sample inputs *)
(* ================================================================== *)

Module Samples.
Import JS Json GeminiService.

(** An operation that is overloaded on its first two invocations and
    answers 42 from the third on; its state counts the invocations. *)
Definition flakyOperation : M nat Z :=
  fun n =>
    if n <? 2 then (Thrown (mkError (Some 503%Z) None), S n)
    else (Returned 42%Z, S n).

(** An operation that is always refused. *)
Definition deniedOperation : M nat Z :=
  fun n => (Thrown (newError (lit "denied")), S n).

(** An environment whose provider gives the same answer to every
    request, whose storage never fails and whose user presses the stop
    button during the awaited steps that [stops] selects. *)
Definition answering (text : option jsstring) (stops : nat -> bool) : Env :=
  mkEnv (fun _ _ => Returned text) (fun k => decimal (N.of_nat k))
    (fun _ => None) (fun k => Z.of_nat k) stops.

Definition never : nat -> bool := fun _ => false.

(** The provider answers without text. *)
Definition silentEnv : Env := answering None never.

(** The provider answers with the text 生成内容为空。 *)
Definition echoEnv : Env := answering (Some emptyContentText) never.

(** The provider answers with a list of two entries. *)
Definition twoEntries : jsstring :=
  litq "[{'title':'a','summary':'b'},{'title':'c','summary':'d'}]".

Definition twoEntriesEnv : Env := answering (Some twoEntries) never.

(** The provider answers with an object that has a title only. *)
Definition titleOnly : jsstring := litq "{'title':'x'}".

Definition titleOnlyEnv : Env := answering (Some titleOnly) never.

Definition story : jsstring := lit "Once upon a time".

Definition storyEnv : Env := answering (Some story) never.

(** The user presses stop during the second awaited step, the save of
    the first unit. *)
Definition stoppingEnv : Env :=
  answering (Some story) (fun k => bool_decide (k = 1)).

Definition freshAi : Timed AiState := mkTimed (mkAi 0 0 0) [].

Definition config (target : Z) : NovelConfig.t :=
  NovelConfig.mk (lit "T") [] [] [] [] [] target 3000 [].

Definition chapter (i : N) (body : jsstring) : Chapter.t :=
  Chapter.mk [i] (lit "t") (lit "s") body false.

Definition letters (n : nat) : jsstring := replicate n 97%N.

Definition novel (cs : list Chapter.t) (step : AppStep) : Novel.t :=
  Novel.mk [1%N] 0 (config 25) (lit "outline") cs None step.

(** A world in which [n] is the only novel, is active and persisted, a
    directory is connected and the chapter [active] is selected. *)
Definition world (n : Novel.t) (active : option Id) : World :=
  mkWorld freshAi (FileSystemService.mkFs true 0 [] [] [])
    (AppState.mk [n] (Some [1%N]) true (Some [n]) 0)
    (WriterState.mk active false None [] false [] [] 0)
    (OutlineState.mk false None [] 0).

(** Five units, the first three written. *)
Definition fiveUnits : list Chapter.t :=
  [chapter 0 (letters 600); chapter 1 (letters 600);
   chapter 2 (letters 600); chapter 3 []; chapter 4 []].


(** Three units: a body of 50 units, a body of 49 units, no body. *)
Definition threeUnits : list Chapter.t :=
  [chapter 0 (letters 50); chapter 1 (letters 49); chapter 2 []].

End Samples.

(* ================================================================== *)
(** ** The single-unit actions of [components/WriterInterface.tsx] *)
(* ================================================================== *)

Module WriterActions.
Import JS WriterState WriterInterface.


(** [chapters.map(c => c.id === updatedChapter.id ? updatedChapter : c)] *)
Definition replaceChapter (updatedChapter : Chapter.t)
  (chapters : list Chapter.t) : list Chapter.t :=
  map (fun c =>
         if bool_decide (Chapter.id c = Chapter.id updatedChapter)
         then updatedChapter else c)
    chapters.

(** [updateChapterInState(updatedChapter)] *)
Definition updateChapterInState (props : Props) (updatedChapter : Chapter.t)
  : M World unit :=
  onUpdateChapters props (replaceChapter updatedChapter (chapters props)).


End WriterActions.

(* ================================================================== *)
(** ** The library actions of [App.tsx] *)
(* ================================================================== *)

Module AppActions.
Import JS AppState App.

(** 玄幻, 热血 and 智商在线，剧情紧凑 *)
Definition INITIAL_CONFIG : NovelConfig.t :=
  NovelConfig.mk [] [29572; 24187]%N [28909; 34880]%N [] []
    [26234; 21830; 22312; 32447; 65292; 21095; 24773; 32039; 20945]%N
    50 3000 [].

(** [Date.now()] *)
Definition readClock (env : Env) : M AppState.t Z :=
  fun s =>
    (Returned (dateNow env (clockReads s)),
     mk (novels s) (activeNovelId s) (isFileSystemReady s) (localStorage s)
       (S (clockReads s))).

(** [handleCreateNovel()] *)
Definition handleCreateNovel (env : Env) : M World unit :=
  id <- onAi (GeminiService.onInner (GeminiService.cryptoRandomUUID env)) ;;
  now <- onApp (readClock env) ;;
  let newNovel := Novel.mk id now INITIAL_CONFIG [] [] None SETUP in
  onApp (modify (setNovels (fun prev => newNovel :: prev))) ;;;
  onApp (modify (setActiveNovelId (Some (Novel.id newNovel)))).


(** The library invariant of the persistence effect: the stored item is
    the library, unless the library is empty. *)
Definition Persisted (s : AppState.t) : Prop :=
  novels s = [] \/ localStorage s = Some (novels s).

End AppActions.

(* ================================================================== *)
(** ** Saving the configuration: [generateOutline] and [handleConfigSave] *)
(* ================================================================== *)

Module ConfigSave.
Import JS GeminiService.

(** The text returned in place of an empty answer: 生成失败，请重试。 *)
Definition outlineFailedText : jsstring :=
  [29983; 25104; 22833; 36133; 65292; 35831; 37325; 35797; 12290]%N.

(** What the provider answers when its k-th request asks for the outline
    of a configuration: [response.text] or the rejection. *)
Abbreviation OutlineProvider :=
  (nat -> NovelConfig.t -> Completion (option jsstring)).

(** [await ai.models.generateContent(...)] with the outline prompt *)
Definition generateOutlineContent (answers : OutlineProvider)
  (config : NovelConfig.t) : M AiState (option jsstring) :=
  fun s =>
    (answers (requests s) config,
     mkAi (S (requests s)) (uuids s) (parseErrors s)).

(** [generateOutline(apiKey, config)] *)
Definition generateOutline (answers : OutlineProvider)
  (config : NovelConfig.t) : M (Timed AiState) jsstring :=
  callAIWithRetry
    (text <- generateOutlineContent answers config ;;
     ret (textOr text outlineFailedText))
    defaultRetries defaultBaseDelay.

(** The application with the two things [handleConfigSave] touches
    besides the library: the [isGenerating] state of [App] and the
    [alert] dialogs shown. *)
Record View : Type := mkView {
  shown : World;
  appGenerating : bool;
  appAlerts : nat
}.

Definition onWorld {A} (m : M World A) : M View A :=
  zoom shown (fun x v => mkView x (appGenerating v) (appAlerts v)) m.

Definition setIsGenerating (b : bool) : M View unit :=
  modify (fun v => mkView (shown v) b (appAlerts v)).

Definition alert : M View unit :=
  modify (fun v => mkView (shown v) (appGenerating v) (S (appAlerts v))).

(** [saveConfigToDisk(novel)] and [saveOutlineToDisk(novel)] of a render
    in which [isFileSystemReady] is [ready]. *)
Definition saveConfigToDisk (env : Env) (ready : bool) (novel : Novel.t)
  : M World unit :=
  if ready then onFs (FileSystemService.saveNovelConfig env novel)
  else ret tt.

Definition saveOutlineToDisk (env : Env) (ready : bool) (novel : Novel.t)
  : M World unit :=
  if ready then onFs (FileSystemService.saveOutline env novel) else ret tt.

(** [{ ...activeNovel, config: newConfig }] *)
Definition withConfig (n : Novel.t) (newConfig : NovelConfig.t) : Novel.t :=
  Novel.mk (Novel.id n) (Novel.lastModified n) newConfig (Novel.outline n)
    (Novel.chapters n) (Novel.currentChapterId n) (Novel.step n).

(** [{ ...activeNovel, config: newConfig, outline: generatedOutline,
       step: AppStep.OUTLINE }] *)
Definition withOutline (n : Novel.t) (newConfig : NovelConfig.t)
  (generatedOutline : jsstring) : Novel.t :=
  Novel.mk (Novel.id n) (Novel.lastModified n) newConfig generatedOutline
    (Novel.chapters n) (Novel.currentChapterId n) OUTLINE.

(** [prev.map(n => n.id === activeNovelId ? updatedNovel : n)] *)
Definition replaceNovel (activeId : option Id) (updatedNovel : Novel.t)
  (prev : list Novel.t) : list Novel.t :=
  map (fun n =>
         if bool_decide (Some (Novel.id n) = activeId) then updatedNovel
         else n)
    prev.

(** [handleConfigSave(newConfig)] of a render with active identity
    [activeId], active novel [activeNovel] and [isFileSystemReady] equal to
    [ready].  The handler is reached from the setup form, which is rendered
    for an active novel and with an API key. *)
Definition handleConfigSave (env : Env) (answers : OutlineProvider)
  (activeId : option Id) (activeNovel : Novel.t) (ready : bool)
  (newConfig : NovelConfig.t) : M View unit :=
  setIsGenerating true ;;;
  tryFinally
    (tryCatch
       (onWorld
          (onApp (modify (App.updateActiveNovel env activeId
                            (App.mkUpdates (Some newConfig) None None None)))) ;;;
        onWorld (saveConfigToDisk env ready (withConfig activeNovel newConfig)) ;;;
        generatedOutline <- onWorld (onAi (generateOutline answers newConfig)) ;;
        let updatedNovel :=
          withOutline activeNovel newConfig generatedOutline in
        onWorld
          (onApp (modify (App.setNovels (replaceNovel activeId updatedNovel)))) ;;;
        onWorld (saveOutlineToDisk env ready updatedNovel))
       (fun _ => alert))
    (fun v => mkView (shown v) false (appAlerts v)).

(** The user submits the setup form of the novel shown. *)
Definition submitConfig (env : Env) (answers : OutlineProvider)
  (newConfig : NovelConfig.t) (v : View) : Completion unit * View :=
  match App.activeNovel (application (shown v)) with
  | Some n =>
      match Novel.step n with
      | SETUP =>
          handleConfigSave env answers
            (AppState.activeNovelId (application (shown v))) n
            (AppState.isFileSystemReady (application (shown v))) newConfig v
      | _ => (Returned tt, v)
      end
  | None => (Returned tt, v)
  end.

End ConfigSave.

(* ================================================================== *)
(** ** Reading names and texts back *)
(* ================================================================== *)

Module Reading.
Import JS.

(** The number a sequence of decimal digits denotes. *)
Definition digitsValue (digits : jsstring) : N :=
  fold_left (fun acc d => (acc * 10 + (d - 48))%N) digits 0%N.

(** A text whose first and last units are neither white space nor a
    backtick, as the text of a JSON object or array is. *)
Definition isPayload (s : jsstring) : bool :=
  match head s, last s with
  | Some a, Some b =>
      negb (isWhiteSpace a) && negb (a =? 96)%N
      && negb (isWhiteSpace b) && negb (b =? 96)%N
  | _, _ => false
  end.

(** A chapter that [saveAllChapters] writes: its body is not blank. *)
Definition hasBody (c : Chapter.t) : bool :=
  negb (forallb isWhiteSpace (Chapter.content c)).

(** The files [saveAllChapters] writes for the chapters [rest] that start
    at index [i], newest first. *)
Fixpoint chapterFiles (title : jsstring) (rest : list Chapter.t) (i : nat)
  (older : list (FileSystemService.Path * FileSystemService.FileContent))
  : list (FileSystemService.Path * FileSystemService.FileContent) :=
  match rest with
  | [] => older
  | c :: rest' =>
      chapterFiles title rest' (S i)
        (if hasBody c
         then ([FileSystemService.safeDirectoryName title; lit "chapters";
                FileSystemService.chapterFileName c i],
               FileSystemService.Text
                 (FileSystemService.chapterFileText c i)) :: older
         else older)
  end.

(** The entries that exist once [saveAllChapters] has written the
    chapters [rest] that start at index [i]: for each chapter with a body
    the novel's directory, its chapters directory and the chapter file. *)
Fixpoint chapterEntries (title : jsstring) (rest : list Chapter.t) (i : nat)
  (existing : list FileSystemService.Path) : list FileSystemService.Path :=
  match rest with
  | [] => existing
  | c :: rest' =>
      chapterEntries title rest' (S i)
        (if hasBody c
         then FileSystemService.createdAll
                [[FileSystemService.safeDirectoryName title];
                 [FileSystemService.safeDirectoryName title; lit "chapters"];
                 [FileSystemService.safeDirectoryName title; lit "chapters";
                  FileSystemService.chapterFileName c i]]
                existing
         else existing)
  end.

End Reading.

(* ================================================================== *)
(** ** Further sample inputs *)
(* ================================================================== *)

Module Cases.
Import JS Samples.


(** The provider answers its first request with a story and refuses
    every later one; the user presses stop during the fourth awaited step
    of the run, the generation of its second unit. *)
Definition refusedWhileStopping : Env :=
  mkEnv
    (fun r _ =>
       if r <? 1 then Returned (Some story)
       else Thrown (newError (lit "quota exceeded")))
    (fun k => decimal (N.of_nat k)) (fun _ => None) (fun k => Z.of_nat k)
    (fun k => bool_decide (k = 3)).

(** The provider is overloaded for its first [k] requests and answers
    every later one with a story. *)
Definition overloadedUntil (k : nat) : Env :=
  mkEnv
    (fun r _ =>
       if r <? k then Thrown (mkError (Some 503%Z) None)
       else Returned (Some story))
    (fun k => decimal (N.of_nat k)) (fun _ => None) (fun k => Z.of_nat k)
    never.

(** The provider answers every request with a story; the storage rejects
    its call number [k] and no other. *)
Definition storageFailsAt (k : nat) : Env :=
  mkEnv (fun _ _ => Returned (Some story)) (fun k => decimal (N.of_nat k))
    (fun call =>
       if call =? k then Some (newError (lit "write failed")) else None)
    (fun k => Z.of_nat k) never.

(** The text of a list of [k] empty objects. *)
Definition entriesText (k : nat) : jsstring :=
  lit "[" ++ concat (replicate (k - 1) (lit "{},"))
    ++ (if 0 <? k then lit "{}" else []) ++ lit "]".

(** The provider answers each of its first [limit] requests for a batch
    with a list of as many entries as the request asks for, and refuses
    every later request. *)
Definition entriesUntil (limit : nat) : Env :=
  mkEnv
    (fun r req =>
       if r <? limit then
         match req with
         | BatchRequest _ _ _ batchSize _ =>
             Returned (Some (entriesText (Z.to_nat batchSize)))
         | _ => Returned None
         end
       else Thrown (newError (lit "quota exceeded")))
    (fun k => decimal (N.of_nat k)) (fun _ => None) (fun k => Z.of_nat k)
    never.

(** Of the batch requests of a planning run for [target] chapters that
    starts with request number [from], the first [count] are answered with
    exactly the number of entries they ask for, none of them [null]: the
    j-th of them asks for the chapters from index [20 * j] on. *)
Definition AsAsked (env : Env) (target : Z) (from count : nat) : Prop :=
  forall j cfg o prev,
    j < count ->
    (20 * Z.of_nat j < target)%Z ->
    exists text items,
      provider env (from + j)
        (BatchRequest cfg o (20 * Z.of_nat j)
           (Z.min OutlineView.BATCH_SIZE (target - 20 * Z.of_nat j)) prev)
      = Returned text
      /\ Json.parse
           (GeminiService.cleanJson (GeminiService.textOr text (lit "[]")))
         = Some (Json.JArray items)
      /\ Forall (fun item => item <> Json.JNull) items
      /\ length items
         = Z.to_nat (Z.min OutlineView.BATCH_SIZE (target - 20 * Z.of_nat j)).

End Cases.

(* ================================================================== *)
(** * Properties *)
(* ================================================================== *)

Import JS Json GeminiService.

(** ** The retry policy *)

Lemma invocations_app (a b : list Step) :
  invocations (a ++ b) = invocations a + invocations b.
Proof. unfold invocations. rewrite filter_app, length_app. reflexivity. Qed.

Section Retry.
Context {St T : Type} (operation : M St T).

Lemma callAIWithRetry_returned retries baseDelay s s' v tl :
  operation s = (Returned v, s') ->
  callAIWithRetry operation retries baseDelay (mkTimed s tl)
  = (Returned v, mkTimed s' (tl ++ [Invoked])).
Proof.
  intros Hop. destruct retries; cbn; unfold tryCatch, bind, record, modify,
    onInner, zoom; cbn; rewrite Hop; reflexivity.
Qed.

Lemma callAIWithRetry_transient retries baseDelay s s' e tl :
  operation s = (Thrown e, s') ->
  isTransient e = true ->
  callAIWithRetry operation (S retries) baseDelay (mkTimed s tl)
  = callAIWithRetry operation retries (baseDelay * 2)
      (mkTimed s' (tl ++ [Invoked; Warned (S retries);
                          Delayed baseDelay])).
Proof.
  intros Hop Htr. cbn. unfold tryCatch at 1. unfold bind at 1.
  unfold record at 1, modify at 1. cbn. unfold onInner, zoom. cbn.
  rewrite Hop, Htr. unfold bind, record, modify. cbn.
  rewrite <- !app_assoc. reflexivity.
Qed.

Lemma callAIWithRetry_fatal retries baseDelay s s' e tl :
  operation s = (Thrown e, s') ->
  isTransient e = false ->
  callAIWithRetry operation retries baseDelay (mkTimed s tl)
  = (Thrown e, mkTimed s' (tl ++ [Invoked])).
Proof.
  intros Hop Htr. destruct retries; cbn; unfold tryCatch, bind, record,
    modify, onInner, zoom, throw; cbn; rewrite Hop; cbn;
    rewrite ?Htr; reflexivity.
Qed.

Lemma callAIWithRetry_exhausted baseDelay s s' e tl :
  operation s = (Thrown e, s') ->
  callAIWithRetry operation 0 baseDelay (mkTimed s tl)
  = (Thrown e, mkTimed s' (tl ++ [Invoked])).
Proof.
  intros Hop. cbn; unfold tryCatch, bind, record,
    modify, onInner, zoom, throw; cbn; rewrite Hop; reflexivity.
Qed.

Lemma callAIWithRetry_backoff k :
  forall retries baseDelay (st : nat -> St) (err : nat -> JsError) tl,
    k <= retries ->
    (forall i, i < k ->
       operation (st i) = (Thrown (err i), st (S i))
       /\ isTransient (err i) = true) ->
    exists steps,
      callAIWithRetry operation retries baseDelay (mkTimed (st 0) tl)
      = callAIWithRetry operation (retries - k)
          (baseDelay * 2 ^ Z.of_nat k) (mkTimed (st k) (tl ++ steps))
      /\ invocations steps = k
      /\ delays steps
         = map (fun i => (baseDelay * 2 ^ Z.of_nat i)%Z) (seq 0 k).
Proof.
  induction k as [|k IH]; intros retries baseDelay st err tl Hk Hfail.
  - exists []. rewrite Nat.sub_0_r, Z.mul_1_r, app_nil_r. auto.
  - destruct retries as [|retries]; [lia|].
    destruct (Hfail 0 ltac:(lia)) as [Hop Htr].
    rewrite (callAIWithRetry_transient _ _ _ _ _ _ Hop Htr).
    destruct (IH retries (baseDelay * 2)%Z (fun i => st (S i))
                (fun i => err (S i))
                (tl ++ [Invoked; Warned (S retries); Delayed baseDelay])
                ltac:(lia)) as (steps & Heq & Hinv & Hdel).
    { intros i Hi. apply Hfail. lia. }
    exists ([Invoked; Warned (S retries); Delayed baseDelay] ++ steps).
    rewrite Heq. split; [|split].
    + rewrite <- app_assoc. cbn [Nat.sub].
      replace (baseDelay * 2 ^ Z.of_nat (S k))%Z
        with (baseDelay * 2 * 2 ^ Z.of_nat k)%Z; [reflexivity|].
      rewrite Nat2Z.inj_succ, Z.pow_succ_r by lia. lia.
    + rewrite invocations_app, Hinv. reflexivity.
    + change (delays ([Invoked; Warned (S retries); Delayed baseDelay]
                      ++ steps)) with (baseDelay :: delays steps).
      rewrite Hdel. cbn [seq map]. f_equal.
      * cbn. lia.
      * rewrite <- seq_shift, map_map. apply map_ext. intros i.
        rewrite Nat2Z.inj_succ, Z.pow_succ_r by lia. lia.
Qed.

End Retry.

(** C1. The retry policy: a transient failure with budget left waits the
    current delay and retries with the budget decremented and the delay
    doubled, so that the k-th wait is [baseDelay * 2^k]; the defaults are 3
    retries and a base of 2000.  An operation that fails twice with a
    transient signature and then succeeds yields its value after exactly 3
    invocations and the waits 2000 and 4000; a non-transient failure is
    thrown unchanged after one invocation and no wait. *)
Theorem C1_retry_policy (St T : Type) (operation : M St T) :
  (defaultRetries = 3 /\ defaultBaseDelay = 2000%Z)
  /\ (forall e,
        isTransient e = true <->
        status e = Some 503%Z \/ status e = Some 500%Z
        \/ exists m, message e = Some m /\ includes (lit "overloaded") m = true)
  /\ (forall retries baseDelay s s' e tl,
        operation s = (Thrown e, s') ->
        isTransient e = true ->
        callAIWithRetry operation (S retries) baseDelay (mkTimed s tl)
        = callAIWithRetry operation retries (baseDelay * 2)
            (mkTimed s' (tl ++ [Invoked; Warned (S retries);
                                Delayed baseDelay])))
  /\ (forall k retries baseDelay (st : nat -> St) (err : nat -> JsError) tl,
        k <= retries ->
        (forall i, i < k ->
           operation (st i) = (Thrown (err i), st (S i))
           /\ isTransient (err i) = true) ->
        exists steps,
          callAIWithRetry operation retries baseDelay (mkTimed (st 0) tl)
          = callAIWithRetry operation (retries - k)
              (baseDelay * 2 ^ Z.of_nat k) (mkTimed (st k) (tl ++ steps))
          /\ invocations steps = k
          /\ delays steps
             = map (fun i => (baseDelay * 2 ^ Z.of_nat i)%Z) (seq 0 k))
  /\ (forall s0 s1 s2 s3 e1 e2 v,
        operation s0 = (Thrown e1, s1) -> isTransient e1 = true ->
        operation s1 = (Thrown e2, s2) -> isTransient e2 = true ->
        operation s2 = (Returned v, s3) ->
        exists tl,
          callAIWithRetry operation defaultRetries defaultBaseDelay
            (mkTimed s0 [])
          = (Returned v, mkTimed s3 tl)
          /\ invocations tl = 3
          /\ delays tl = [2000; 4000]%Z)
  /\ (forall retries baseDelay s s' e,
        operation s = (Thrown e, s') ->
        isTransient e = false ->
        exists tl,
          callAIWithRetry operation retries baseDelay (mkTimed s [])
          = (Thrown e, mkTimed s' tl)
          /\ invocations tl = 1
          /\ delays tl = []).
Proof.
  split; [split; reflexivity|].
  split.
  { intros e. unfold isTransient.
    rewrite !orb_true_iff, !bool_decide_eq_true.
    split.
    - intros [[H|H]|H]; auto. destruct (message e) as [m|]; [|discriminate].
      right; right. eauto.
    - intros [H|[H|(m & Hm & H)]]; auto. rewrite Hm. auto. }
  split; [apply callAIWithRetry_transient|].
  split.
  { intros k retries baseDelay st err tl Hk Hfail.
    exact (callAIWithRetry_backoff operation k retries baseDelay st err tl
             Hk Hfail). }
  split.
  - intros s0 s1 s2 s3 e1 e2 v H0 T0 H1 T1 H2.
    eexists. unfold defaultRetries, defaultBaseDelay.
    rewrite (callAIWithRetry_transient _ _ _ _ _ _ _ H0 T0).
    rewrite (callAIWithRetry_transient _ _ _ _ _ _ _ H1 T1).
    rewrite (callAIWithRetry_returned _ _ _ _ _ _ _ H2).
    split; [reflexivity|]. split; reflexivity.
  - intros retries baseDelay s s' e Hop Htr. eexists.
    rewrite (callAIWithRetry_fatal _ _ _ _ _ _ _ Hop Htr).
    split; [reflexivity|]. split; reflexivity.
Qed.

(** The retry policy at the two sample operations. *)
Lemma C1_retry_policy_witness :
  (exists tl,
     callAIWithRetry Samples.flakyOperation defaultRetries defaultBaseDelay
       (mkTimed 0 [])
     = (Returned 42%Z, mkTimed 3 tl)
     /\ invocations tl = 3 /\ delays tl = [2000; 4000]%Z)
  /\ (exists tl,
        callAIWithRetry Samples.deniedOperation 3 2000 (mkTimed 0 [])
        = (Thrown (newError (lit "denied")), mkTimed 1 tl)
        /\ invocations tl = 1 /\ delays tl = []).
Proof.
  split.
  - apply (proj1 (proj2 (proj2 (proj2 (proj2
             (C1_retry_policy nat Z Samples.flakyOperation)))))
             0 1 2 3 (mkError (Some 503%Z) None) (mkError (Some 503%Z) None));
      reflexivity.
  - apply (proj2 (proj2 (proj2 (proj2 (proj2
             (C1_retry_policy nat Z Samples.deniedOperation)))))
             3 2000%Z 0 1 (newError (lit "denied")));
      reflexivity.
Defined.

(** ** The unit generator *)

Lemma textOr_absent (text : option jsstring) (fallback : jsstring) :
  text = None \/ text = Some [] -> textOr text fallback = fallback.
Proof. intros [->| ->]; reflexivity. Qed.

Lemma generateTrendConfig_eq env s text :
  provider env (requests (inner s)) TrendRequest = Returned text ->
  generateTrendConfig env s
  = match parse (cleanJson (textOr text (lit "{}"))) with
    | Some v =>
        (Returned v,
         mkTimed (mkAi (S (requests (inner s))) (uuids (inner s))
                    (parseErrors (inner s)))
           (timeline s ++ [Invoked]))
    | None =>
        (Thrown formatError,
         mkTimed (mkAi (S (requests (inner s))) (uuids (inner s))
                    (S (parseErrors (inner s))))
           (timeline s ++ [Invoked]))
    end.
Proof.
  intros Hp. destruct s as [a tl]. unfold generateTrendConfig. cbn [inner timeline] in *.
  destruct (parse (cleanJson (textOr text (lit "{}")))) as [v|] eqn:Hparse.
  - apply callAIWithRetry_returned.
    unfold bind, generateContent. rewrite Hp, Hparse. reflexivity.
  - apply callAIWithRetry_fatal; [|reflexivity].
    unfold bind, generateContent. rewrite Hp, Hparse. reflexivity.
Qed.

(** C3, as the code has it.  For every answer of the provider,
    recommend-configuration returns the value the answer parses to, as it
    is and without a check of the required fields, or raises the
    content-format error when the answer does not parse; an answer without
    text is read as the empty object. *)
Theorem C3_trend_config_unchecked env s text :
  provider env (requests (inner s)) TrendRequest = Returned text ->
  match parse (cleanJson (textOr text (lit "{}"))) with
  | Some v => fst (generateTrendConfig env s) = Returned v
  | None => fst (generateTrendConfig env s) = Thrown formatError
  end
  /\ (text = None \/ text = Some [] ->
      fst (generateTrendConfig env s) = Returned (JObject [])).
Proof.
  intros Hp. rewrite (generateTrendConfig_eq _ _ _ Hp). split.
  - destruct (parse _); reflexivity.
  - intros Habsent. rewrite (textOr_absent _ _ Habsent). reflexivity.
Qed.

Lemma generateChapterContent_eq env cfg c ctx o s text :
  provider env (requests (inner s))
    (ContentRequest cfg (Chapter.title c) (Chapter.summary c) ctx
       (sliceFirst 800 o))
  = Returned text ->
  generateChapterContent env cfg c ctx o s
  = (Returned (textOr text emptyContentText),
     mkTimed (mkAi (S (requests (inner s))) (uuids (inner s))
                (parseErrors (inner s)))
       (timeline s ++ [Invoked])).
Proof.
  intros Hp. destruct s as [a tl]. unfold generateChapterContent.
  apply callAIWithRetry_returned.
  unfold bind, generateContent. cbn [inner] in *. rewrite Hp. reflexivity.
Qed.

(** C8, as the code has it.  When the provider answers without text, the
    call does not fail: after one invocation and no wait it returns the
    fixed text 生成内容为空。, a non-empty string, and so returns exactly
    what it returns when the provider answers with that very text. *)
Theorem C8_empty_output_placeholder env cfg c ctx o s text :
  provider env (requests (inner s))
    (ContentRequest cfg (Chapter.title c) (Chapter.summary c) ctx
       (sliceFirst 800 o))
  = Returned text ->
  text = None \/ text = Some [] ->
  generateChapterContent env cfg c ctx o s
  = (Returned emptyContentText,
     mkTimed (mkAi (S (requests (inner s))) (uuids (inner s))
                (parseErrors (inner s)))
       (timeline s ++ [Invoked]))
  /\ emptyContentText <> []
  /\ (forall env',
        provider env' (requests (inner s))
          (ContentRequest cfg (Chapter.title c) (Chapter.summary c) ctx
             (sliceFirst 800 o))
        = Returned (Some emptyContentText) ->
        generateChapterContent env' cfg c ctx o s
        = generateChapterContent env cfg c ctx o s).
Proof.
  intros Hp Habsent.
  rewrite (generateChapterContent_eq _ _ _ _ _ _ _ Hp).
  rewrite (textOr_absent _ _ Habsent).
  split; [reflexivity|]. split; [discriminate|].
  intros env' Hp'. rewrite (generateChapterContent_eq _ _ _ _ _ _ _ Hp').
  reflexivity.
Qed.

(** ** The context window *)

Import WriterInterface.

Lemma findIndex_lookup (cs : list Chapter.t) (i : nat) (c : Chapter.t) :
  NoDup (Chapter.id <$> cs) ->
  cs !! i = Some c ->
  findIndex (Some (Chapter.id c)) cs = Some i.
Proof.
  intros Hnd Hi. unfold findIndex.
  assert (list_find (fun x => Some (Chapter.id x) = Some (Chapter.id c)) cs
          = Some (i, c)) as Hfind; [|rewrite Hfind; reflexivity].
  apply list_find_Some. split; [exact Hi|]. split; [reflexivity|].
  intros j y Hj Hlt Heq. injection Heq as Heq.
  assert (j = i) as Hji; [|lia].
  apply (NoDup_lookup _ j i (Chapter.id c) Hnd);
    rewrite list_lookup_fmap; [rewrite Hj|rewrite Hi]; cbn; congruence.
Qed.

Lemma sliceLast_suffix (n : nat) (s : jsstring) :
  exists front,
    s = front ++ sliceLast n s /\ length (sliceLast n s) = min n (length s).
Proof.
  exists (take (length s - n) s). unfold sliceLast.
  rewrite take_drop, length_drop. split; [reflexivity|lia].
Qed.

(** C4, as the code has it.  The context of a unit is a function of the
    unit and the sequence alone.  For the unit at position 0 it is the fixed
    marker; for a unit at a later position whose predecessor has a body of
    at least 50 units it is the ending marker followed by the last 3000
    units of that body (all of it when shorter); with a shorter or empty
    body it is the synopsis marker followed by the predecessor's
    synopsis. *)
Theorem C4_context_window (chapters : list Chapter.t) (i : nat)
  (c : Chapter.t) :
  NoDup (Chapter.id <$> chapters) ->
  chapters !! i = Some c ->
  (i = 0 -> getContext c chapters = firstChapterContext)
  /\ (forall prev,
        0 < i ->
        chapters !! (i - 1) = Some prev ->
        (50 <= length (Chapter.content prev) ->
         getContext c chapters
         = endingMarker ++ sliceLast 3000 (Chapter.content prev))
        /\ (length (Chapter.content prev) < 50 ->
            getContext c chapters = summaryMarker ++ Chapter.summary prev))
  /\ (forall body : jsstring,
        exists front,
          body = front ++ sliceLast 3000 body
          /\ length (sliceLast 3000 body) = min 3000 (length body)).
Proof.
  intros Hnd Hi. unfold getContext.
  rewrite (findIndex_lookup _ _ _ Hnd Hi).
  split; [intros ->; reflexivity|]. split; [|apply sliceLast_suffix].
  intros prev Hpos Hprev. destruct i as [|p]; [lia|].
  replace (S p - 1) with p in Hprev by lia. rewrite Hprev.
  split; intros Hlen.
  - destruct (Chapter.content prev) as [|u body] eqn:Hbody; [cbn in Hlen; lia|].
    cbn [isEmpty orb].
    destruct (Nat.ltb_spec (length (u :: body)) 50); [lia|reflexivity].
  - destruct (isEmpty (Chapter.content prev)); [reflexivity|]. cbn [orb].
    destruct (Nat.ltb_spec (length (Chapter.content prev)) 50);
      [reflexivity|lia].
Qed.

(** ** The library and its persisted copy *)

Lemma filter_self_out (n : Novel.t) :
  filter (fun m => Novel.id m <> Novel.id n) [n] = [].
Proof.
  rewrite filter_cons. destruct (decide (Novel.id n <> Novel.id n)) as [H|_];
    [destruct H; reflexivity|reflexivity].
Qed.

(** C10 at the failing input.  In a library that holds one novel and is
    persisted, deleting that novel empties the collection in memory while
    the persisted copy still holds the novel: the two differ, and mounting
    the application again restores the deleted novel. *)
Theorem C10_last_delete_not_persisted (n : Novel.t) (active : option Id)
  (ready : bool) (reads : nat) :
  let s := AppState.mk [n] active ready (Some [n]) reads in
  let s' := App.handleDeleteNovel (Novel.id n) s in
  AppState.novels s' = []
  /\ AppState.localStorage s' = Some [n]
  /\ AppState.localStorage s' <> Some (AppState.novels s')
  /\ AppState.novels (App.mount (AppState.localStorage s')) = [n].
Proof.
  cbn zeta. unfold App.handleDeleteNovel, App.setNovels.
  cbn [AppState.novels AppState.activeNovelId AppState.isFileSystemReady
       AppState.localStorage AppState.clockReads].
  rewrite filter_self_out.
  destruct (bool_decide (active = Some (Novel.id n))); cbn;
    (split; [reflexivity|]; split; [reflexivity|];
     split; [discriminate|reflexivity]).
Qed.

(** The sibling path: a deletion that leaves a novel behind is written to
    the persisted copy. *)
Lemma handleDeleteNovel_persists (id : Id) (s : AppState.t) :
  AppState.novels (App.handleDeleteNovel id s) <> [] ->
  AppState.localStorage (App.handleDeleteNovel id s)
  = Some (AppState.novels (App.handleDeleteNovel id s)).
Proof.
  unfold App.handleDeleteNovel, App.setNovels, App.persistLibrary.
  cbn [AppState.novels AppState.activeNovelId AppState.isFileSystemReady
       AppState.localStorage AppState.clockReads].
  destruct (filter (fun n => Novel.id n <> id) (AppState.novels s)) as [|m rest];
    destruct (bool_decide (AppState.activeNovelId s = Some id)); cbn;
    intros H; congruence.
Qed.

(** ** Persistence *)

Section Persistence.
Import FileSystemService.
Context (env : Env).

Lemma rejections_same n : rejections env n n = 0.
Proof. unfold rejections. rewrite Nat.sub_diag. reflexivity. Qed.

Lemma rejections_split a b c :
  a <= b -> b <= c ->
  rejections env a c = rejections env a b + rejections env b c.
Proof.
  intros Hab Hbc. unfold rejections.
  replace (c - a) with ((b - a) + (c - b)) by lia.
  rewrite seq_app, filter_app, length_app.
  replace (a + (b - a)) with b by lia. reflexivity.
Qed.

Lemma rejections_one n :
  rejections env n (S n)
  = match storage env n with Some _ => 1 | None => 0 end.
Proof.
  unfold rejections. replace (S n - n) with 1 by lia. cbn [seq].
  rewrite filter_cons, filter_nil.
  destruct (storage env n) as [e|].
  - rewrite decide_True by (eexists; reflexivity). reflexivity.
  - rewrite decide_False by (intros [x Hx]; discriminate). reflexivity.
Qed.

Ltac settle :=
  unfold settles, ret, get, modify;
  cbn [fst snd rootDirectoryHandle storageCalls console];
  rewrite rejections_same; repeat split; lia.

Lemma Tracked_ret {A} (a : A) : Tracked env (ret a).
Proof. intros s. settle. Qed.

Lemma Tracked_get : Tracked env get.
Proof. intros s. settle. Qed.

Lemma Tracked_bind {A B} (m : M FsState A) (k : A -> M FsState B) :
  Tracked env m -> (forall a, Tracked env (k a)) -> Tracked env (bind m k).
Proof.
  intros Hm Hk s. unfold bind. specialize (Hm s).
  destruct (m s) as [[a|e] s1]; [|exact Hm].
  specialize (Hk a s1). destruct (k a s1) as [c2 s2].
  unfold settles in *. cbn [fst snd] in *.
  destruct Hm as (Hr1 & Hc1 & Hl1). destruct Hk as (Hr2 & Hc2 & Hl2).
  rewrite (rejections_split (storageCalls s) (storageCalls s1)
             (storageCalls s2)) by lia.
  split; [congruence|]. split; lia.
Qed.

Lemma Tracked_tryCatch {A} (m : M FsState A) (h : JsError -> M FsState A) :
  Tracked env m -> (forall e, Logging (h e)) -> Tracked env (tryCatch m h).
Proof.
  intros Hm Hh s. unfold tryCatch. specialize (Hm s).
  destruct (m s) as [[a|e] s1]; [exact Hm|].
  destruct (Hh e s1) as ((a & Ha) & Hr & Hc & Hl).
  destruct (h e s1) as [c2 s2]. unfold settles in *. cbn [fst snd] in *.
  subst c2. destruct Hm as (Hr1 & Hc1 & Hl1).
  rewrite Hc. split; [congruence|]. split; lia.
Qed.

Lemma Total_tryCatch {A} (m : M FsState A) (h : JsError -> M FsState A) :
  (forall e, Logging (h e)) -> Total (tryCatch m h).
Proof.
  intros Hh s. unfold tryCatch. destruct (m s) as [[a|e] s1].
  - exists a. reflexivity.
  - destruct (Hh e s1) as (Ha & _). exact Ha.
Qed.

Lemma Tracked_storageCall : Tracked env (storageCall env).
Proof.
  intros s. unfold storageCall, settles.
  destruct (storage env (storageCalls s)) eqn:Hst;
    cbn [fst snd rootDirectoryHandle storageCalls console];
    rewrite rejections_one, Hst; repeat split; lia.
Qed.

Lemma Logging_consoleError line e : Logging (consoleError line e).
Proof. intros s. cbn. eauto. Qed.

Lemma Logging_consoleError_ret {A} line e (a : A) :
  Logging (consoleError line e ;;; ret a).
Proof. intros s. cbn. eauto. Qed.

Lemma Tracked_getDirectoryHandle parent name :
  Tracked env (getDirectoryHandle env parent name).
Proof.
  apply Tracked_bind; [apply Tracked_storageCall|intros; apply Tracked_ret].
Qed.

Lemma Tracked_getFileHandle dir name : Tracked env (getFileHandle env dir name).
Proof.
  apply Tracked_bind; [apply Tracked_storageCall|intros; apply Tracked_ret].
Qed.

Lemma Tracked_writeFile file content : Tracked env (writeFile env file content).
Proof.
  unfold writeFile.
  do 3 (apply Tracked_bind; [apply Tracked_storageCall|intros _]).
  intros s. settle.
Qed.

Lemma Tracked_getNovelDirectory title : Tracked env (getNovelDirectory env title).
Proof.
  unfold getNovelDirectory. apply Tracked_bind; [apply Tracked_get|].
  intros s0. destruct (negb (rootDirectoryHandle s0)); [apply Tracked_ret|].
  apply Tracked_tryCatch.
  - apply Tracked_bind; [apply Tracked_getDirectoryHandle|].
    intros; apply Tracked_ret.
  - intros e. apply Logging_consoleError_ret.
Qed.

Lemma Tracked_saveNovelConfig novel : Tracked env (saveNovelConfig env novel).
Proof.
  unfold saveNovelConfig. apply Tracked_bind; [apply Tracked_get|].
  intros s0. destruct (negb (rootDirectoryHandle s0)); [apply Tracked_ret|].
  apply Tracked_tryCatch; [|intros e; apply Logging_consoleError].
  apply Tracked_bind; [apply Tracked_getNovelDirectory|].
  intros [dir|]; [|apply Tracked_ret].
  apply Tracked_bind; [apply Tracked_getFileHandle|].
  intros; apply Tracked_writeFile.
Qed.

Lemma Tracked_saveOutline novel : Tracked env (saveOutline env novel).
Proof.
  unfold saveOutline. apply Tracked_bind; [apply Tracked_get|].
  intros s0. destruct (negb (rootDirectoryHandle s0)); [apply Tracked_ret|].
  apply Tracked_tryCatch; [|intros e; apply Logging_consoleError].
  apply Tracked_bind; [apply Tracked_getNovelDirectory|].
  intros [dir|]; [|apply Tracked_ret].
  apply Tracked_bind; [apply Tracked_getFileHandle|].
  intros; apply Tracked_writeFile.
Qed.

Lemma Tracked_saveChapter novel chapter index :
  Tracked env (saveChapter env novel chapter index).
Proof.
  unfold saveChapter. apply Tracked_bind; [apply Tracked_get|].
  intros s0. destruct (negb (rootDirectoryHandle s0)); [apply Tracked_ret|].
  apply Tracked_tryCatch; [|intros e; apply Logging_consoleError].
  apply Tracked_bind; [apply Tracked_getNovelDirectory|].
  intros [dir|]; [|apply Tracked_ret].
  apply Tracked_bind; [apply Tracked_getDirectoryHandle|]. intros chaptersDir.
  apply Tracked_bind; [apply Tracked_getFileHandle|].
  intros; apply Tracked_writeFile.
Qed.

Lemma Tracked_saveChaptersFrom novel rest :
  forall i, Tracked env (saveChaptersFrom env novel rest i).
Proof.
  induction rest as [|chapter rest IH]; intros i; cbn [saveChaptersFrom].
  - apply Tracked_ret.
  - apply Tracked_bind; [|intros _; apply IH].
    unfold when. destruct (_ && _); [apply Tracked_saveChapter|apply Tracked_ret].
Qed.

Lemma Tracked_saveAllChapters novel : Tracked env (saveAllChapters env novel).
Proof.
  unfold saveAllChapters. apply Tracked_bind; [apply Tracked_get|].
  intros s0. destruct (negb (rootDirectoryHandle s0)); [apply Tracked_ret|].
  apply Tracked_tryCatch; [|intros e; apply Logging_consoleError].
  apply Tracked_saveChaptersFrom.
Qed.

Lemma Total_guarded (m : M FsState unit) :
  Total m ->
  Total (s <- get ;; if negb (rootDirectoryHandle s) then ret tt else m).
Proof.
  intros Hm s. unfold bind, get. cbn.
  destruct (negb (rootDirectoryHandle s)); [exists tt; reflexivity|apply Hm].
Qed.

Lemma Total_saveNovelConfig novel : Total (saveNovelConfig env novel).
Proof.
  apply Total_guarded, Total_tryCatch. intros e; apply Logging_consoleError.
Qed.

Lemma Total_saveOutline novel : Total (saveOutline env novel).
Proof.
  apply Total_guarded, Total_tryCatch. intros e; apply Logging_consoleError.
Qed.

Lemma Total_saveChapter novel chapter index :
  Total (saveChapter env novel chapter index).
Proof.
  apply Total_guarded, Total_tryCatch. intros e; apply Logging_consoleError.
Qed.

Lemma Total_saveAllChapters novel : Total (saveAllChapters env novel).
Proof.
  apply Total_guarded, Total_tryCatch. intros e; apply Logging_consoleError.
Qed.

(** A persistence operation returns normally and leaves every rejection
    it met on the console. *)
Lemma isolated (m : M FsState unit) s :
  Total m -> Tracked env m ->
  fst (m s) = Returned tt /\ settles env (Returned tt) s (snd (m s)).
Proof.
  intros Ht Hk. destruct (Ht s) as ([] & Ha). split; [exact Ha|].
  specialize (Hk s). rewrite Ha in Hk. exact Hk.
Qed.

End Persistence.

(** ** The continuation run *)

Import WriterState.

#[local] Arguments generateChapterContent : simpl never.
#[local] Arguments getContext : simpl never.
#[local] Arguments FileSystemService.saveChapter : simpl never.
#[local] Arguments App.updateActiveNovel : simpl never.
#[local] Arguments whilePending : simpl never.
#[local] Arguments setBatchProgress : simpl never.
#[local] Arguments addLog : simpl never.
#[local] Arguments setActiveChapterId : simpl never.

Lemma batchLoop_step env aid n ready total P left i lc w c :
  abortBatchRef (writer w) = false ->
  lc !! (P + i) = Some c ->
  batchLoop env (App.writerPropsFor env aid n ready) total P (S left) i lc w =
  let wr1 :=
    setBatchProgress (Some (i + 1, total))
      (addLog (Writing (i + 1) total)
         (setActiveChapterId (Some (Chapter.id c)) (writer w))) in
  match generateChapterContent env (Novel.config n) c (getContext c lc)
          (Novel.outline n) (ai w) with
  | (Thrown e, a') =>
      (Thrown e, mkWorld a' (fs w) (application w) (whilePending env wr1) (outlineView w))
  | (Returned text, a') =>
      let written := Chapter.written c text in
      batchLoop env (App.writerPropsFor env aid n ready) total P left (S i)
        (<[P + i := written]> lc)
        (mkWorld a'
           (if ready
            then snd (FileSystemService.saveChapter env n written (P + i) (fs w))
            else fs w)
           (App.updateActiveNovel env aid
              (App.mkUpdates None None (Some (<[P + i := written]> lc)) None)
              (application w))
           (whilePending env
              (addLog ChapterSaved (whilePending env (whilePending env wr1))))
           (outlineView w))
  end.
Proof.
  intros Habort Hlook. cbn [batchLoop].
  unfold bind at 1. unfold get at 1. cbn beta iota. rewrite Habort, Hlook.
  unfold bind, onWriter, modify, awaiting, onAi, onApp, onFs, zoom, pause, ret. cbn.
  destruct (generateChapterContent env (Novel.config n) c (getContext c lc) (Novel.outline n) (ai w)) as [[text|e] a'].
  2: reflexivity.
  destruct ready.
  - cbn. unfold onFs, zoom. cbn [fs].
    destruct (Total_saveChapter env n (Chapter.written c text) (P + i) (fs w)) as ([] & Hs).
    destruct (FileSystemService.saveChapter env n (Chapter.written c text) (P + i) (fs w)) as [cc f'].
    cbn in Hs. subst cc. cbn. reflexivity.
  - cbn. reflexivity.
Qed.

Lemma batchLoop_done env props total P i lc w :
  batchLoop env props total P 0 i lc w = (Returned lc, w).
Proof. reflexivity. Qed.

Lemma batchLoop_aborted env props total P left i lc w :
  abortBatchRef (writer w) = true ->
  batchLoop env props total P (S left) i lc w
  = (Returned lc,
     mkWorld (ai w) (fs w) (application w) (addLog UserStopped (writer w))
       (outlineView w)).
Proof.
  intros Habort. cbn [batchLoop]. unfold bind at 1. unfold get at 1.
  cbn beta iota. rewrite Habort. reflexivity.
Qed.

Lemma batchLoop_end env props total P left i lc w :
  abortBatchRef (writer w) = false ->
  lc !! (P + i) = None ->
  batchLoop env props total P (S left) i lc w
  = (Returned lc,
     mkWorld (ai w) (fs w) (application w)
       (addLog ReachedLastChapter (writer w)) (outlineView w)).
Proof.
  intros Habort Hlook. cbn [batchLoop]. unfold bind at 1. unfold get at 1.
  cbn beta iota. rewrite Habort, Hlook. reflexivity.
Qed.

(** The writer state after one unit: the three awaited steps and the
    reports in between. *)
Lemma whilePending_facts env (s : WriterState.t) :
  isGenerating (whilePending env s) = isGenerating s
  /\ batchProgress (whilePending env s) = batchProgress s
  /\ awaited (whilePending env s) = S (awaited s)
  /\ progressReports (whilePending env s) = progressReports s
  /\ alerts (whilePending env s) = alerts s
  /\ abortBatchRef (whilePending env s)
     = abortBatchRef s || stopPressed env (awaited s) && stopButtonShown s.
Proof.
  unfold whilePending.
  destruct (stopPressed env (awaited s) && stopButtonShown s);
    destruct s as [act gen prog lg ab reps al aw];
    cbv [handleStopBatch setAbort addLog tick isGenerating batchProgress
         awaited progressReports alerts abortBatchRef activeChapterId logs];
    rewrite ?orb_true_r, ?orb_false_r; repeat split; reflexivity.
Qed.

(** The writer state after one unit: the three awaited steps and the
    reports in between. *)
Lemma unit_writer_facts env (s : WriterState.t) (id : Id) (i total : nat) :
  isGenerating s = true ->
  abortBatchRef s = false ->
  let s' :=
    whilePending env
      (addLog ChapterSaved
         (whilePending env
            (whilePending env
               (setBatchProgress (Some (i + 1, total))
                  (addLog (Writing (i + 1) total)
                     (setActiveChapterId (Some id) s)))))) in
  isGenerating s' = true
  /\ awaited s' = awaited s + 3
  /\ abortBatchRef s'
     = stopPressed env (awaited s) || stopPressed env (awaited s + 1)
       || stopPressed env (awaited s + 2)
  /\ progressReports s' = progressReports s ++ [Some (i + 1, total)]
  /\ alerts s' = alerts s.
Proof.
  intros Hgen Hab. cbn zeta.
  set (s1 := setBatchProgress (Some (i + 1, total))
               (addLog (Writing (i + 1) total)
                  (setActiveChapterId (Some id) s))).
  assert (isGenerating s1 = true /\ batchProgress s1 = Some (i + 1, total)
          /\ awaited s1 = awaited s /\ abortBatchRef s1 = false
          /\ progressReports s1 = progressReports s ++ [Some (i + 1, total)]
          /\ alerts s1 = alerts s) as (G1 & B1 & W1 & A1 & R1 & L1).
  { subst s1. destruct s. cbn in Hgen, Hab. subst. repeat split. }
  destruct (whilePending_facts env s1) as (G2 & B2 & W2 & R2 & L2 & A2).
  set (s2 := whilePending env s1) in *.
  destruct (whilePending_facts env s2) as (G3 & B3 & W3 & R3 & L3 & A3).
  set (s3 := whilePending env s2) in *.
  assert (isGenerating (addLog ChapterSaved s3) = isGenerating s3
          /\ batchProgress (addLog ChapterSaved s3) = batchProgress s3
          /\ awaited (addLog ChapterSaved s3) = awaited s3
          /\ abortBatchRef (addLog ChapterSaved s3) = abortBatchRef s3
          /\ progressReports (addLog ChapterSaved s3) = progressReports s3
          /\ alerts (addLog ChapterSaved s3) = alerts s3)
    as (G4 & B4 & W4 & A4 & R4 & L4).
  { destruct s3. repeat split. }
  set (s4 := addLog ChapterSaved s3) in *.
  destruct (whilePending_facts env s4) as (G5 & B5 & W5 & R5 & L5 & A5).
  assert (forall x, stopButtonShown x = isGenerating x
                    && bool_decide (is_Some (batchProgress x))) as Hshown
    by reflexivity.
  rewrite G5, G4, G3, G2, G1, W5, W4, W3, W2, W1, R5, R4, R3, R2, R1,
    L5, L4, L3, L2, L1, A5, A4, A3, A2, A1.
  rewrite !Hshown, G4, G3, G2, G1, B4, B3, B2, B1, W4, W3, W2, W1.
  replace (awaited s + 1) with (S (awaited s)) by lia.
  replace (awaited s + 2) with (S (S (awaited s))) by lia.
  replace (awaited s + 3) with (S (S (S (awaited s)))) by lia.
  cbn [andb orb]. rewrite bool_decide_eq_true_2 by eauto.
  rewrite !andb_true_r. repeat split; reflexivity.
Qed.


Lemma callAIWithRetry_inv {St T} (operation : M St T) retries :
  forall baseDelay t t' v,
    callAIWithRetry operation retries baseDelay t = (Returned v, t') ->
    exists x x', operation x = (Returned v, x').
Proof.
  induction retries as [|r IH]; intros baseDelay [s tl] t' v Hrun.
  - destruct (operation s) as [[a|e] s'] eqn:Hop.
    + rewrite (callAIWithRetry_returned _ _ _ _ _ _ _ Hop) in Hrun.
      injection Hrun as -> _. eauto.
    + rewrite (callAIWithRetry_exhausted _ _ _ _ _ _ Hop) in Hrun. discriminate.
  - destruct (operation s) as [[a|e] s'] eqn:Hop.
    + rewrite (callAIWithRetry_returned _ _ _ _ _ _ _ Hop) in Hrun.
      injection Hrun as -> _. eauto.
    + destruct (isTransient e) eqn:Htr.
      * rewrite (callAIWithRetry_transient _ _ _ _ _ _ _ Hop Htr) in Hrun.
        eapply IH. exact Hrun.
      * rewrite (callAIWithRetry_fatal _ _ _ _ _ _ _ Hop Htr) in Hrun.
        discriminate.
Qed.

Lemma textOr_nonempty text fallback : fallback <> [] -> textOr text fallback <> [].
Proof.
  intros Hf. destruct text as [[|u t]|]; cbn; try exact Hf. discriminate.
Qed.

Lemma generateChapterContent_nonempty env cfg c ctx o s text s' :
  generateChapterContent env cfg c ctx o s = (Returned text, s') ->
  text <> [].
Proof.
  unfold generateChapterContent. intros Hrun.
  apply callAIWithRetry_inv in Hrun. destruct Hrun as (x & x' & Hop).
  unfold bind, generateContent in Hop.
  destruct (provider env _ _) as [t|e]; [|discriminate].
  cbn in Hop. injection Hop as <- _. apply textOr_nonempty. discriminate.
Qed.

Lemma persistLibrary_novels s :
  AppState.novels (App.persistLibrary s) = AppState.novels s
  /\ AppState.activeNovelId (App.persistLibrary s) = AppState.activeNovelId s.
Proof.
  unfold App.persistLibrary. destruct (0 <? _); auto.
Qed.

Lemma mapUpdates_find env id u :
  forall prev reads i n,
    list_find (fun m => Some (Novel.id m) = Some id) prev = Some (i, n) ->
    exists now,
      list_find (fun m => Some (Novel.id m) = Some id)
        (fst (App.mapUpdates env id u prev reads))
      = Some (i, App.merge n u now).
Proof.
  induction prev as [|m rest IH]; intros reads i n Hfind; [discriminate|].
  cbn [list_find] in Hfind. cbn [App.mapUpdates].
  destruct (decide (Some (Novel.id m) = Some id)) as [Heq|Hne].
  - injection Hfind as <- <-. injection Heq as Heq.
    rewrite bool_decide_eq_true_2 by exact Heq.
    destruct (App.mapUpdates env id u rest (S reads)) as [rest' reads'].
    exists (dateNow env reads). cbn [fst list_find].
    rewrite decide_True by (cbn; congruence). reflexivity.
  - rewrite bool_decide_eq_false_2 by congruence.
    destruct (list_find _ rest) as [[j x]|] eqn:Hrest; [|discriminate].
    cbn in Hfind. injection Hfind as <- <-.
    destruct (IH reads j x eq_refl) as (now & Hnow).
    destruct (App.mapUpdates env id u rest reads) as [rest' reads'].
    exists now. cbn [fst list_find] in *.
    rewrite decide_False by exact Hne. rewrite Hnow. reflexivity.
Qed.

Lemma activeNovel_id a n :
  App.activeNovel a = Some n -> AppState.activeNovelId a = Some (Novel.id n).
Proof.
  unfold App.activeNovel. intros Hn.
  destruct (list_find _ (AppState.novels a)) as [[i x]|] eqn:Hfind;
    [|discriminate].
  cbn in Hn. injection Hn as ->.
  apply list_find_Some in Hfind as (_ & Hid & _). symmetry. exact Hid.
Qed.

Lemma updateActiveNovel_chapters env a cs :
  is_Some (App.activeNovel a) ->
  AppState.activeNovelId a <> Some [] ->
  let a' :=
    App.updateActiveNovel env (AppState.activeNovelId a)
      (App.mkUpdates None None (Some cs) None) a in
  AppState.activeNovelId a' = AppState.activeNovelId a
  /\ is_Some (App.activeNovel a')
  /\ App.activeChapters a' = Some cs.
Proof.
  intros [n Hn] Hne. unfold App.activeNovel in Hn.
  destruct a as [novs act ready stored reads].
  cbn [AppState.novels AppState.activeNovelId] in *.
  destruct (list_find _ novs) as [[i x]|] eqn:Hfind; [|discriminate].
  cbn in Hn. injection Hn as ->.
  pose proof Hfind as Hfind'. apply list_find_Some in Hfind' as (_ & Hid & _).
  subst act. cbn zeta. unfold App.updateActiveNovel.
  destruct (isEmpty (Novel.id n)) eqn:Hempty.
  { destruct (Novel.id n); [destruct Hne; reflexivity|discriminate]. }
  cbn [AppState.novels AppState.clockReads].
  destruct (mapUpdates_find env (Novel.id n)
              (App.mkUpdates None None (Some cs) None) _ reads _ _ Hfind)
    as (now & Hnow).
  destruct (App.mapUpdates env (Novel.id n) _ novs reads) as [novels' reads'].
  cbn [fst] in Hnow. unfold App.setNovels.
  cbn [AppState.novels AppState.activeNovelId AppState.isFileSystemReady
       AppState.localStorage AppState.clockReads].
  destruct (persistLibrary_novels
              (AppState.mk novels' (Some (Novel.id n)) ready stored reads'))
    as (Hnov & Hact).
  unfold App.activeChapters, App.activeNovel. rewrite Hnov, Hact.
  cbn [AppState.novels AppState.activeNovelId]. rewrite Hnow. cbn.
  split; [reflexivity|]. split; [eauto|reflexivity].
Qed.

Lemma writtenRange_refl lc p : writtenRange lc lc p p.
Proof.
  split; [reflexivity|]. split; [intros j Hj; lia|reflexivity].
Qed.

Lemma writtenRange_one lc p c text :
  lc !! p = Some c -> text <> [] ->
  writtenRange lc (<[p := Chapter.written c text]> lc) p (S p).
Proof.
  intros Hp Ht. split; [apply length_insert|]. split.
  - intros j Hj. assert (j = p) as -> by lia. exists c, text.
    split; [exact Hp|]. split; [|exact Ht].
    apply list_lookup_insert_eq. eapply lookup_lt_Some. exact Hp.
  - intros j Hj. apply list_lookup_insert_ne. lia.
Qed.

Lemma writtenRange_trans a b c x y z :
  x <= y -> y <= z ->
  writtenRange a b x y -> writtenRange b c y z -> writtenRange a c x z.
Proof.
  intros Hxy Hyz (Hl1 & Hin1 & Hout1) (Hl2 & Hin2 & Hout2).
  split; [congruence|]. split.
  - intros j Hj. destruct (decide (j < y)) as [Hlt|Hge].
    + destruct (Hin1 j ltac:(lia)) as (c0 & t & Ha & Hb & Ht).
      exists c0, t. rewrite (Hout2 j) by lia. auto.
    + destruct (Hin2 j ltac:(lia)) as (c0 & t & Hb & Hc & Ht).
      exists c0, t. rewrite <- (Hout1 j) by lia. auto.
  - intros j Hj. rewrite (Hout2 j) by lia. apply Hout1. lia.
Qed.

Section Continuation.
Context (env : Env) (n : Novel.t) (ready : bool) (total P : nat).
Context (Hgen : Succeeds env).

Let aid (w : World) := AppState.activeNovelId (application w).

(** One unit of the loop, whatever the user does meanwhile. *)
Lemma batchLoop_unit left i lc w :
  P + i < length lc ->
  abortBatchRef (writer w) = false ->
  isGenerating (writer w) = true ->
  is_Some (App.activeNovel (application w)) ->
  aid w <> Some [] ->
  exists lc' w',
    batchLoop env (App.writerPropsFor env (aid w) n ready) total P (S left)
      i lc w
    = batchLoop env (App.writerPropsFor env (aid w) n ready) total P left
        (S i) lc' w'
    /\ writtenRange lc lc' (P + i) (S (P + i))
    /\ isGenerating (writer w') = true
    /\ aid w' = aid w
    /\ is_Some (App.activeNovel (application w'))
    /\ App.activeChapters (application w') = Some lc'
    /\ awaited (writer w') = awaited (writer w) + 3
    /\ abortBatchRef (writer w')
       = stopPressed env (awaited (writer w))
         || stopPressed env (awaited (writer w) + 1)
         || stopPressed env (awaited (writer w) + 2)
    /\ progressReports (writer w')
       = progressReports (writer w) ++ [Some (i + 1, total)]
    /\ alerts (writer w') = alerts (writer w).
Proof.
  intros Hlen Hab Hgenr Hact Hne.
  destruct (lookup_lt_is_Some_2 lc (P + i) Hlen) as [c Hc].
  destruct (Hgen (Novel.config n) c (getContext c lc) (Novel.outline n)
              (ai w)) as (text & a' & Hrun).
  pose proof (generateChapterContent_nonempty _ _ _ _ _ _ _ _ Hrun) as Htext.
  rewrite (batchLoop_step env (aid w) n ready total P left i lc w c Hab Hc).
  rewrite Hrun. cbn zeta.
  destruct (unit_writer_facts env (writer w) (Chapter.id c) i total
              Hgenr Hab) as (Hg1 & Haw1 & Hab1 & Hrep1 & Hal1).
  destruct (updateActiveNovel_chapters env (application w)
              (<[P + i := Chapter.written c text]> lc) Hact Hne)
    as (Hid1 & Hact1 & Hch1).
  eexists. eexists. split; [reflexivity|].
  split; [apply writtenRange_one; assumption|].
  cbn [writer application]. repeat split; assumption.
Qed.

(** [m] units in a row while the stop button is not pressed. *)
Lemma batchLoop_units :
  forall m left i lc w,
    m <= left ->
    P + i + m <= length lc ->
    abortBatchRef (writer w) = false ->
    isGenerating (writer w) = true ->
    is_Some (App.activeNovel (application w)) ->
    aid w <> Some [] ->
    (forall k, awaited (writer w) <= k < awaited (writer w) + 3 * m ->
               stopPressed env k = false) ->
    exists lc' w',
      batchLoop env (App.writerPropsFor env (aid w) n ready) total P left i
        lc w
      = batchLoop env (App.writerPropsFor env (aid w) n ready) total P
          (left - m) (i + m) lc' w'
      /\ writtenRange lc lc' (P + i) (P + i + m)
      /\ abortBatchRef (writer w') = false
      /\ isGenerating (writer w') = true
      /\ aid w' = aid w
      /\ is_Some (App.activeNovel (application w'))
      /\ (0 < m -> App.activeChapters (application w') = Some lc')
      /\ (m = 0 -> w' = w /\ lc' = lc)
      /\ awaited (writer w') = awaited (writer w) + 3 * m
      /\ progressReports (writer w')
         = progressReports (writer w)
           ++ map (fun j => Some (j, total)) (seq (i + 1) m)
      /\ alerts (writer w') = alerts (writer w).
Proof.
  induction m as [|m IH];
    intros left i lc w Hm Hlen Hab Hgenr Hact Hne Hstop.
  - exists lc, w. rewrite Nat.sub_0_r, !Nat.add_0_r, app_nil_r.
    split; [reflexivity|]. split; [apply writtenRange_refl|].
    repeat split; auto; lia.
  - destruct left as [|left]; [lia|].
    destruct (batchLoop_unit left i lc w ltac:(lia) Hab Hgenr Hact Hne)
      as (lc1 & w1 & Heq1 & Hrange1 & Hg1 & Haid1 & Hact1 & Hch1 & Haw1
          & Hab1 & Hrep1 & Hal1).
    rewrite !(Hstop _) in Hab1 by lia. cbn [orb] in Hab1.
    destruct (IH left (S i) lc1 w1) as
      (lc' & w' & Heq & Hrange & Hab' & Hg' & Haid' & Hact' & Hch' & Hzero
       & Haw' & Hrep' & Hal').
    + lia.
    + destruct Hrange1 as (Hl1 & _). rewrite Hl1. lia.
    + exact Hab1.
    + exact Hg1.
    + exact Hact1.
    + rewrite Haid1. exact Hne.
    + intros k Hk. apply Hstop. rewrite Haw1 in Hk. lia.
    + exists lc', w'. rewrite Haid1 in Heq. rewrite Heq1, Heq.
      replace (S left - S m) with (left - m) by lia.
      replace (i + S m) with (S i + m) by lia.
      split; [reflexivity|]. split.
      { apply (writtenRange_trans lc lc1 lc' (P + i) (P + S i) (P + i + S m));
          [lia|lia| |].
        - replace (P + S i) with (S (P + i)) by lia. exact Hrange1.
        - replace (P + i + S m) with (P + S i + m) by lia. exact Hrange. }
      split; [exact Hab'|]. split; [exact Hg'|].
      split; [congruence|]. split; [exact Hact'|].
      split.
      { intros _. destruct m as [|m'].
        - destruct (Hzero eq_refl) as [-> ->]. exact Hch1.
        - apply Hch'. lia. }
      split; [intros; lia|].
      split; [rewrite Haw', Haw1; lia|].
      split.
      { rewrite Hrep', Hrep1. rewrite <- app_assoc. cbn [seq map app].
        replace (S i + 1) with (S (i + 1)) by lia. reflexivity. }
      congruence.
Qed.
End Continuation.

Lemma handleBatchGenerate_eq env props w :
  handleBatchGenerate env props w
  = if isGenerating (writer w) then (Returned tt, w)
    else if bool_decide (length (chapters props) = 0) then
      (Returned tt,
       mkWorld (ai w) (fs w) (application w)
         (alert NeedChapterList (writer w)) (outlineView w))
    else
      let P := findStartIndex (activeChapterId (writer w)) (chapters props) in
      if length (chapters props) <=? P then
        (Returned tt,
         mkWorld (ai w) (fs w) (application w)
           (alert AllChaptersComplete (setAbort false (writer w)))
           (outlineView w))
      else
        match batchLoop env props chaptersToGenCount P chaptersToGenCount 0
                (chapters props) (runStart w P) with
        | (Returned _, w2) => (Returned tt, runEnd w2)
        | (Thrown _, w2) => (Returned tt, runFailed w2)
        end.
Proof.
  unfold handleBatchGenerate. unfold bind at 1. unfold get at 1.
  cbn beta iota.
  destruct (isGenerating (writer w)); [reflexivity|].
  destruct (bool_decide (length (chapters props) = 0)); [reflexivity|].
  cbn zeta.
  set (P := findStartIndex (activeChapterId (writer w)) (chapters props)).
  unfold bind at 1. unfold onWriter at 1, modify at 1.
  destruct (length (chapters props) <=? P); [reflexivity|].
  unfold bind at 1. unfold onWriter at 1, modify at 1.
  unfold bind at 1. unfold onWriter at 1, modify at 1.
  unfold bind at 1. unfold onWriter at 1, modify at 1.
  cbn [ai fs application writer outlineView].
  unfold tryFinally, tryCatch. unfold bind at 1.
  fold (runStart w P).
  destruct (batchLoop env props chaptersToGenCount P chaptersToGenCount 0
              (chapters props) (runStart w P)) as [[lc'|e] w2].
  - unfold bind, get, when, onWriter, modify, ret, runEnd. cbn [writer negb].
    destruct (abortBatchRef (writer w2)); reflexivity.
  - reflexivity.
Qed.

Lemma press_run env w n lc' w2 :
  WriterReady w n ->
  let P := findStartIndex (activeChapterId (writer w)) (Novel.chapters n) in
  P < length (Novel.chapters n) ->
  batchLoop env
    (App.writerPropsFor env (AppState.activeNovelId (application w)) n
       (AppState.isFileSystemReady (application w)))
    chaptersToGenCount P chaptersToGenCount 0 (Novel.chapters n) (runStart w P)
  = (Returned lc', w2) ->
  pressBatchGenerate env w = (Returned tt, runEnd w2).
Proof.
  intros (Hact & _ & Hstep & Hgen) P HP Hloop.
  unfold pressBatchGenerate, App.writerProps. rewrite Hact, Hstep.
  rewrite handleBatchGenerate_eq, Hgen.
  cbn [chapters App.writerPropsFor].
  rewrite bool_decide_eq_false_2 by lia. cbn zeta. fold P.
  destruct (Nat.leb_spec (length (Novel.chapters n)) P) as [Hle|_]; [lia|].
  rewrite Hloop. reflexivity.
Qed.

Lemma runStart_facts w P :
  abortBatchRef (writer (runStart w P)) = false
  /\ isGenerating (writer (runStart w P)) = true
  /\ awaited (writer (runStart w P)) = awaited (writer w)
  /\ progressReports (writer (runStart w P))
     = progressReports (writer w) ++ [Some (0, chaptersToGenCount)]
  /\ alerts (writer (runStart w P)) = alerts (writer w).
Proof. destruct w as [a f ap [] o]. repeat split. Qed.

Lemma runEnd_facts w2 :
  application (runEnd w2) = application w2
  /\ abortBatchRef (writer (runEnd w2)) = false
  /\ isGenerating (writer (runEnd w2)) = false
  /\ batchProgress (writer (runEnd w2)) = None
  /\ progressReports (writer (runEnd w2))
     = progressReports (writer w2) ++ [None]
  /\ alerts (writer (runEnd w2)) = alerts (writer w2).
Proof.
  destruct w2 as [a f ap [act gen prog lg ab reps al aw] o].
  unfold runEnd. cbn [writer abortBatchRef]. destruct ab; repeat split.
Qed.

(** A run that nothing interrupts writes min(run length, units left)
    units from its start index. *)
Lemma run_uninterrupted env w n :
  WriterReady w n ->
  let cs := Novel.chapters n in
  let P := findStartIndex (activeChapterId (writer w)) cs in
  let m := min chaptersToGenCount (length cs - P) in
  P < length cs ->
  Succeeds env ->
  (forall k, awaited (writer w) <= k < awaited (writer w) + 3 * m ->
             stopPressed env k = false) ->
  exists w' cs',
    pressBatchGenerate env w = (Returned tt, w')
    /\ App.activeChapters (application w') = Some cs'
    /\ writtenRange cs cs' P (P + m)
    /\ progressReports (writer w')
       = progressReports (writer w)
         ++ map (fun j => Some (j, chaptersToGenCount)) (seq 0 (S m))
         ++ [None]
    /\ alerts (writer w') = alerts (writer w)
    /\ (m < chaptersToGenCount ->
        exists front,
          logs (writer w') = front ++ [ReachedLastChapter; BatchComplete]).
Proof.
  intros Hready cs P m HP Hgen Hstop.
  destruct (runStart_facts w P) as (Hab0 & Hg0 & Haw0 & Hrep0 & Hal0).
  assert (is_Some (App.activeNovel (application (runStart w P)))) as Hact0.
  { destruct Hready as (Hact & _). cbn. rewrite Hact. eauto. }
  assert (AppState.activeNovelId (application (runStart w P)) <> Some [])
    as Hne0.
  { destruct Hready as (Hact & Hid & _). cbn [application runStart].
    rewrite (activeNovel_id _ _ Hact). congruence. }
  assert (m <= chaptersToGenCount) as Hm1 by (subst m; lia).
  assert (P + 0 + m <= length cs) as Hm2 by (subst m; lia).
  assert (forall k,
             awaited (writer (runStart w P)) <= k
             < awaited (writer (runStart w P)) + 3 * m ->
             stopPressed env k = false) as Hstop0.
  { rewrite Haw0. exact Hstop. }
  destruct (batchLoop_units env n
              (AppState.isFileSystemReady (application w))
              chaptersToGenCount P Hgen m chaptersToGenCount 0 cs
              (runStart w P) Hm1 Hm2 Hab0 Hg0 Hact0 Hne0 Hstop0)
    as (lc' & w1 & Heq & Hrange & Hab1 & Hg1 & _ & Hact1 & Hch1 & _ & Haw1
        & Hrep1 & Hal1).
  change (AppState.activeNovelId (application (runStart w P)))
    with (AppState.activeNovelId (application w)) in Heq.
  rewrite Nat.add_0_r in Hrange. cbn [Nat.add] in Heq, Hrep1.
  assert (0 < m) as Hm by (subst m; unfold chaptersToGenCount; lia).
  assert (exists w2,
             batchLoop env
               (App.writerPropsFor env
                  (AppState.activeNovelId (application w)) n
                  (AppState.isFileSystemReady (application w)))
               chaptersToGenCount P (chaptersToGenCount - m) m lc' w1
             = (Returned lc', w2)
             /\ application w2 = application w1
             /\ abortBatchRef (writer w2) = false
             /\ progressReports (writer w2) = progressReports (writer w1)
             /\ alerts (writer w2) = alerts (writer w1)
             /\ (m < chaptersToGenCount ->
                 exists front,
                   logs (writer w2) = front ++ [ReachedLastChapter]))
    as (w2 & Hloop & Happ2 & Hab2 & Hrep2 & Hal2 & Hlog2).
  { destruct (chaptersToGenCount - m) as [|left] eqn:Hleft.
    - exists w1. rewrite batchLoop_done. repeat split; auto. intros; lia.
    - eexists. rewrite (batchLoop_end _ _ _ _ _ _ _ _ Hab1).
      + split; [reflexivity|]. cbn [application writer].
        destruct (writer w1) as [act gen prog lg ab reps al aw].
        cbn [abortBatchRef] in Hab1. subst ab.
        repeat split. intros _. eexists. reflexivity.
      + apply lookup_ge_None_2. destruct Hrange as (Hl & _). rewrite Hl.
        subst m. fold cs. lia. }
  rewrite Hloop in Heq.
  exists (runEnd w2), lc'.
  destruct (runEnd_facts w2) as (Happ3 & _ & _ & _ & Hrep3 & Hal3).
  split; [exact (press_run env w n lc' w2 Hready HP Heq)|].
  split; [rewrite Happ3, Happ2; apply Hch1; exact Hm|].
  split; [exact Hrange|].
  split.
  { rewrite Hrep3, Hrep2, Hrep1, Hrep0. rewrite <- !app_assoc.
    cbn [seq map app]. reflexivity. }
  split; [congruence|].
  intros Hlt. destruct (Hlog2 Hlt) as (front & Hfront).
  unfold runEnd. rewrite Hab2. cbn [writer].
  assert (forall x,
             logs (setAbort false
                     (setBatchProgress None (setIsGenerating false x)))
             = logs x) as Hsame by (intros []; reflexivity).
  rewrite Hsame.
  change (logs (addLog BatchComplete (writer w2)))
    with (drop (length (logs (writer w2)) - 4) (logs (writer w2))
          ++ [BatchComplete]).
  rewrite Hfront, length_app. cbn [length].
  replace (length front + 1 - 4) with (length front - 3) by lia.
  rewrite drop_app_le by lia. rewrite <- app_assoc.
  eexists. reflexivity.
Qed.

Lemma writtenRange_flags before after from to :
  writtenRange before after from to ->
  forall j, from <= j < to ->
    exists c c',
      before !! j = Some c
      /\ after !! j = Some c'
      /\ Chapter.isGenerated c' = true
      /\ Chapter.content c' <> []
      /\ Chapter.id c' = Chapter.id c
      /\ Chapter.title c' = Chapter.title c
      /\ Chapter.summary c' = Chapter.summary c.
Proof.
  intros (_ & Hin & _) j Hj. destruct (Hin j Hj) as (c & text & Hb & Ha & Ht).
  exists c, (Chapter.written c text). repeat split; assumption.
Qed.

Lemma lastReported_app a b :
  lastReported (a ++ b)
  = match lastReported b with
    | Some k => Some k
    | None => lastReported a
    end.
Proof.
  induction a as [|r a IH]; cbn [app lastReported].
  - destruct (lastReported b); reflexivity.
  - rewrite IH. destruct (lastReported b); reflexivity.
Qed.

Lemma lastReported_run (total m : nat) :
  forall from,
    lastReported (map (fun j => Some (j, total)) (seq from (S m)))
    = Some (from + m).
Proof.
  induction m as [|m IH]; intros from.
  - cbn. f_equal. lia.
  - change (seq from (S (S m))) with (from :: seq (S from) (S m)).
    cbn [map lastReported]. rewrite IH. f_equal. lia.
Qed.

Lemma lastReported_reports pre total m :
  lastReported
    (pre ++ map (fun j => Some (j, total)) (seq 0 (S m)) ++ [None])
  = Some m.
Proof.
  rewrite !lastReported_app. cbn [lastReported fmap option_fmap option_map].
  rewrite lastReported_run. reflexivity.
Qed.

Lemma skipWritten_spec rest :
  forall start,
    let P := skipWritten rest start in
    start <= P <= start + length rest
    /\ (forall j c, j < P - start -> rest !! j = Some c ->
                    500 < length (Chapter.content c))
    /\ (forall c, rest !! (P - start) = Some c ->
                  length (Chapter.content c) <= 500).
Proof.
  induction rest as [|c rest IH]; intros start; cbn [skipWritten length].
  - split; [lia|]. split; intros; discriminate.
  - destruct (Nat.ltb_spec 500 (length (Chapter.content c))) as [Hlong|Hshort].
    + destruct (IH (S start)) as (Hb & Hskip & Hstop).
      split; [lia|]. split.
      * intros j x Hj Hx. destruct j as [|j].
        -- cbn in Hx. injection Hx as <-. exact Hlong.
        -- cbn in Hx. apply (Hskip j x); [lia|exact Hx].
      * intros x Hx.
        replace (skipWritten rest (S start) - start)
          with (S (skipWritten rest (S start) - S start)) in Hx by lia.
        cbn in Hx. apply Hstop. exact Hx.
    + split; [lia|]. split; [intros; lia|].
      intros x Hx. rewrite Nat.sub_diag in Hx. cbn in Hx.
      injection Hx as <-. exact Hshort.
Qed.

Lemma findStartIndex_spec (active : option Id) (cs : list Chapter.t) :
  let cur := default 0 (findIndex active cs) in
  let P := findStartIndex active cs in
  cur <= P
  /\ (forall j c, cur <= j < P -> cs !! j = Some c ->
                  500 < length (Chapter.content c))
  /\ (forall c, cs !! P = Some c -> length (Chapter.content c) <= 500).
Proof.
  cbn zeta. unfold findStartIndex.
  set (cur := default 0 (findIndex active cs)).
  destruct (skipWritten_spec (drop cur cs) cur) as (Hb & Hskip & Hstop).
  split; [lia|]. split.
  - intros j c Hj Hc. apply (Hskip (j - cur) c); [lia|].
    rewrite lookup_drop. replace (cur + (j - cur)) with j by lia. exact Hc.
  - intros c Hc. apply Hstop. rewrite lookup_drop.
    replace (cur + (skipWritten (drop cur cs) cur - cur))
      with (skipWritten (drop cur cs) cur) by lia.
    exact Hc.
Qed.

(** C5.  A continuation run in which every generation call succeeds and
    which is not cancelled, of run length L = 10 from its start position P:
    the units at positions P .. P+L-1, as far as the sequence goes, end
    with the generated flag and a non-empty body, and every unit at another
    position is as it was. *)
Theorem C5_continuation_frame env w n :
  WriterReady w n ->
  let cs := Novel.chapters n in
  let P := findStartIndex (activeChapterId (writer w)) cs in
  let L := chaptersToGenCount in
  P < length cs ->
  Succeeds env ->
  (forall k, stopPressed env k = false) ->
  exists w' cs',
    pressBatchGenerate env w = (Returned tt, w')
    /\ App.activeChapters (application w') = Some cs'
    /\ length cs' = length cs
    /\ (forall j, P <= j < min (P + L) (length cs) ->
          exists c c',
            cs !! j = Some c
            /\ cs' !! j = Some c'
            /\ Chapter.isGenerated c' = true
            /\ Chapter.content c' <> []
            /\ Chapter.id c' = Chapter.id c
            /\ Chapter.title c' = Chapter.title c
            /\ Chapter.summary c' = Chapter.summary c)
    /\ (forall j, ~ (P <= j < min (P + L) (length cs)) ->
          cs' !! j = cs !! j).
Proof.
  intros Hready cs P L HP Hgen Hstop.
  destruct (run_uninterrupted env w n Hready HP Hgen)
    as (w' & cs' & Hrun & Hch & Hrange & _); [intros; apply Hstop|].
  fold cs P in Hrange.
  replace (P + min chaptersToGenCount (length cs - P))
    with (min (P + L) (length cs)) in Hrange by (subst L; lia).
  exists w', cs'. split; [exact Hrun|]. split; [exact Hch|].
  split; [apply Hrange|]. split.
  - apply writtenRange_flags. exact Hrange.
  - apply Hrange.
Qed.


Lemma savedUnits_frame env n a b :
  forall count from f,
    (forall j, from <= j < from + count -> a !! j = b !! j) ->
    savedUnits env n a from count f = savedUnits env n b from count f.
Proof.
  induction count as [|count IH]; intros from f Hsame; [reflexivity|].
  cbn [savedUnits]. rewrite (Hsame from) by lia.
  destruct (b !! from); [|reflexivity]. apply IH.
  intros j Hj. apply Hsame. lia.
Qed.

Section Cancelled.
Context (env : Env) (n : Novel.t) (ready : bool) (total P : nat).

Let aid (w : World) := AppState.activeNovelId (application w).
Let asked (w : World) := requests (inner (ai w)).

(** One unit of the loop with everything it leaves behind. *)
Lemma batchLoop_unit_traced left i lc w :
  P + i < length lc ->
  abortBatchRef (writer w) = false ->
  isGenerating (writer w) = true ->
  is_Some (App.activeNovel (application w)) ->
  aid w <> Some [] ->
  (forall req, exists text, provider env (asked w) req = Returned text) ->
  exists c text w',
    lc !! (P + i) = Some c
    /\ text <> []
    /\ batchLoop env (App.writerPropsFor env (aid w) n ready) total P
         (S left) i lc w
       = batchLoop env (App.writerPropsFor env (aid w) n ready) total P left
           (S i) (<[P + i := Chapter.written c text]> lc) w'
    /\ fs w'
       = (if ready
          then snd (FileSystemService.saveChapter env n
                      (Chapter.written c text) (P + i) (fs w))
          else fs w)
    /\ isGenerating (writer w') = true
    /\ aid w' = aid w
    /\ is_Some (App.activeNovel (application w'))
    /\ App.activeChapters (application w')
       = Some (<[P + i := Chapter.written c text]> lc)
    /\ awaited (writer w') = awaited (writer w) + 3
    /\ abortBatchRef (writer w')
       = stopPressed env (awaited (writer w))
         || stopPressed env (awaited (writer w) + 1)
         || stopPressed env (awaited (writer w) + 2)
    /\ progressReports (writer w')
       = progressReports (writer w) ++ [Some (i + 1, total)]
    /\ alerts (writer w') = alerts (writer w)
    /\ asked w' = S (asked w).
Proof.
  intros Hlen Hab Hgenr Hact Hne Hans.
  destruct (lookup_lt_is_Some_2 lc (P + i) Hlen) as [c Hc].
  destruct (Hans (ContentRequest (Novel.config n) (Chapter.title c)
                    (Chapter.summary c) (getContext c lc)
                    (sliceFirst 800 (Novel.outline n)))) as (text & Hp).
  pose proof (generateChapterContent_eq env (Novel.config n) c
                (getContext c lc) (Novel.outline n) (ai w) text Hp) as Hrun.
  pose proof (generateChapterContent_nonempty _ _ _ _ _ _ _ _ Hrun) as Htext.
  rewrite (batchLoop_step env (aid w) n ready total P left i lc w c Hab Hc).
  rewrite Hrun. cbn zeta.
  destruct (unit_writer_facts env (writer w) (Chapter.id c) i total
              Hgenr Hab) as (Hg1 & Haw1 & Hab1 & Hrep1 & Hal1).
  destruct (updateActiveNovel_chapters env (application w)
              (<[P + i := Chapter.written c (textOr text emptyContentText)]>
                 lc) Hact Hne)
    as (Hid1 & Hact1 & Hch1).
  exists c, (textOr text emptyContentText). eexists.
  split; [exact Hc|]. split; [exact Htext|]. split; [reflexivity|].
  unfold asked. cbn [writer application ai fs inner requests].
  split; [reflexivity|]. repeat split; assumption.
Qed.

(** [S m] units in a row: the stop button is not pressed during the first
    [m] of them, and the stop flag afterwards tells whether it was pressed
    during the last. *)
Lemma batchLoop_units_traced :
  forall m left i lc w,
    S m <= left ->
    P + i + S m <= length lc ->
    abortBatchRef (writer w) = false ->
    isGenerating (writer w) = true ->
    is_Some (App.activeNovel (application w)) ->
    aid w <> Some [] ->
    (forall k, awaited (writer w) <= k < awaited (writer w) + 3 * m ->
               stopPressed env k = false) ->
    (forall j req, j < S m ->
                   exists text, provider env (asked w + j) req = Returned text) ->
    exists lc' w',
      batchLoop env (App.writerPropsFor env (aid w) n ready) total P left i
        lc w
      = batchLoop env (App.writerPropsFor env (aid w) n ready) total P
          (left - S m) (i + S m) lc' w'
      /\ writtenRange lc lc' (P + i) (P + i + S m)
      /\ fs w'
         = (if ready then savedUnits env n lc' (P + i) (S m) (fs w)
            else fs w)
      /\ isGenerating (writer w') = true
      /\ App.activeChapters (application w') = Some lc'
      /\ awaited (writer w') = awaited (writer w) + 3 * S m
      /\ abortBatchRef (writer w')
         = stopPressed env (awaited (writer w) + 3 * m)
           || stopPressed env (awaited (writer w) + 3 * m + 1)
           || stopPressed env (awaited (writer w) + 3 * m + 2)
      /\ progressReports (writer w')
         = progressReports (writer w)
           ++ map (fun j => Some (j, total)) (seq (i + 1) (S m))
      /\ alerts (writer w') = alerts (writer w)
      /\ asked w' = asked w + S m.
Proof.
  induction m as [|m IH];
    intros left i lc w Hm Hlen Hab Hgenr Hact Hne Hstop Hans;
    (destruct left as [|left]; [lia|]);
    destruct (batchLoop_unit_traced left i lc w ltac:(lia) Hab Hgenr Hact Hne)
      as (c & text & w1 & Hc & Htext & Heq1 & Hfs1 & Hg1 & Haid1 & Hact1
          & Hch1 & Haw1 & Hab1 & Hrep1 & Hal1 & Hask1);
    try (intros req; destruct (Hans 0 req ltac:(lia)) as (text & Hp);
         rewrite Nat.add_0_r in Hp; eauto).
  - exists (<[P + i := Chapter.written c text]> lc), w1.
    split.
    { replace (S left - 1) with left by lia.
      replace (i + 1) with (S i) by lia. exact Heq1. }
    split.
    { replace (P + i + 1) with (S (P + i)) by lia.
      apply writtenRange_one; assumption. }
    split.
    { rewrite Hfs1. destruct ready; [|reflexivity]. cbn [savedUnits].
      rewrite list_lookup_insert_eq by lia. reflexivity. }
    split; [exact Hg1|]. split; [exact Hch1|].
    split; [rewrite Haw1; lia|]. split.
    { rewrite Hab1. cbn [Nat.mul]. rewrite !Nat.add_0_r. reflexivity. }
    split; [rewrite Hrep1; reflexivity|]. split; [exact Hal1|].
    rewrite Hask1. lia.
  - rewrite !(Hstop _) in Hab1 by lia. cbn [orb] in Hab1.
    destruct (IH left (S i) (<[P + i := Chapter.written c text]> lc) w1) as
      (lc' & w' & Heq & Hrange & Hfs' & Hg' & Hch' & Haw' & Hab' & Hrep'
       & Hal' & Hask').
    + lia.
    + rewrite length_insert. lia.
    + exact Hab1.
    + exact Hg1.
    + exact Hact1.
    + rewrite Haid1. exact Hne.
    + intros k Hk. apply Hstop. rewrite Haw1 in Hk. lia.
    + intros j req Hj. rewrite Hask1.
      destruct (Hans (S j) req ltac:(lia)) as (text' & Hp).
      exists text'. rewrite <- Hp. f_equal. lia.
    + exists lc', w'. rewrite Haid1 in Heq. rewrite Heq1, Heq.
      replace (S left - S (S m)) with (left - S m) by lia.
      replace (i + S (S m)) with (S i + S m) by lia.
      split; [reflexivity|].
      assert (writtenRange lc lc' (P + i) (P + i + S (S m))) as Hall.
      { apply (writtenRange_trans lc (<[P + i := Chapter.written c text]> lc)
                 lc' (P + i) (P + S i) (P + i + S (S m))); [lia|lia| |].
        - replace (P + S i) with (S (P + i)) by lia.
          apply writtenRange_one; assumption.
        - replace (P + i + S (S m)) with (P + S i + S m) by lia.
          exact Hrange. }
      split; [exact Hall|]. split.
      { rewrite Hfs', Hfs1. destruct ready; [|reflexivity].
        cbn [savedUnits].
        assert (lc' !! (P + i) = Some (Chapter.written c text)) as Hkept.
        { destruct Hrange as (_ & _ & Hout). rewrite Hout by lia.
          apply list_lookup_insert_eq. lia. }
        rewrite Hkept. replace (P + S i) with (S (P + i)) by lia.
        reflexivity. }
      split; [exact Hg'|]. split; [exact Hch'|].
      split; [rewrite Haw', Haw1; lia|]. split.
      { rewrite Hab', Haw1.
        replace (awaited (writer w) + 3 + 3 * m)
          with (awaited (writer w) + 3 * S m) by lia.
        reflexivity. }
      split.
      { rewrite Hrep', Hrep1. rewrite <- app_assoc.
        change (seq (i + 1) (S (S m)))
          with ((i + 1) :: seq (S (i + 1)) (S m)).
        cbn [map app]. replace (S i + 1) with (S (i + 1)) by lia.
        reflexivity. }
      split; [congruence|]. rewrite Hask', Hask1. lia.
Qed.

End Cancelled.

(** What the end of a run keeps of the world its loop left. *)
Lemma runEnd_stopped w2 :
  abortBatchRef (writer w2) = true ->
  ai (runEnd w2) = ai w2
  /\ fs (runEnd w2) = fs w2
  /\ awaited (writer (runEnd w2)) = awaited (writer w2)
  /\ logs (writer (runEnd w2)) = logs (writer w2).
Proof.
  destruct w2 as [a f ap [act gen prog lg ab reps al aw] o].
  cbn [writer abortBatchRef]. intros ->. repeat split.
Qed.

(** C6, as the code has it.  The stop button is pressed while unit K of a
    continuation run is in flight (during its generation, its save or the
    pause after it), not before, and the K generation requests of the run
    so far are answered.
    The run does not stop inside the unit: it makes exactly K generation
    requests and 3 K awaited steps, so unit K is generated, saved and
    paused after, and no further unit is started.  It ends normally with
    exactly the K units from its start position written (generated flag
    on, a body that is not empty, identity, title and summary kept), every
    other unit as it was, and the K units saved in turn.  The run reports
    no count of completed units: the progress it shows is the number of the
    unit in flight, K at last, and is cleared when the run ends; the line
    it logs on stopping says that the user stopped it. *)
Theorem C6_cancel_after_unit env w n K :
  WriterReady w n ->
  let cs := Novel.chapters n in
  let P := findStartIndex (activeChapterId (writer w)) cs in
  let a0 := awaited (writer w) in
  let asked := requests (inner (ai w)) in
  1 <= K <= chaptersToGenCount ->
  P + K <= length cs ->
  (forall j req, j < K ->
                 exists text, provider env (asked + j) req = Returned text) ->
  (forall k, a0 <= k < a0 + 3 * (K - 1) -> stopPressed env k = false) ->
  (exists k, a0 + 3 * (K - 1) <= k < a0 + 3 * K /\ stopPressed env k = true) ->
  exists w' cs',
    pressBatchGenerate env w = (Returned tt, w')
    /\ App.activeChapters (application w') = Some cs'
    /\ length cs' = length cs
    /\ (forall j, P <= j < P + K ->
          exists c c',
            cs !! j = Some c
            /\ cs' !! j = Some c'
            /\ Chapter.isGenerated c' = true
            /\ Chapter.content c' <> []
            /\ Chapter.id c' = Chapter.id c
            /\ Chapter.title c' = Chapter.title c
            /\ Chapter.summary c' = Chapter.summary c)
    /\ (forall j, ~ (P <= j < P + K) -> cs' !! j = cs !! j)
    /\ requests (inner (ai w')) = asked + K
    /\ awaited (writer w') = a0 + 3 * K
    /\ fs w'
       = (if AppState.isFileSystemReady (application w)
          then savedUnits env n cs' P K (fs w)
          else fs w)
    /\ progressReports (writer w')
       = progressReports (writer w)
         ++ map (fun j => Some (j, chaptersToGenCount)) (seq 0 (S K))
         ++ [None]
    /\ lastReported (progressReports (writer w')) = Some K
    /\ batchProgress (writer w') = None
    /\ isGenerating (writer w') = false
    /\ abortBatchRef (writer w') = false
    /\ (K < chaptersToGenCount ->
        last (logs (writer w')) = Some UserStopped)
    /\ alerts (writer w') = alerts (writer w).
Proof.
  intros Hready cs P a0 asked HK Hlen Hans Hquiet (kp & Hkp & Hpressed).
  destruct (runStart_facts w P) as (Hab0 & Hg0 & Haw0 & Hrep0 & Hal0).
  assert (is_Some (App.activeNovel (application (runStart w P)))) as Hact0.
  { destruct Hready as (Hact & _). cbn. rewrite Hact. eauto. }
  assert (AppState.activeNovelId (application (runStart w P)) <> Some [])
    as Hne0.
  { destruct Hready as (Hact & Hid & _). cbn [application runStart].
    rewrite (activeNovel_id _ _ Hact). congruence. }
  assert (forall k,
             awaited (writer (runStart w P)) <= k
             < awaited (writer (runStart w P)) + 3 * (K - 1) ->
             stopPressed env k = false) as Hquiet0.
  { rewrite Haw0. exact Hquiet. }
  assert (forall j req,
             j < S (K - 1) ->
             exists text,
               provider env (requests (inner (ai (runStart w P))) + j) req
               = Returned text) as Hans0.
  { intros j req Hj. apply Hans. lia. }
  destruct (batchLoop_units_traced env n
              (AppState.isFileSystemReady (application w))
              chaptersToGenCount P (K - 1) chaptersToGenCount 0 cs
              (runStart w P) ltac:(lia) ltac:(lia) Hab0 Hg0 Hact0 Hne0
              Hquiet0 Hans0)
    as (lc2 & w2 & Heq & Hrange & Hfs2 & Hg2 & Hch2 & Haw2 & Hab2 & Hrep2
        & Hal2 & Hask2).
  change (AppState.activeNovelId (application (runStart w P)))
    with (AppState.activeNovelId (application w)) in Heq.
  change (requests (inner (ai (runStart w P)))) with asked in Hask2.
  change (fs (runStart w P)) with (fs w) in Hfs2.
  cbn [Nat.add] in Heq, Hrep2. rewrite Nat.add_0_r in Hrange, Hfs2.
  replace (S (K - 1)) with K in * by lia.
  assert (abortBatchRef (writer w2) = true) as Hab2'.
  { rewrite Hab2, Haw0. fold a0.
    assert (kp = a0 + 3 * (K - 1) \/ kp = a0 + 3 * (K - 1) + 1
            \/ kp = a0 + 3 * (K - 1) + 2) as [<- | [<- | <-]] by lia;
      rewrite Hpressed, ?orb_true_r; reflexivity. }
  assert (exists w3,
             batchLoop env
               (App.writerPropsFor env
                  (AppState.activeNovelId (application w)) n
                  (AppState.isFileSystemReady (application w)))
               chaptersToGenCount P (chaptersToGenCount - K) K lc2 w2
             = (Returned lc2, w3)
             /\ application w3 = application w2
             /\ ai w3 = ai w2
             /\ fs w3 = fs w2
             /\ awaited (writer w3) = awaited (writer w2)
             /\ abortBatchRef (writer w3) = true
             /\ progressReports (writer w3) = progressReports (writer w2)
             /\ alerts (writer w3) = alerts (writer w2)
             /\ (K < chaptersToGenCount ->
                 last (logs (writer w3)) = Some UserStopped))
    as (w3 & Hloop & Happ3 & Hai3 & Hfs3 & Haw3 & Hab3 & Hrep3 & Hal3
        & Hlog3).
  { destruct (chaptersToGenCount - K) as [|left] eqn:Hleft.
    - exists w2. rewrite batchLoop_done. repeat split; auto. lia.
    - eexists. rewrite (batchLoop_aborted _ _ _ _ _ _ _ _ Hab2').
      split; [reflexivity|]. cbn [application writer ai fs].
      destruct (writer w2) as [act gen prog lg ab reps al aw].
      cbn [abortBatchRef] in Hab2'. subst ab.
      repeat split. intros _. cbn [addLog logs]. apply last_snoc. }
  rewrite Hloop in Heq.
  assert (P < length cs) as HP by lia.
  exists (runEnd w3), lc2.
  destruct (runEnd_facts w3) as (Happ4 & Hab4 & Hg4 & Hprog4 & Hrep4 & Hal4).
  destruct (runEnd_stopped w3 Hab3) as (Hai4 & Hfs4 & Haw4 & Hlog4).
  assert (progressReports (writer (runEnd w3))
          = progressReports (writer w)
            ++ map (fun j => Some (j, chaptersToGenCount)) (seq 0 (S K))
            ++ [None]) as Hreports.
  { rewrite Hrep4, Hrep3, Hrep2, Hrep0. rewrite <- !app_assoc.
    reflexivity. }
  split; [exact (press_run env w n lc2 w3 Hready HP Heq)|].
  split; [rewrite Happ4, Happ3; exact Hch2|].
  split; [destruct Hrange as (Hl & _); exact Hl|].
  split; [exact (writtenRange_flags cs lc2 P (P + K) Hrange)|].
  split; [destruct Hrange as (_ & _ & Hout); exact Hout|].
  split; [rewrite Hai4, Hai3; exact Hask2|].
  split; [rewrite Haw4, Haw3, Haw2, Haw0; fold a0; lia|].
  split; [rewrite Hfs4, Hfs3; exact Hfs2|].
  split; [exact Hreports|].
  split; [rewrite Hreports; apply lastReported_reports|].
  split; [exact Hprog4|]. split; [exact Hg4|]. split; [exact Hab4|].
  split; [intros HKlt; rewrite Hlog4; auto|].
  congruence.
Qed.

(** ** Storage failures and the continuation run *)

Section StorageIndependence.
Context (env : Env) (storage' : nat -> option JsError).

Let env' := withStorage env storage'.

Lemma mapUpdates_withStorage id u prev :
  forall reads,
    App.mapUpdates env' id u prev reads = App.mapUpdates env id u prev reads.
Proof.
  induction prev as [|m rest IH]; intros reads; cbn [App.mapUpdates];
    [reflexivity|].
  rewrite !IH. reflexivity.
Qed.

Lemma updateActiveNovel_withStorage aid u a :
  App.updateActiveNovel env' aid u a = App.updateActiveNovel env aid u a.
Proof.
  unfold App.updateActiveNovel. destruct aid as [id|]; [|reflexivity].
  destruct (isEmpty id); [reflexivity|].
  rewrite mapUpdates_withStorage. reflexivity.
Qed.

Lemma batchLoop_withStorage aid n ready total P :
  forall left i lc w1 w2,
    sameButFs w1 w2 ->
    fst (batchLoop env' (App.writerPropsFor env' aid n ready) total P left
           i lc w2)
    = fst (batchLoop env (App.writerPropsFor env aid n ready) total P left
             i lc w1)
    /\ sameButFs
         (snd (batchLoop env (App.writerPropsFor env aid n ready) total P
                 left i lc w1))
         (snd (batchLoop env' (App.writerPropsFor env' aid n ready) total P
                 left i lc w2)).
Proof.
  induction left as [|left IH]; intros i lc w1 w2 Hsame.
  - rewrite !batchLoop_done. split; [reflexivity|exact Hsame].
  - destruct Hsame as (Hai & Happ & Hwr & Hov).
    destruct (abortBatchRef (writer w1)) eqn:Hab1.
    + assert (abortBatchRef (writer w2) = true) as Hab2 by congruence.
      rewrite (batchLoop_aborted _ _ _ _ _ _ _ _ Hab1),
        (batchLoop_aborted _ _ _ _ _ _ _ _ Hab2).
      split; [reflexivity|]. repeat split; cbn; congruence.
    + assert (abortBatchRef (writer w2) = false) as Hab2 by congruence.
      destruct (lc !! (P + i)) as [c|] eqn:Hc.
      * rewrite (batchLoop_step env aid n ready total P left i lc w1 c
                   Hab1 Hc),
          (batchLoop_step env' aid n ready total P left i lc w2 c Hab2 Hc).
        change (generateChapterContent env') with (generateChapterContent env).
        change (whilePending env') with (whilePending env).
        rewrite <- Hai, <- Happ, <- Hwr, <- Hov.
        destruct (generateChapterContent env (Novel.config n) c
                    (getContext c lc) (Novel.outline n) (ai w1))
          as [[text|e] a'].
        -- cbn zeta. rewrite updateActiveNovel_withStorage.
           apply IH. repeat split.
        -- split; [reflexivity|]. repeat split.
      * rewrite (batchLoop_end _ _ _ _ _ _ _ _ Hab1 Hc),
          (batchLoop_end _ _ _ _ _ _ _ _ Hab2 Hc).
        split; [reflexivity|]. repeat split; cbn; congruence.
Qed.

Lemma press_withStorage w :
  fst (pressBatchGenerate env' w) = fst (pressBatchGenerate env w)
  /\ sameButFs (snd (pressBatchGenerate env w))
       (snd (pressBatchGenerate env' w)).
Proof.
  unfold pressBatchGenerate, App.writerProps.
  destruct (App.activeNovel (application w)) as [n|];
    [|split; [reflexivity|repeat split]].
  destruct (Novel.step n);
    [split; [reflexivity|repeat split]
    |split; [reflexivity|repeat split]
    |split; [reflexivity|repeat split]
    |].
  rewrite !handleBatchGenerate_eq.
  destruct (isGenerating (writer w)); [split; [reflexivity|repeat split]|].
  cbn [chapters App.writerPropsFor].
  destruct (bool_decide (length (Novel.chapters n) = 0));
    [split; [reflexivity|repeat split]|].
  cbn zeta.
  set (P := findStartIndex (activeChapterId (writer w)) (Novel.chapters n)).
  destruct (length (Novel.chapters n) <=? P);
    [split; [reflexivity|repeat split]|].
  destruct (batchLoop_withStorage
              (AppState.activeNovelId (application w)) n
              (AppState.isFileSystemReady (application w))
              chaptersToGenCount P chaptersToGenCount 0 (Novel.chapters n)
              (runStart w P) (runStart w P) ltac:(repeat split))
    as (Hfst & Hsnd).
  destruct (batchLoop env _ _ _ _ _ _ _) as [c1 w1].
  destruct (batchLoop env' _ _ _ _ _ _ _) as [c2 w2].
  cbn [fst snd] in Hfst, Hsnd. subst c2.
  destruct Hsnd as (Hai & Happ & Hwr & Hov).
  destruct c1 as [lc'|e]; (split; [reflexivity|]);
    unfold runEnd, runFailed, sameButFs;
    cbn [ai application writer outlineView]; rewrite <- Hwr;
    repeat split; assumption.
Qed.

End StorageIndependence.

(** C9.  Each of the four persistence operations returns normally for
    every behaviour of the storage, with every rejection it met written to
    the console; and a continuation run ends the same way, with the same
    in-memory state, whatever the storage does. *)
Theorem C9_persistence_isolated (env : Env) (novel : Novel.t)
  (chapter : Chapter.t) (index : nat) (s : FileSystemService.FsState) :
  (fst (FileSystemService.saveNovelConfig env novel s) = Returned tt
   /\ FileSystemService.settles env (Returned tt) s
        (snd (FileSystemService.saveNovelConfig env novel s)))
  /\ (fst (FileSystemService.saveOutline env novel s) = Returned tt
      /\ FileSystemService.settles env (Returned tt) s
           (snd (FileSystemService.saveOutline env novel s)))
  /\ (fst (FileSystemService.saveChapter env novel chapter index s)
      = Returned tt
      /\ FileSystemService.settles env (Returned tt) s
           (snd (FileSystemService.saveChapter env novel chapter index s)))
  /\ (fst (FileSystemService.saveAllChapters env novel s) = Returned tt
      /\ FileSystemService.settles env (Returned tt) s
           (snd (FileSystemService.saveAllChapters env novel s)))
  /\ (forall storage' w,
        fst (pressBatchGenerate (withStorage env storage') w)
        = fst (pressBatchGenerate env w)
        /\ sameButFs (snd (pressBatchGenerate env w))
             (snd (pressBatchGenerate (withStorage env storage') w))).
Proof.
  split; [apply isolated; [apply Total_saveNovelConfig
                          |apply Tracked_saveNovelConfig]|].
  split; [apply isolated; [apply Total_saveOutline
                          |apply Tracked_saveOutline]|].
  split; [apply isolated; [apply Total_saveChapter
                          |apply Tracked_saveChapter]|].
  split; [apply isolated; [apply Total_saveAllChapters
                          |apply Tracked_saveAllChapters]|].
  intros storage' w. apply press_withStorage.
Qed.

(** ** The planning loop *)

Lemma mapItems_cons env item items s :
  item <> JNull ->
  mapItems env (item :: items) s
  = (mapped <- mapItems env items ;;
     ret (Chapter.mk (randomUUID env (uuids s)) (textMember "title" item)
            (textMember "summary" item) [] false :: mapped))
      (mkAi (requests s) (S (uuids s)) (parseErrors s)).
Proof.
  intros Hitem. destruct item; [destruct Hitem; reflexivity| | | | |];
    reflexivity.
Qed.

Lemma mapItems_entries env items :
  Forall (fun item => item <> JNull) items ->
  forall s,
    exists cs,
      mapItems env items s
      = (Returned cs,
         mkAi (requests s) (uuids s + length items) (parseErrors s))
      /\ length cs = length items.
Proof.
  induction 1 as [|item items Hitem _ IH]; intros s.
  - exists []. cbn. rewrite Nat.add_0_r. destruct s; auto.
  - rewrite (mapItems_cons _ _ _ _ Hitem).
    destruct (IH (mkAi (requests s) (S (uuids s)) (parseErrors s)))
      as (cs & Hcs & Hlen).
    exists (Chapter.mk (randomUUID env (uuids s)) (textMember "title" item)
              (textMember "summary" item) [] false :: cs).
    unfold bind. rewrite Hcs. unfold ret.
    cbn [requests uuids parseErrors length].
    replace (uuids s + S (length items)) with (S (uuids s) + length items)
      by lia.
    split; [reflexivity|lia].
Qed.

Lemma generateChapterBatch_entries env lo hi :
  OutlineView.AnswersEntries env lo hi ->
  forall cfg o st sz prev s,
    exists batch s',
      generateChapterBatch env cfg o st sz prev s = (Returned batch, s')
      /\ lo <= length batch <= hi.
Proof.
  intros Hans cfg o st sz prev [a tl].
  destruct (Hans (requests a)
              (BatchRequest cfg (sliceFirst 1500 o) st sz (lastFive prev)))
    as (text & items & Hp & Hparse & Hitems & Hlen).
  destruct (mapItems_entries env items Hitems
              (mkAi (S (requests a)) (uuids a) (parseErrors a)))
    as (cs & Hcs & Hcslen).
  exists cs. eexists. unfold generateChapterBatch. split.
  - apply callAIWithRetry_returned.
    unfold bind, generateContent, tryCatch. rewrite Hp, Hparse, Hcs.
    reflexivity.
  - lia.
Qed.

Section Planning.
Context (env : Env) (B : Z) (config : NovelConfig.t) (localOutline : jsstring).
Context (HB : (1 <= B)%Z).
Context (Hans : OutlineView.AnswersEntries env 1 (Z.to_nat B)).

Let T := NovelConfig.targetChapterCount config.

Lemma planLoop_progress :
  forall fuel allChapters w,
    Z.to_nat (T - Z.of_nat (length allChapters)) < fuel ->
    exists allChapters' w' reports,
      OutlineView.planLoop fuel env B config localOutline allChapters w
      = Some (allChapters', Returned tt, w')
      /\ (T <= Z.of_nat (length allChapters'))%Z
      /\ (Z.of_nat (length allChapters')
          <= Z.max (Z.of_nat (length allChapters)) (T + B - 1))%Z
      /\ OutlineState.progressReports (outlineView w')
         = OutlineState.progressReports (outlineView w) ++ reports
      /\ OutlineView.strictlyIncreasing (length allChapters) reports.
Proof.
  induction fuel as [|fuel IH]; intros allChapters w Hfuel; [lia|].
  cbn [OutlineView.planLoop]. fold T.
  destruct (Z.ltb_spec (Z.of_nat (length allChapters)) T) as [Hlt|Hge].
  - unfold onAi, zoom.
    destruct (generateChapterBatch_entries env 1 (Z.to_nat B) Hans config
                localOutline (Z.of_nat (length allChapters))
                (Z.min B (T - Z.of_nat (length allChapters))) allChapters
                (ai w)) as (batch & a' & Hbatch & Hlen).
    rewrite Hbatch.
    unfold bind, onOutlineView, modify, pause, ret.
    match goal with
    | |- context [OutlineView.planLoop fuel _ _ _ _ _ ?x] => set (w1 := x)
    end.
    destruct (IH (allChapters ++ batch) w1) as
      (all' & w' & reports & Hrun & Hlow & Hhigh & Hrep & Hinc).
    { rewrite length_app. lia. }
    exists all', w'.
    exists (Some (length (allChapters ++ batch), T) :: reports).
    split; [exact Hrun|]. split; [exact Hlow|].
    split; [rewrite length_app in Hhigh; lia|].
    split.
    + rewrite Hrep. subst w1. cbn. rewrite <- app_assoc. reflexivity.
    + cbn [OutlineView.strictlyIncreasing]. split; [|exact Hinc].
      rewrite length_app. lia.
  - exists allChapters, w, []. rewrite app_nil_r.
    split; [reflexivity|]. split; [lia|]. split; [lia|].
    split; [reflexivity|exact I].
Qed.

End Planning.

(** The loop when every batch brings something.  For every batch size B
    of at least 1 and every target count T, a multiple of B or not: when
    every batch call returns at least one and at most B units, the loop ends
    after at most T batches with at least T and at most T+B-1 units (none
    when T is not positive), and the counts it reports grow strictly.  The
    same holds for the handler with its batch size of 20, which then
    returns. *)
Lemma planning_progress_when_answered (env : Env) (B : Z)
  (config : NovelConfig.t) (localOutline : jsstring) (w : World)
  (fuel : nat) :
  let T := NovelConfig.targetChapterCount config in
  (1 <= B)%Z ->
  OutlineView.AnswersEntries env 1 (Z.to_nat B) ->
  Z.to_nat T < fuel ->
  (exists allChapters w' reports,
      OutlineView.planLoop fuel env B config localOutline [] w
      = Some (allChapters, Returned tt, w')
      /\ (T <= Z.of_nat (length allChapters) <= Z.max 0 (T + B - 1))%Z
      /\ OutlineState.progressReports (outlineView w')
         = OutlineState.progressReports (outlineView w) ++ reports
      /\ OutlineView.strictlyIncreasing 0 reports)
  /\ (B = OutlineView.BATCH_SIZE ->
      forall onChaptersGenerated,
        is_Some (OutlineView.handleGenerateChapters fuel env
                   (OutlineView.mkProps localOutline config onChaptersGenerated)
                   localOutline w)).
Proof.
  intros T HB Hans Hfuel. split.
  - destruct (planLoop_progress env B config localOutline HB Hans fuel [] w)
      as (all' & w' & reports & Hrun & Hlow & Hhigh & Hrep & Hinc).
    { cbn [length]. fold T. lia. }
    exists all', w', reports. cbn [length] in Hhigh. fold T in Hlow, Hhigh.
    repeat split; auto.
  - intros -> callback. unfold OutlineView.handleGenerateChapters.
    cbn [OutlineView.config].
    match goal with
    | |- context [OutlineView.planLoop fuel env _ config localOutline [] ?x] =>
        destruct (planLoop_progress env OutlineView.BATCH_SIZE config
                    localOutline HB Hans fuel [] x)
          as (all' & w' & reports & Hrun & _)
    end.
    { cbn [length]. fold T. lia. }
    rewrite Hrun. eauto.
Qed.

(** ** The statements at sample inputs *)

Import Samples.

Lemma answering_Succeeds text stops : Succeeds (answering text stops).
Proof.
  intros cfg c ctx o s. eexists. eexists.
  apply generateChapterContent_eq. reflexivity.
Qed.

Lemma twoEntries_answers : OutlineView.AnswersEntries twoEntriesEnv 1 2.
Proof.
  intros k req. eexists. eexists.
  split; [reflexivity|]. split; [vm_compute; reflexivity|].
  split; [repeat constructor; discriminate|cbn; lia].
Qed.

Lemma fiveUnits_ready :
  WriterReady (world (novel fiveUnits WRITING) (Some [0%N]))
    (novel fiveUnits WRITING).
Proof. repeat split. discriminate. Qed.

(** The planning loop for a target of 5 and batches of 2 units. *)
Lemma planning_progress_sample :
  exists allChapters w',
    OutlineView.planLoop 6 twoEntriesEnv 2 (config 5) [] []
      (world (novel [] OUTLINE) None)
    = Some (allChapters, Returned tt, w')
    /\ (5 <= Z.of_nat (length allChapters) <= 6)%Z.
Proof.
  destruct (planning_progress_when_answered twoEntriesEnv 2 (config 5) []
              (world (novel [] OUTLINE) None) 6) as [Hloop _].
  - lia.
  - exact twoEntries_answers.
  - vm_compute. lia.
  - destruct Hloop as (allChapters & w' & reports & Hrun & Hlen & _).
    exists allChapters, w'. split; [exact Hrun|exact Hlen].
Defined.

Lemma textless_batch env cfg o st sz prev s :
  (forall k req, provider env k req = Returned None) ->
  generateChapterBatch env cfg o st sz prev s
  = (Returned [],
     mkTimed (mkAi (S (requests (inner s))) (uuids (inner s))
                (parseErrors (inner s)))
       (timeline s ++ [Invoked])).
Proof.
  intros Hsilent. destruct s as [a tl]. unfold generateChapterBatch.
  apply callAIWithRetry_returned.
  unfold bind, generateContent, tryCatch. rewrite Hsilent. reflexivity.
Qed.

Lemma planLoop_textless env cfg o :
  (forall k req, provider env k req = Returned None) ->
  (1 <= NovelConfig.targetChapterCount cfg)%Z ->
  forall fuel w,
    OutlineView.planLoop (S fuel) env OutlineView.BATCH_SIZE cfg o [] w
    = OutlineView.planLoop fuel env OutlineView.BATCH_SIZE cfg o []
        (mkWorld
           (mkTimed (mkAi (S (requests (inner (ai w)))) (uuids (inner (ai w)))
                       (parseErrors (inner (ai w))))
              (timeline (ai w) ++ [Invoked]))
           (fs w) (application w) (writer w)
           (OutlineState.setProgress
              (Some (0, NovelConfig.targetChapterCount cfg))
              (outlineView w))).
Proof.
  intros Hsilent HT fuel w. cbn [OutlineView.planLoop length].
  destruct (Z.ltb_spec (Z.of_nat 0) (NovelConfig.targetChapterCount cfg))
    as [_|Hge]; [|cbn in Hge; lia].
  unfold onAi, zoom. rewrite (textless_batch _ _ _ _ _ _ _ Hsilent).
  reflexivity.
Qed.

(** C2 at the failing input.  The provider answers every batch request
    without text and the target count is at least 1, as with the target 25
    and the batch size 20.  Each batch call then succeeds with no unit, so
    one pass of the loop makes one request, reports the count 0 and leaves
    the loop where it was, with the same condition to test: the loop does
    not end within any number of passes, and the handler, whose results
    exist only once the loop has ended, never returns. *)
Theorem C2_planning_loop_never_ends (env : Env) (config : NovelConfig.t)
  (localOutline : jsstring) :
  (forall k req, provider env k req = Returned None) ->
  (1 <= NovelConfig.targetChapterCount config)%Z ->
  (forall fuel w,
     OutlineView.planLoop (S fuel) env OutlineView.BATCH_SIZE config
       localOutline [] w
     = OutlineView.planLoop fuel env OutlineView.BATCH_SIZE config
         localOutline []
         (mkWorld
            (mkTimed (mkAi (S (requests (inner (ai w))))
                        (uuids (inner (ai w))) (parseErrors (inner (ai w))))
               (timeline (ai w) ++ [Invoked]))
            (fs w) (application w) (writer w)
            (OutlineState.setProgress
               (Some (0, NovelConfig.targetChapterCount config))
               (outlineView w))))
  /\ (forall fuel w,
        OutlineView.planLoop fuel env OutlineView.BATCH_SIZE config
          localOutline [] w
        = None)
  /\ (forall fuel onChaptersGenerated w,
        OutlineView.handleGenerateChapters fuel env
          (OutlineView.mkProps localOutline config onChaptersGenerated)
          localOutline w
        = None).
Proof.
  intros Hsilent HT.
  assert (forall fuel w,
             OutlineView.planLoop fuel env OutlineView.BATCH_SIZE config
               localOutline [] w = None) as Hnever.
  { induction fuel as [|fuel IH]; intros w; [reflexivity|].
    rewrite (planLoop_textless env config localOutline Hsilent HT).
    apply IH. }
  split; [exact (planLoop_textless env config localOutline Hsilent HT)|].
  split; [exact Hnever|].
  intros fuel callback w. unfold OutlineView.handleGenerateChapters.
  cbn [OutlineView.config]. rewrite Hnever. reflexivity.
Qed.

(** The target 25, which is not a multiple of the batch size 20, and a
    provider that answers without text: no end within a thousand passes. *)
Lemma C2_planning_loop_never_ends_witness :
  (25 mod OutlineView.BATCH_SIZE <> 0)%Z
  /\ fst (generateChapterBatch silentEnv (config 25) [] 0 20 [] freshAi)
     = Returned []
  /\ OutlineView.planLoop 1000 silentEnv OutlineView.BATCH_SIZE (config 25)
       (lit "outline") [] (world (novel [] OUTLINE) None)
     = None
  /\ pressGenerateChapters 1000 silentEnv (world (novel [] OUTLINE) None)
     = None.
Proof.
  destruct (C2_planning_loop_never_ends silentEnv (config 25) (lit "outline")
              (fun _ _ => eq_refl) ltac:(cbn; lia))
    as (_ & Hloop & Hhandler).
  split; [discriminate|]. split; [reflexivity|]. split; [apply Hloop|].
  apply (Hhandler 1000
           (App.handleChaptersGenerated silentEnv (Some [1%N])
              (Some (novel [] OUTLINE)))).
Defined.

(** Recommend-configuration for an answer with a title only. *)
Lemma C3_trend_config_unchecked_witness :
  provider titleOnlyEnv 0 TrendRequest = Returned (Some titleOnly)
  /\ fst (generateTrendConfig titleOnlyEnv freshAi)
     = Returned (JObject [(lit "title", JString (lit "x"))]).
Proof.
  split; [reflexivity|].
  exact (proj1 (C3_trend_config_unchecked titleOnlyEnv freshAi
                  (Some titleOnly) eq_refl)).
Defined.

(** C3 fails as stated: an answer without text gives the empty object, an
    answer with a title only gives an object with a title only; both are
    returned, neither has the required fields and no error is raised. *)
Lemma C3_counterexample :
  (fst (generateTrendConfig silentEnv freshAi) = Returned (JObject [])
   /\ hasRequiredFields (JObject []) = false)
  /\ (fst (generateTrendConfig titleOnlyEnv freshAi)
      = Returned (JObject [(lit "title", JString (lit "x"))])
      /\ hasRequiredFields (JObject [(lit "title", JString (lit "x"))])
         = false).
Proof. repeat split. Qed.

(** The three cases of the context window on a sequence of three units. *)
Lemma C4_context_window_witness :
  getContext (chapter 0 (letters 50)) threeUnits = firstChapterContext
  /\ getContext (chapter 1 (letters 49)) threeUnits
     = endingMarker ++ sliceLast 3000 (letters 50)
  /\ getContext (chapter 2 []) threeUnits = summaryMarker ++ lit "s".
Proof.
  assert (NoDup (Chapter.id <$> threeUnits)) as Hnd.
  { apply (bool_decide_unpack _). vm_compute. exact I. }
  split; [|split].
  - apply (proj1 (C4_context_window threeUnits 0 _ Hnd eq_refl)).
    reflexivity.
  - apply (proj1 (proj2 (C4_context_window threeUnits 1 _ Hnd eq_refl))
             (chapter 0 (letters 50))); [lia|reflexivity|].
    vm_compute. lia.
  - apply (proj1 (proj2 (C4_context_window threeUnits 2 _ Hnd eq_refl))
             (chapter 1 (letters 49))); [lia|reflexivity|].
    vm_compute. lia.
Defined.

(** C4 fails as stated: after a body of 50 units the context is not the
    end of that body alone, it starts with the ending marker. *)
Lemma C4_counterexample :
  50 <= length (Chapter.content (chapter 0 (letters 50)))
  /\ getContext (chapter 1 (letters 49)) threeUnits
     <> sliceLast 3000 (Chapter.content (chapter 0 (letters 50))).
Proof.
  split; [vm_compute; lia|]. vm_compute. discriminate.
Qed.

(** A run over five units of which the first three are written. *)
Lemma C5_continuation_frame_witness :
  exists w' cs',
    pressBatchGenerate storyEnv
      (world (novel fiveUnits WRITING) (Some [0%N]))
    = (Returned tt, w')
    /\ App.activeChapters (application w') = Some cs'
    /\ length cs' = 5
    /\ cs' !! 2 = fiveUnits !! 2
    /\ exists c',
         cs' !! 3 = Some c'
         /\ Chapter.isGenerated c' = true
         /\ Chapter.content c' <> [].
Proof.
  destruct (C5_continuation_frame storyEnv
              (world (novel fiveUnits WRITING) (Some [0%N]))
              (novel fiveUnits WRITING) fiveUnits_ready)
    as (w' & cs' & Hrun & Hch & Hlen & Hin & Hout).
  - vm_compute. lia.
  - apply answering_Succeeds.
  - reflexivity.
  - exists w', cs'. split; [exact Hrun|]. split; [exact Hch|].
    split; [exact Hlen|]. split.
    + apply Hout. vm_compute. lia.
    + destruct (Hin 3) as (c & c' & _ & Hc' & Hflag & Hbody & _).
      { vm_compute. lia. }
      exists c'. auto.
Defined.

(** The same run with the stop button pressed while the first unit is
    saved: the unit is generated, saved and paused after, and nothing else
    is started. *)
Lemma C6_cancel_after_unit_witness :
  exists w' cs' c',
    pressBatchGenerate stoppingEnv
      (world (novel fiveUnits WRITING) (Some [0%N]))
    = (Returned tt, w')
    /\ App.activeChapters (application w') = Some cs'
    /\ cs' !! 3 = Some c'
    /\ Chapter.isGenerated c' = true
    /\ Chapter.content c' <> []
    /\ cs' !! 4 = fiveUnits !! 4
    /\ requests (inner (ai w')) = 1
    /\ awaited (writer w') = 3
    /\ fs w'
       = snd (FileSystemService.saveChapter stoppingEnv
                (novel fiveUnits WRITING) c' 3
                (fs (world (novel fiveUnits WRITING) (Some [0%N]))))
    /\ lastReported (progressReports (writer w')) = Some 1
    /\ batchProgress (writer w') = None
    /\ last (logs (writer w')) = Some UserStopped.
Proof.
  destruct (C6_cancel_after_unit stoppingEnv
              (world (novel fiveUnits WRITING) (Some [0%N]))
              (novel fiveUnits WRITING) 1 fiveUnits_ready)
    as (w' & cs' & Hrun & Hch & _ & Hin & Hout & Hask & Haw & Hfs & _
        & Hlast & Hprog & _ & _ & Hlog & _).
  - unfold chaptersToGenCount. lia.
  - vm_compute. lia.
  - intros j req _. exists (Some story). reflexivity.
  - intros k Hk. cbn in Hk. lia.
  - exists 1. split; [vm_compute; lia|reflexivity].
  - destruct (Hin 3) as (c & c' & _ & Hc' & Hflag & Hbody & _);
      [vm_compute; lia|].
    exists w', cs', c'. split; [exact Hrun|]. split; [exact Hch|].
    split; [exact Hc'|]. split; [exact Hflag|]. split; [exact Hbody|].
    split; [apply Hout; vm_compute; lia|].
    split; [exact Hask|]. split; [exact Haw|]. split.
    { rewrite Hfs.
      change (findStartIndex _ _) with 3. cbn [savedUnits].
      rewrite Hc'. reflexivity. }
    split; [exact Hlast|].
    split; [exact Hprog|]. apply Hlog. unfold chaptersToGenCount. lia.
Defined.

(** C6 fails as stated: the stop button is pressed after the first unit of
    a run is complete, while the second is generated, and the provider
    refuses that request.  The run ends inside the second unit: one unit is
    written, the unit in flight is left as it was, and the last progress the
    run showed is 2, the number of the unit it had started, not of the
    units it completed.
    When the run has ended no progress is shown; the log has the line of
    the stop button and, last, the line of the error. *)
Lemma C6_counterexample :
  stopPressed Cases.refusedWhileStopping 3 = true
  /\ (forall k, k <> 3 -> stopPressed Cases.refusedWhileStopping k = false)
  /\ exists w',
       pressBatchGenerate Cases.refusedWhileStopping
         (world (novel fiveUnits WRITING) (Some [0%N]))
       = (Returned tt, w')
       /\ App.activeChapters (application w')
          = Some [chapter 0 (letters 600); chapter 1 (letters 600);
                  chapter 2 (letters 600);
                  Chapter.mk [3%N] (lit "t") (lit "s") story true;
                  chapter 4 []]
       /\ lastReported (progressReports (writer w')) = Some 2
       /\ progressReports (writer w')
          = [Some (0, 10); Some (1, 10); Some (2, 10); None]
       /\ batchProgress (writer w') = None
       /\ logs (writer w')
          = [Writing 1 10; ChapterSaved; Writing 2 10; Stopping; BatchError]
       /\ alerts (writer w') = [BatchInterrupted].
Proof.
  split; [reflexivity|]. split.
  { intros k Hk. cbn. apply bool_decide_eq_false_2. exact Hk. }
  eexists. split; [vm_compute; reflexivity|].
  repeat split.
Qed.



(** Generate-unit-content for a provider that answers without text. *)
Lemma C8_empty_output_placeholder_witness :
  fst (generateChapterContent silentEnv (config 25) (chapter 0 []) [] []
         freshAi)
  = Returned emptyContentText
  /\ emptyContentText <> [].
Proof.
  destruct (C8_empty_output_placeholder silentEnv (config 25) (chapter 0 [])
              [] [] freshAi None eq_refl (or_introl eq_refl))
    as (Hrun & Hne & _).
  split; [rewrite Hrun; reflexivity|exact Hne].
Defined.

(** C8 fails as stated: the call returns the same for a provider that
    answers without text and for one that answers with a text, so the
    caller cannot tell the empty result from a success with text. *)
Lemma C8_counterexample :
  provider silentEnv 0
    (ContentRequest (config 25) (lit "t") (lit "s") [] []) = Returned None
  /\ provider echoEnv 0
       (ContentRequest (config 25) (lit "t") (lit "s") [] [])
     = Returned (Some emptyContentText)
  /\ emptyContentText <> []
  /\ generateChapterContent silentEnv (config 25) (chapter 0 []) [] []
       freshAi
     = generateChapterContent echoEnv (config 25) (chapter 0 []) [] []
         freshAi.
Proof.
  split; [reflexivity|]. split; [reflexivity|]. split; [discriminate|].
  reflexivity.
Qed.

(* ================================================================== *)
(** * Further properties *)
(* ================================================================== *)

Import Reading.

(** ** The retry wrapper over any operation *)

Lemma delays_app (a b : list Step) : delays (a ++ b) = delays a ++ delays b.
Proof.
  induction a as [|st a IH]; [reflexivity|].
  destruct st; cbn; rewrite ?IH; reflexivity.
Qed.

Lemma backoff_shift (baseDelay : Z) (k : nat) :
  baseDelay :: map (fun i => (baseDelay * 2 * 2 ^ Z.of_nat i)%Z) (seq 0 k)
  = map (fun i => (baseDelay * 2 ^ Z.of_nat i)%Z) (seq 0 (S k)).
Proof.
  cbn [seq map]. f_equal.
  - cbn. lia.
  - rewrite <- seq_shift, map_map. apply map_ext. intros i.
    rewrite Nat2Z.inj_succ, Z.pow_succ_r by lia. lia.
Qed.

(** The wrapper stopped after a single invocation. *)
Ltac one_invocation :=
  exists [Invoked]; change (invocations [Invoked]) with 1;
  cbn [delays Nat.sub seq map timeline snd fst];
  split; [reflexivity|]; split; [lia|]; split; [reflexivity|].

(** X1. For every operation, retry budget, base delay and state, one call
    of the retry wrapper invokes the operation at least once and at most
    budget + 1 times, waits between consecutive invocations only, the i-th
    wait being [baseDelay * 2^i], and throws only an error that is not
    transient or after the whole budget is spent. *)
Theorem callAIWithRetry_bounded (St T : Type) (operation : M St T) :
  forall retries baseDelay t,
    exists steps,
      timeline (snd (callAIWithRetry operation retries baseDelay t))
      = timeline t ++ steps
      /\ 1 <= invocations steps <= S retries
      /\ delays steps
         = map (fun i => (baseDelay * 2 ^ Z.of_nat i)%Z)
             (seq 0 (invocations steps - 1))
      /\ (forall e,
            fst (callAIWithRetry operation retries baseDelay t) = Thrown e ->
            isTransient e = false \/ invocations steps = S retries).
Proof.
  induction retries as [|retries IH]; intros baseDelay [s tl];
    destruct (operation s) as [[v|e] s'] eqn:Hop.
  - rewrite (callAIWithRetry_returned _ _ _ _ _ _ _ Hop).
    one_invocation. intros e [=].
  - rewrite (callAIWithRetry_exhausted _ _ _ _ _ _ Hop).
    one_invocation. intros; right; reflexivity.
  - rewrite (callAIWithRetry_returned _ _ _ _ _ _ _ Hop).
    one_invocation. intros e [=].
  - destruct (isTransient e) eqn:Htr.
    + rewrite (callAIWithRetry_transient _ _ _ _ _ _ _ Hop Htr).
      destruct (IH (baseDelay * 2)%Z
                  (mkTimed s' (tl ++ [Invoked; Warned (S retries);
                                      Delayed baseDelay])))
        as (steps & Htl & Hinv & Hdel & Hthrown).
      exists ([Invoked; Warned (S retries); Delayed baseDelay] ++ steps).
      rewrite Htl. cbn [timeline]. rewrite <- app_assoc.
      rewrite invocations_app.
      change (invocations [Invoked; Warned (S retries); Delayed baseDelay])
        with 1.
      split; [reflexivity|]. split; [lia|]. split.
      * change (delays ([Invoked; Warned (S retries); Delayed baseDelay]
                        ++ steps)) with (baseDelay :: delays steps).
        rewrite Hdel.
        replace (1 + invocations steps - 1)
          with (S (invocations steps - 1)) by lia.
        apply backoff_shift.
      * intros e' He'. destruct (Hthrown e' He') as [?|Hall]; [left; auto|].
        right. lia.
    + rewrite (callAIWithRetry_fatal _ _ _ _ _ _ _ Hop Htr).
      one_invocation. intros e' [= <-]. left. exact Htr.
Qed.

(** ** Code fences around a JSON answer *)

Lemma forallb_rev {A} (f : A -> bool) (l : list A) :
  forallb f (rev l) = forallb f l.
Proof.
  induction l as [|x l IH]; [reflexivity|].
  cbn [rev]. rewrite forallb_app, IH. cbn. rewrite andb_true_r.
  apply andb_comm.
Qed.

Lemma trimStart_app_ws ws s :
  forallb isWhiteSpace ws = true -> trimStart (ws ++ s) = trimStart s.
Proof.
  induction ws as [|c ws IH]; [reflexivity|]. cbn.
  intros [Hc Hws]%andb_true_iff. rewrite Hc. auto.
Qed.

Lemma trimStart_head s c :
  head s = Some c -> isWhiteSpace c = false -> trimStart s = s.
Proof. destruct s; intros [= ->] Hc; cbn. rewrite Hc. reflexivity. Qed.

Lemma trimEnd_app_ws ws s :
  forallb isWhiteSpace ws = true -> trimEnd (s ++ ws) = trimEnd s.
Proof.
  intros Hws. unfold trimEnd. rewrite rev_app_distr, trimStart_app_ws; auto.
  rewrite forallb_rev. exact Hws.
Qed.

Lemma trimEnd_last s c :
  last s = Some c -> isWhiteSpace c = false -> trimEnd s = s.
Proof.
  intros (l & ->)%last_Some Hc. unfold trimEnd.
  rewrite rev_app_distr. cbn. rewrite Hc.
  change (c :: rev l) with (rev [c] ++ rev l).
  rewrite <- rev_app_distr. apply rev_involutive.
Qed.

Lemma trim_padded lead s tail a b :
  forallb isWhiteSpace lead = true ->
  forallb isWhiteSpace tail = true ->
  head s = Some a -> isWhiteSpace a = false ->
  last s = Some b -> isWhiteSpace b = false ->
  trim (lead ++ s ++ tail) = s.
Proof.
  intros Hlead Htail Ha Hwa Hb Hwb. unfold trim.
  rewrite (trimStart_app_ws _ _ Hlead).
  rewrite (trimStart_head (s ++ tail) a).
  - rewrite (trimEnd_app_ws _ _ Htail). exact (trimEnd_last _ _ Hb Hwb).
  - destruct s; [discriminate|exact Ha].
  - exact Hwa.
Qed.

Lemma lowerAscii_backtick c : c <> 96%N -> lowerAscii c <> 96%N.
Proof.
  unfold lowerAscii. intros Hc.
  destruct ((65 <=? c) && (c <=? 90))%N eqn:Hup; [|exact Hc].
  apply andb_true_iff in Hup as [H1%N.leb_le H2%N.leb_le]. lia.
Qed.

Lemma dropJsonFence_tagged tag rest :
  map lowerAscii tag = lit "json" ->
  dropJsonFence (lit "```" ++ tag ++ rest) = trimStart rest.
Proof.
  intros Htag.
  assert (length tag = 4) as Hlen
    by (rewrite <- (length_map lowerAscii), Htag; reflexivity).
  destruct tag as [|t1 [|t2 [|t3 [|t4 [|]]]]]; try discriminate Hlen.
  unfold dropJsonFence.
  change (take 7 (lit "```" ++ [t1; t2; t3; t4] ++ rest))
    with (lit "```" ++ [t1; t2; t3; t4]).
  change (drop 7 (lit "```" ++ [t1; t2; t3; t4] ++ rest)) with rest.
  rewrite map_app, Htag. reflexivity.
Qed.

Lemma dropJsonFence_plain s a :
  head s = Some a -> a <> 96%N -> dropJsonFence s = s.
Proof.
  destruct s as [|c s]; intros [= ->] Ha. unfold dropJsonFence.
  change (map lowerAscii (take 7 (a :: s)))
    with (lowerAscii a :: map lowerAscii (take 6 s)).
  change (lit "```json") with (96%N :: lit "``json").
  cbn [startsWith].
  destruct (N.eqb_spec 96 (lowerAscii a)) as [Heq|_]; [|reflexivity].
  destruct (lowerAscii_backtick a Ha). auto.
Qed.

Lemma dropFence_plain s a :
  head s = Some a -> a <> 96%N -> dropFence s = s.
Proof.
  destruct s as [|c s]; intros [= ->] Ha. unfold dropFence.
  change (lit "```") with (96%N :: lit "``"). cbn [startsWith].
  destruct (N.eqb_spec 96 a) as [Heq|_]; [|reflexivity]. destruct Ha. auto.
Qed.

Lemma dropClosingFence_plain s b :
  last s = Some b -> b <> 96%N -> dropClosingFence s = s.
Proof.
  intros (l & ->)%last_Some Hb. unfold dropClosingFence, endsWith.
  rewrite rev_app_distr. change (rev (lit "```")) with (96%N :: lit "``").
  cbn [rev app startsWith].
  destruct (N.eqb_spec 96 b) as [Heq|_]; [|reflexivity]. destruct Hb. auto.
Qed.

Lemma dropClosingFence_closed s :
  dropClosingFence (s ++ lit "```") = trimEnd s.
Proof.
  unfold dropClosingFence, endsWith. rewrite rev_app_distr.
  change (rev (lit "```")) with (lit "```").
  change (startsWith (lit "```") (lit "```" ++ rev s)) with true.
  cbn match. rewrite length_app. change (length (lit "```")) with 3.
  rewrite Nat.add_sub, take_app_length. reflexivity.
Qed.

Lemma isPayload_ends p :
  isPayload p = true ->
  exists a b,
    head p = Some a /\ last p = Some b
    /\ isWhiteSpace a = false /\ a <> 96%N
    /\ isWhiteSpace b = false /\ b <> 96%N.
Proof.
  unfold isPayload. destruct (head p) as [a|]; [|discriminate].
  destruct (last p) as [b|]; [|discriminate].
  intros H. exists a, b.
  apply andb_true_iff in H as [H Hb2]. apply andb_true_iff in H as [H Hb1].
  apply andb_true_iff in H as [Ha1 Ha2].
  apply negb_true_iff in Ha1, Ha2, Hb1, Hb2.
  apply N.eqb_neq in Ha2, Hb2. auto 10.
Qed.

(** X2. Cleaning recovers the payload: for a text whose first and last
    units are neither white space nor a backtick, surrounded by any white
    space, [cleanJson] returns the text itself, whether it stands alone, in
    a fence tagged json in any letter case, or in an untagged fence followed
    by white space. *)
Theorem cleanJson_payload lead tag ws1 payload ws2 tail :
  forallb isWhiteSpace (lead ++ ws1 ++ ws2 ++ tail) = true ->
  map lowerAscii tag = lit "json" ->
  isPayload payload = true ->
  cleanJson (lead ++ payload ++ tail) = payload
  /\ cleanJson (lead ++ (lit "```" ++ tag ++ ws1 ++ payload ++ ws2
                         ++ lit "```") ++ tail)
     = payload
  /\ (ws1 <> [] ->
      cleanJson (lead ++ (lit "```" ++ ws1 ++ payload ++ ws2 ++ lit "```")
                 ++ tail)
      = payload).
Proof.
  intros Hws Htag Hp.
  rewrite !forallb_app in Hws.
  apply andb_true_iff in Hws as [Hlead Hws].
  apply andb_true_iff in Hws as [Hws1 Hws].
  apply andb_true_iff in Hws as [Hws2 Htail].
  destruct (isPayload_ends _ Hp) as (a & b & Ha & Hb & Hwa & Ha96 & Hwb & Hb96).
  assert (forall s, last (s ++ lit "```") = Some 96%N) as Hlast.
  { intros s. change (lit "```") with ([96; 96]%N ++ [96%N]).
    rewrite app_assoc. apply last_snoc. }
  assert (forall x, head x = Some a -> isEmpty (lead ++ x ++ tail) = false)
    as Hne.
  { intros [|c x]; [discriminate|]. intros _. destruct lead; reflexivity. }
  assert (head (payload ++ ws2 ++ lit "```") = Some a) as Hhead.
  { destruct payload; [discriminate|exact Ha]. }
  assert (trim payload = payload) as Htrim.
  { pose proof (trim_padded [] payload [] a b eq_refl eq_refl Ha Hwa Hb Hwb)
      as H.
    cbn [app] in H. rewrite app_nil_r in H. exact H. }
  split; [|split].
  - unfold cleanJson. rewrite (Hne payload Ha).
    rewrite (trim_padded lead payload tail a b); auto.
    rewrite (dropJsonFence_plain _ _ Ha Ha96), (dropFence_plain _ _ Ha Ha96),
      (dropClosingFence_plain _ _ Hb Hb96).
    exact Htrim.
  - unfold cleanJson.
    assert (isEmpty (lead ++ (lit "```" ++ tag ++ ws1 ++ payload ++ ws2
                              ++ lit "```") ++ tail) = false) as ->
      by (destruct lead; reflexivity).
    rewrite (trim_padded lead _ tail 96%N 96%N); auto.
    2:{ rewrite !app_assoc. apply Hlast. }
    rewrite (dropJsonFence_tagged _ _ Htag).
    rewrite (trimStart_app_ws _ _ Hws1), (trimStart_head _ _ Hhead Hwa).
    rewrite (dropFence_plain _ _ Hhead Ha96).
    rewrite !app_assoc, dropClosingFence_closed.
    rewrite (trimEnd_app_ws _ _ Hws2), (trimEnd_last _ _ Hb Hwb).
    exact Htrim.
  - intros Hsome. unfold cleanJson.
    assert (isEmpty (lead ++ (lit "```" ++ ws1 ++ payload ++ ws2
                              ++ lit "```") ++ tail) = false) as ->
      by (destruct lead; reflexivity).
    rewrite (trim_padded lead _ tail 96%N 96%N); auto.
    2:{ rewrite !app_assoc. apply Hlast. }
    assert (dropJsonFence (lit "```" ++ ws1 ++ payload ++ ws2 ++ lit "```")
            = lit "```" ++ ws1 ++ payload ++ ws2 ++ lit "```") as ->.
    { destruct ws1 as [|w ws1]; [destruct Hsome; reflexivity|].
      cbn in Hws1. apply andb_true_iff in Hws1 as [Hw _].
      unfold dropJsonFence.
      change (map lowerAscii
                (take 7 (lit "```" ++ (w :: ws1) ++ payload ++ ws2
                         ++ lit "```")))
        with (lit "```" ++ lowerAscii w
                :: map lowerAscii (take 3 (ws1 ++ payload ++ ws2
                                           ++ lit "```"))).
      assert (forall x rest,
                 startsWith (lit "```json") (lit "```" ++ x :: rest)
                 = N.eqb 106 x && startsWith (lit "son") rest) as ->
        by reflexivity.
      destruct (N.eqb_spec 106 (lowerAscii w)) as [Heq|_]; [|reflexivity].
      exfalso. unfold lowerAscii in Heq.
      destruct ((65 <=? w) && (w <=? 90))%N eqn:Hup.
      - assert (w = 74%N) as -> by lia. discriminate Hw.
      - subst w. discriminate Hw. }
    unfold dropFence.
    change (startsWith (lit "```")
              (lit "```" ++ ws1 ++ payload ++ ws2 ++ lit "```")) with true.
    cbn match.
    change (drop 3 (lit "```" ++ ws1 ++ payload ++ ws2 ++ lit "```"))
      with (ws1 ++ payload ++ ws2 ++ lit "```").
    rewrite (trimStart_app_ws _ _ Hws1), (trimStart_head _ _ Hhead Hwa).
    rewrite !app_assoc, dropClosingFence_closed.
    rewrite (trimEnd_app_ws _ _ Hws2), (trimEnd_last _ _ Hb Hwb).
    exact Htrim.
Qed.

(** An object in a fence tagged JSON, with line feeds around it. *)
Lemma cleanJson_payload_witness :
  cleanJson (lit " " ++ (lit "```" ++ lit "JSON" ++ [10%N] ++ titleOnly
                         ++ [10%N] ++ lit "```") ++ [10%N])
  = titleOnly.
Proof.
  exact (proj1 (proj2 (cleanJson_payload (lit " ") (lit "JSON") [10%N]
                         titleOnly [10%N] [10%N] eq_refl eq_refl eq_refl))).
Defined.

(** ** What a planning batch is made of *)

Lemma JNull_dec (item : JSON) : {item = JNull} + {item <> JNull}.
Proof. destruct item; (left; reflexivity) || (right; discriminate). Qed.

Lemma null_cases (items : list JSON) :
  Forall (fun item => item <> JNull) items
  \/ Exists (fun item => item = JNull) items.
Proof.
  induction items as [|item items [IH|IH]]; [left; constructor| |].
  - destruct (JNull_dec item) as [->|Hitem].
    + right. left. reflexivity.
    + left. constructor; assumption.
  - right. right. exact IH.
Qed.

Lemma mapItems_chapters env items :
  Forall (fun item => item <> JNull) items ->
  forall s,
    exists cs,
      mapItems env items s
      = (Returned cs,
         mkAi (requests s) (uuids s + length items) (parseErrors s))
      /\ map Chapter.id cs
         = map (randomUUID env) (seq (uuids s) (length items))
      /\ map Chapter.title cs = map (textMember "title") items
      /\ map Chapter.summary cs = map (textMember "summary") items
      /\ Forall (fun c => Chapter.content c = []
                          /\ Chapter.isGenerated c = false) cs.
Proof.
  induction 1 as [|item items Hitem _ IH]; intros s.
  - exists []. cbn. rewrite Nat.add_0_r. destruct s; auto.
  - rewrite (mapItems_cons _ _ _ _ Hitem).
    destruct (IH (mkAi (requests s) (S (uuids s)) (parseErrors s)))
      as (cs & Hcs & Hids & Htitles & Hsums & Hblank).
    exists (Chapter.mk (randomUUID env (uuids s)) (textMember "title" item)
              (textMember "summary" item) [] false :: cs).
    unfold bind. rewrite Hcs. unfold ret.
    cbn [requests uuids parseErrors length] in *.
    replace (uuids s + S (length items)) with (S (uuids s) + length items)
      by lia.
    split; [reflexivity|]. cbn [map seq Chapter.id Chapter.title
                                   Chapter.summary].
    rewrite Hids, Htitles, Hsums. repeat split; auto.
Qed.

Lemma mapItems_null env items :
  Exists (fun item => item = JNull) items ->
  forall s,
    exists e s',
      mapItems env items s = (Thrown e, s')
      /\ requests s' = requests s
      /\ parseErrors s' = parseErrors s.
Proof.
  induction items as [|item items IH]; intros Hex s.
  - inversion Hex.
  - destruct (JNull_dec item) as [->|Hitem].
    + exists nullReadError. eexists. cbn. unfold bind, cryptoRandomUUID, throw.
      split; [reflexivity|]. split; reflexivity.
    + rewrite (mapItems_cons _ _ _ _ Hitem).
      assert (Exists (fun item => item = JNull) items) as Hrest
        by (inversion Hex; [contradiction|assumption]).
      destruct (IH Hrest (mkAi (requests s) (S (uuids s)) (parseErrors s)))
        as (e & s' & Hrun & Hreq & Herr).
      exists e, s'. unfold bind. rewrite Hrun. auto.
Qed.

(** X3. A planning batch never fails on what the provider answered: for
    every answer the call returns after one invocation.  An answer that
    parses to a list without [null] gives one chapter per entry, in order,
    with fresh identities, no body and the generated flag off; the chapter
    of an entry whose title, or summary, is a string has that string as its
    title, or summary.  Nothing is said of the title or summary stored for
    an entry whose member is missing or is not a string.  An answer that
    does not parse, or a list with a [null] entry, gives the empty batch and
    one line on the console; any other JSON value gives the empty batch
    silently. *)
Theorem generateChapterBatch_answer env cfg o st sz prev s text :
  provider env (requests (inner s))
    (BatchRequest cfg (sliceFirst 1500 o) st sz (lastFive prev))
  = Returned text ->
  exists batch s',
    generateChapterBatch env cfg o st sz prev s = (Returned batch, s')
    /\ timeline s' = timeline s ++ [Invoked]
    /\ requests (inner s') = S (requests (inner s))
    /\ Forall (fun c => Chapter.content c = []
                        /\ Chapter.isGenerated c = false) batch
    /\ ((exists items,
           parse (cleanJson (textOr text (lit "[]"))) = Some (JArray items)
           /\ Forall (fun item => item <> JNull) items
           /\ length batch = length items
           /\ map Chapter.id batch
              = map (randomUUID env)
                  (seq (uuids (inner s)) (length items))
           /\ (forall i item c,
                 items !! i = Some item ->
                 batch !! i = Some c ->
                 (forall str,
                    member (lit "title") item = Some (JString str) ->
                    Chapter.title c = str)
                 /\ (forall str,
                       member (lit "summary") item = Some (JString str) ->
                       Chapter.summary c = str))
           /\ parseErrors (inner s') = parseErrors (inner s))
        \/ (batch = []
            /\ (parse (cleanJson (textOr text (lit "[]"))) = None
                \/ exists items,
                     parse (cleanJson (textOr text (lit "[]")))
                     = Some (JArray items)
                     /\ Exists (fun item => item = JNull) items)
            /\ parseErrors (inner s') = S (parseErrors (inner s)))
        \/ (batch = []
            /\ (exists v,
                  parse (cleanJson (textOr text (lit "[]"))) = Some v
                  /\ forall items, v <> JArray items)
            /\ parseErrors (inner s') = parseErrors (inner s))).
Proof.
  intros Hp. destruct s as [a tl]. cbn [inner timeline] in *.
  unfold generateChapterBatch.
  destruct (parse (cleanJson (textOr text (lit "[]")))) as [v|] eqn:Hparse.
  - assert ((exists items, v = JArray items)
            \/ forall items, v <> JArray items) as [[items ->]|Hother]
      by (destruct v; eauto; right; discriminate).
    + destruct (null_cases items) as [Hall|Hnull'].
      * destruct (mapItems_chapters env items Hall
                    (mkAi (S (requests a)) (uuids a) (parseErrors a)))
          as (cs & Hcs & Hids & Htitles & Hsums & Hblank).
        exists cs. eexists. split.
        { apply callAIWithRetry_returned.
          unfold bind, generateContent, tryCatch. rewrite Hp, Hparse, Hcs.
          reflexivity. }
        cbn [inner timeline requests parseErrors uuids] in *.
        repeat (split; [auto; fail|]). left. exists items.
        split; [reflexivity|]. split; [exact Hall|].
        split.
        { rewrite <- (length_map Chapter.id cs), Hids, length_map, length_seq.
          reflexivity. }
        split; [exact Hids|]. split; [|reflexivity].
        intros i item c Hitem Hc.
        assert (Chapter.title c = textMember "title" item
                /\ Chapter.summary c = textMember "summary" item)
          as (Htitle & Hsum).
        { split.
          - assert (map Chapter.title cs !! i
                    = map (textMember "title") items !! i) as Heq
              by (rewrite Htitles; reflexivity).
            change (map ?f ?l) with (f <$> l) in Heq.
            rewrite !list_lookup_fmap, Hitem, Hc in Heq. cbn in Heq.
            congruence.
          - assert (map Chapter.summary cs !! i
                    = map (textMember "summary") items !! i) as Heq
              by (rewrite Hsums; reflexivity).
            change (map ?f ?l) with (f <$> l) in Heq.
            rewrite !list_lookup_fmap, Hitem, Hc in Heq. cbn in Heq.
            congruence. }
        split; intros str Hstr.
        -- rewrite Htitle. unfold textMember.
           change (lit "title") with (lit "title") in Hstr.
           rewrite Hstr. reflexivity.
        -- rewrite Hsum. unfold textMember. rewrite Hstr. reflexivity.
      * destruct (mapItems_null env items Hnull'
                    (mkAi (S (requests a)) (uuids a) (parseErrors a)))
          as (e & s' & Hrun & Hreq & Herr).
        exists []. eexists. split.
        { apply callAIWithRetry_returned.
          unfold bind, generateContent, tryCatch. rewrite Hp, Hparse, Hrun.
          unfold consoleError, modify, ret. reflexivity. }
        cbn [inner timeline requests parseErrors uuids] in *.
        rewrite Hreq, Herr. cbn [requests parseErrors].
        repeat (split; [auto; fail|]). right. left. eauto 10.
    + exists []. eexists. split.
      { apply callAIWithRetry_returned.
        unfold bind, generateContent, tryCatch. rewrite Hp, Hparse.
        destruct v; try reflexivity. destruct (Hother items). reflexivity. }
      cbn [inner timeline requests parseErrors uuids].
      repeat (split; [auto; fail|]). right. right. eauto 10.
  - exists []. eexists. split.
    { apply callAIWithRetry_returned.
      unfold bind, generateContent, tryCatch. rewrite Hp, Hparse.
      unfold throw, consoleError, modify, ret. reflexivity. }
    cbn [inner timeline requests parseErrors uuids].
    repeat (split; [auto; fail|]). right. left. auto 10.
Qed.

(** A list of two entries with string members gives two chapters with
    those titles. *)
Lemma generateChapterBatch_answer_witness :
  exists batch s' c0 c1,
    generateChapterBatch twoEntriesEnv (config 25) [] 0 20 [] freshAi
    = (Returned batch, s')
    /\ batch !! 0 = Some c0 /\ batch !! 1 = Some c1
    /\ Chapter.title c0 = lit "a" /\ Chapter.title c1 = lit "c"
    /\ map Chapter.id batch = [lit "0"; lit "1"].
Proof.
  destruct (generateChapterBatch_answer twoEntriesEnv (config 25) [] 0 20 []
              freshAi (Some twoEntries) eq_refl)
    as (batch & s' & Hrun & _ & _ & _ & Hcases).
  destruct Hcases as [(items & Hparse & _ & Hlen & Hids & Htexts & _)
                     |[(_ & [Hparse|(items & Hparse & Hnull)] & _)
                      |(_ & (v & Hparse & Hv) & _)]].
  - vm_compute in Hparse. injection Hparse as <-.
    destruct batch as [|c0 [|c1 [|c2 rest]]]; try discriminate Hlen.
    exists [c0; c1], s', c0, c1. split; [exact Hrun|].
    split; [reflexivity|]. split; [reflexivity|].
    destruct (Htexts 0 _ c0 eq_refl eq_refl) as (Ht0 & _).
    destruct (Htexts 1 _ c1 eq_refl eq_refl) as (Ht1 & _).
    split; [apply Ht0; reflexivity|]. split; [apply Ht1; reflexivity|].
    exact Hids.
  - vm_compute in Hparse. discriminate Hparse.
  - vm_compute in Hparse. injection Hparse as <-.
    apply Exists_exists in Hnull as (item & Hin & ->).
    exfalso. rewrite !elem_of_cons, elem_of_nil in Hin.
    intuition discriminate.
  - vm_compute in Hparse. injection Hparse as <-. destruct (Hv _ eq_refl).
Defined.

(** ** The context window without assumptions on the identities *)

Lemma findIndex_insert (target : option Id) (cs : list Chapter.t) :
  forall j x y,
    cs !! j = Some y ->
    Chapter.id x = Chapter.id y ->
    findIndex target (<[j := x]> cs) = findIndex target cs.
Proof.
  unfold findIndex.
  induction cs as [|c cs IH]; intros j x y Hj Hid; [discriminate|].
  destruct j as [|j].
  - injection Hj as ->. cbn. rewrite Hid.
    destruct (decide (Some (Chapter.id y) = target)); reflexivity.
  - cbn. destruct (decide (Some (Chapter.id c) = target)); [reflexivity|].
    specialize (IH j x y Hj Hid).
    destruct (list_find _ (<[j := x]> cs)) as [[? ?]|];
      destruct (list_find _ cs) as [[? ?]|]; cbn in *; congruence.
Qed.

Lemma lengths_of_markers :
  length firstChapterContext = 13 /\ length endingMarker = 13.
Proof. split; reflexivity. Qed.

(** X4. For every unit and every sequence, with identities repeated or
    not: the context is at most 3013 code units long, unless it is the
    synopsis of a unit of the sequence whose body is shorter than 50; and
    replacing any unit other than the one before the target by a unit of the
    same identity leaves the context as it was. *)
Theorem getContext_frame (c : Chapter.t) (cs : list Chapter.t) :
  (length (getContext c cs) <= 3013
   \/ exists prev,
        prev ∈ cs
        /\ length (Chapter.content prev) < 50
        /\ getContext c cs = summaryMarker ++ Chapter.summary prev)
  /\ (forall j x y,
        cs !! j = Some y ->
        Chapter.id x = Chapter.id y ->
        findIndex (Some (Chapter.id c)) cs <> Some (S j) ->
        getContext c (<[j := x]> cs) = getContext c cs).
Proof.
  split.
  - unfold getContext.
    destruct (findIndex (Some (Chapter.id c)) cs) as [[|before]|];
      [left; cbn; lia| |left; cbn; lia].
    destruct (cs !! before) as [prev|] eqn:Hprev; [|left; cbn; lia].
    destruct (isEmpty (Chapter.content prev)
              || (length (Chapter.content prev) <? 50)) eqn:Hshort.
    + right. exists prev. split; [eapply list_elem_of_lookup_2; eauto|].
      split; [|reflexivity].
      apply orb_true_iff in Hshort as [Hempty|Hlt%Nat.ltb_lt]; [|exact Hlt].
      destruct (Chapter.content prev); [cbn; lia|discriminate].
    + left. rewrite length_app.
      destruct (sliceLast_suffix 3000 (Chapter.content prev)) as (_ & _ & ->).
      change (length endingMarker) with 13. lia.
  - intros j x y Hj Hid Hnot. unfold getContext.
    rewrite (findIndex_insert _ _ _ _ _ Hj Hid).
    destruct (findIndex (Some (Chapter.id c)) cs) as [[|before]|];
      [reflexivity| |reflexivity].
    rewrite list_lookup_insert_ne by congruence. reflexivity.
Qed.

(** ** A continuation run that has nothing to do *)

Lemma findStartIndex_all_written (active : option Id) (cs : list Chapter.t) :
  (forall j c,
     default 0 (findIndex active cs) <= j -> cs !! j = Some c ->
     500 < length (Chapter.content c)) ->
  length cs <= findStartIndex active cs.
Proof.
  intros Hall.
  destruct (findStartIndex_spec active cs) as (Hcur & _ & Hstop).
  destruct (Nat.le_gt_cases (length cs) (findStartIndex active cs))
    as [Hle|Hlt]; [exact Hle|].
  destruct (lookup_lt_is_Some_2 cs _ Hlt) as [c Hc].
  specialize (Hall _ c Hcur Hc). specialize (Hstop c Hc). lia.
Qed.

(** X5. The continuation button when there is nothing to run.  While a
    generation is running the press changes nothing.  With an empty unit
    list it only shows the alert that asks for a chapter list.  When every
    unit from the selected one on has a body longer than 500, it only shows
    the alert that all planned units are complete and clears the stop
    flag: no request goes to the provider, nothing is stored and the
    library is as it was. *)
Theorem handleBatchGenerate_idle env props w :
  (isGenerating (writer w) = true ->
   handleBatchGenerate env props w = (Returned tt, w))
  /\ (isGenerating (writer w) = false ->
      chapters props = [] ->
      handleBatchGenerate env props w
      = (Returned tt,
         mkWorld (ai w) (fs w) (application w)
           (alert NeedChapterList (writer w)) (outlineView w)))
  /\ (isGenerating (writer w) = false ->
      chapters props <> [] ->
      (forall j c,
         default 0 (findIndex (activeChapterId (writer w)) (chapters props))
         <= j ->
         chapters props !! j = Some c ->
         500 < length (Chapter.content c)) ->
      handleBatchGenerate env props w
      = (Returned tt,
         mkWorld (ai w) (fs w) (application w)
           (alert AllChaptersComplete (setAbort false (writer w)))
           (outlineView w))).
Proof.
  rewrite handleBatchGenerate_eq. split; [|split].
  - intros ->. reflexivity.
  - intros -> ->. reflexivity.
  - intros -> Hne Hall.
    rewrite bool_decide_eq_false_2
      by (destruct (chapters props); [congruence|discriminate]).
    cbn zeta.
    destruct (Nat.leb_spec (length (chapters props))
                (findStartIndex (activeChapterId (writer w)) (chapters props)))
      as [_|Hlt]; [reflexivity|].
    pose proof (findStartIndex_all_written _ _ Hall). lia.
Qed.

(** ** Directory and file names *)

Section FileNames.
Import FileSystemService.

(** X6. The directory name of a novel is never empty and holds only
    letters, digits, the CJK block, hyphen and underscore; it is as long as
    a non-empty title, leaves a title of such units alone, and naming is
    idempotent. *)
Theorem safeDirectoryName_safe (title : jsstring) :
  safeDirectoryName title <> []
  /\ forallb isSafeTitleUnit (safeDirectoryName title) = true
  /\ (title <> [] -> length (safeDirectoryName title) = length title)
  /\ (title <> [] -> forallb isSafeTitleUnit title = true ->
      safeDirectoryName title = title)
  /\ safeDirectoryName (safeDirectoryName title) = safeDirectoryName title.
Proof.
  assert (forall str, forallb isSafeTitleUnit
                      (map (fun c => if isSafeTitleUnit c then c else 95%N) str)
                    = true) as Hmapped.
  { induction str as [|c str IH]; [reflexivity|]. cbn [map forallb].
    rewrite IH, andb_true_r.
    destruct (isSafeTitleUnit c) eqn:Hc; [exact Hc|reflexivity]. }
  assert (forall str, forallb isSafeTitleUnit str = true ->
                    map (fun c => if isSafeTitleUnit c then c else 95%N) str = str)
    as Hfixed.
  { induction str as [|c str IH]; [reflexivity|]. cbn [map forallb].
    intros [Hc Hstr]%andb_true_iff. rewrite Hc, IH; auto. }
  assert (forallb isSafeTitleUnit (safeDirectoryName title) = true) as Hsafe.
  { unfold safeDirectoryName, orElse.
    destruct title as [|c rest]; [reflexivity|]. apply (Hmapped (c :: rest)). }
  assert (safeDirectoryName title <> []) as Hne.
  { unfold safeDirectoryName, orElse. destruct title; discriminate. }
  split; [exact Hne|]. split; [exact Hsafe|]. split; [|split].
  - destruct title as [|c rest]; [congruence|]. intros _.
    unfold safeDirectoryName, orElse. cbn [map isEmpty].
    cbn [length]. rewrite length_map. reflexivity.
  - destruct title as [|c rest]; [congruence|]. intros _ Ht.
    unfold safeDirectoryName, orElse. rewrite (Hfixed _ Ht). reflexivity.
  - revert Hne Hsafe. generalize (safeDirectoryName title). intros name Hne Hs.
    unfold safeDirectoryName, orElse. rewrite (Hfixed _ Hs).
    destruct name; [congruence|reflexivity].
Qed.

Lemma digitsFuel_value (fuel : nat) :
  forall n acc,
    (n < 2 ^ N.of_nat fuel)%N ->
    fold_left (fun a d => (a * 10 + (d - 48))%N) (digitsFuel fuel n acc) 0%N
    = fold_left (fun a d => (a * 10 + (d - 48))%N) acc n.
Proof.
  induction fuel as [|fuel IH]; intros n acc Hn.
  - cbn in Hn. assert (n = 0%N) as -> by lia. reflexivity.
  - cbn [digitsFuel].
    pose proof (N.div_mod n 10 ltac:(lia)) as Hdm.
    pose proof (N.mod_lt n 10 ltac:(lia)) as Hmod.
    destruct (N.ltb_spec n 10) as [Hsmall|Hbig].
    + cbn [fold_left]. f_equal. rewrite (N.mod_small n 10 Hsmall). lia.
    + rewrite IH.
      * cbn [fold_left]. f_equal. revert Hdm Hmod.
        generalize (n / 10)%N (n mod 10)%N. intros q r Hdm Hmod. lia.
      * rewrite Nat2N.inj_succ, N.pow_succ_r' in Hn.
        apply N.Div0.div_lt_upper_bound. lia.
Qed.

Lemma digitsFuel_digits (fuel : nat) :
  forall n acc,
    forallb isDigit acc = true ->
    forallb isDigit (digitsFuel fuel n acc) = true.
Proof.
  induction fuel as [|fuel IH]; intros n acc Hacc; [exact Hacc|].
  cbn [digitsFuel].
  pose proof (N.mod_lt n 10 ltac:(lia)) as Hmod.
  assert (forallb isDigit ((48 + n mod 10)%N :: acc) = true) as Hacc'.
  { cbn [forallb]. rewrite Hacc, andb_true_r. unfold isDigit.
    revert Hmod. generalize (n mod 10)%N. intros r Hr.
    apply andb_true_iff. split; apply N.leb_le; lia. }
  destruct (n <? 10)%N; [exact Hacc'|]. apply IH. exact Hacc'.
Qed.

Lemma decimal_value (n : N) :
  digitsValue (decimal n) = n /\ forallb isDigit (decimal n) = true.
Proof.
  unfold digitsValue, decimal. split; [|apply digitsFuel_digits; reflexivity].
  rewrite digitsFuel_value; [reflexivity|].
  rewrite Nat2N.inj_succ, N2Nat.id.
  destruct (N.eq_dec n 0%N) as [->|Hpos]; [reflexivity|].
  apply N.log2_spec. lia.
Qed.

Lemma padStart0_value (width : nat) (digits : jsstring) :
  digitsValue (padStart0 width digits) = digitsValue digits
  /\ (forallb isDigit digits = true ->
      forallb isDigit (padStart0 width digits) = true)
  /\ width <= length (padStart0 width digits).
Proof.
  unfold padStart0, digitsValue. split; [|split].
  - rewrite fold_left_app. f_equal.
    induction (width - length digits) as [|k IH]; [reflexivity|exact IH].
  - intros Hd. rewrite forallb_app, Hd, andb_true_r.
    induction (width - length digits) as [|k IH]; [reflexivity|exact IH].
  - rewrite length_app, length_replicate. lia.
Qed.

Lemma digits_prefix_unique (a b r r' : jsstring) :
  forallb isDigit a = true ->
  forallb isDigit b = true ->
  a ++ 95%N :: r = b ++ 95%N :: r' ->
  a = b.
Proof.
  revert b. induction a as [|x a IH]; intros [|y b] Ha Hb Heq.
  - reflexivity.
  - cbn in Heq, Hb. injection Heq as <- _. discriminate Hb.
  - cbn in Heq, Ha. injection Heq as -> _. discriminate Ha.
  - cbn in Heq, Ha, Hb. injection Heq as -> Heq.
    apply andb_true_iff in Ha as [_ Ha]. apply andb_true_iff in Hb as [_ Hb].
    f_equal. exact (IH b Ha Hb Heq).
Qed.

Lemma chapterFileName_number (chapter : Chapter.t) (index : nat) :
  exists num rest,
    chapterFileName chapter index = num ++ 95%N :: rest
    /\ forallb isDigit num = true
    /\ 4 <= length num
    /\ digitsValue num = N.of_nat (index + 1)
    /\ length rest <= 54
    /\ forallb (fun c => negb (isReservedUnit c)) rest = true.
Proof.
  unfold chapterFileName.
  destruct (decimal_value (N.of_nat (index + 1))) as (Hval & Hdig).
  destruct (padStart0_value 4 (decimal (N.of_nat (index + 1))))
    as (Hpval & Hpdig & Hplen).
  eexists. eexists. split; [reflexivity|].
  split; [auto|]. split; [exact Hplen|]. split; [congruence|].
  unfold sliceFirst. split.
  - rewrite length_app, length_take. change (length (lit ".txt")) with 4. lia.
  - rewrite forallb_app. apply andb_true_iff. split; [|reflexivity].
    generalize (orElse (Chapter.title chapter) (lit "Untitled")).
    intros str. generalize 50.
    induction str as [|c str IH]; intros [|k]; try reflexivity.
    cbn [map take forallb]. rewrite IH, andb_true_r.
    destruct (isReservedUnit c) eqn:Hc; [reflexivity|]. rewrite Hc.
    reflexivity.
Qed.

(** X7. The file name of a chapter starts with its number, index + 1,
    written with at least four decimal digits and read back by its value,
    then an underscore and at most 54 further units; no unit of the name is
    one of the reserved characters; and chapters at different positions
    never get the same file name, whatever their titles. *)
Theorem chapterFileName_spec (c1 c2 : Chapter.t) (i j : nat) :
  (exists num rest,
      chapterFileName c1 i = num ++ lit "_" ++ rest
      /\ forallb isDigit num = true
      /\ 4 <= length num
      /\ digitsValue num = N.of_nat (i + 1)
      /\ length rest <= 54)
  /\ forallb (fun c => negb (isReservedUnit c)) (chapterFileName c1 i) = true
  /\ (i <> j -> chapterFileName c1 i <> chapterFileName c2 j).
Proof.
  destruct (chapterFileName_number c1 i)
    as (num & rest & Hname & Hdig & Hlen & Hval & Hrest & Hres).
  split; [exists num, rest; auto|]. split.
  - rewrite Hname, forallb_app. apply andb_true_iff. split.
    + clear -Hdig. induction num as [|d num IH]; [reflexivity|].
      cbn [forallb] in *. apply andb_true_iff in Hdig as [Hd Hnum].
      rewrite (IH Hnum), andb_true_r. unfold isDigit in Hd.
      apply andb_true_iff in Hd as [H1%N.leb_le H2%N.leb_le].
      unfold isReservedUnit.
      repeat match goal with
             | |- context [N.eqb d ?k] =>
                 destruct (N.eqb_spec d k); [lia|]
             end.
      reflexivity.
    + cbn [forallb]. rewrite Hres. reflexivity.
  - intros Hij Heq.
    destruct (chapterFileName_number c2 j)
      as (num' & rest' & Hname' & Hdig' & _ & Hval' & _).
    rewrite Hname, Hname' in Heq.
    pose proof (digits_prefix_unique _ _ _ _ Hdig Hdig' Heq) as Hnum.
    rewrite Hnum, Hval' in Hval. lia.
Qed.

End FileNames.

(** ** Writing chapter files *)

Section ChapterFiles.
Import FileSystemService.

#[local] Arguments chapterFileName : simpl never.
#[local] Arguments chapterFileText : simpl never.
#[local] Arguments safeDirectoryName : simpl never.
#[local] Arguments lit : simpl never.

(** Reduce the state projections of a storage step. *)
Ltac fs_step :=
  cbv beta iota zeta
    delta [rootDirectoryHandle storageCalls files console entries negb
           Nat.add].

Lemma saveChapter_run env novel chapter index root n fl con ent :
  let dir := [safeDirectoryName (NovelConfig.title (Novel.config novel))] in
  let chaptersDir :=
    [safeDirectoryName (NovelConfig.title (Novel.config novel));
     lit "chapters"] in
  let path :=
    [safeDirectoryName (NovelConfig.title (Novel.config novel));
     lit "chapters"; chapterFileName chapter index] in
  let failed := ErrorSavingChapter (index + 1) in
  saveChapter env novel chapter index (mkFs root n fl con ent)
  = if negb root then (Returned tt, mkFs root n fl con ent)
    else
      match storage env n with
      | Some e =>
          (Returned tt,
           mkFs root (1 + n) fl ((FailedDirectoryHandle, e) :: con) ent)
      | None =>
          match storage env (1 + n), storage env (2 + n), storage env (3 + n),
                storage env (4 + n), storage env (5 + n) with
          | None, None, None, None, None =>
              (Returned tt,
               mkFs root (6 + n)
                 ((path, Text (chapterFileText chapter index)) :: fl) con
                 (createdAll [dir; chaptersDir; path] ent))
          | Some e, _, _, _, _ =>
              (Returned tt,
               mkFs root (2 + n) fl ((failed, e) :: con)
                 (createdAll [dir] ent))
          | None, Some e, _, _, _ =>
              (Returned tt,
               mkFs root (3 + n) fl ((failed, e) :: con)
                 (createdAll [dir; chaptersDir] ent))
          | None, None, Some e, _, _ =>
              (Returned tt,
               mkFs root (4 + n) fl ((failed, e) :: con)
                 (createdAll [dir; chaptersDir; path] ent))
          | None, None, None, Some e, _ =>
              (Returned tt,
               mkFs root (5 + n) fl ((failed, e) :: con)
                 (createdAll [dir; chaptersDir; path] ent))
          | None, None, None, None, Some e =>
              (Returned tt,
               mkFs root (6 + n) fl ((failed, e) :: con)
                 (createdAll [dir; chaptersDir; path] ent))
          end
      end.
Proof.
  cbv zeta.
  unfold saveChapter, getNovelDirectory, getDirectoryHandle, getFileHandle,
    writeFile, create, storageCall, consoleError, tryCatch, bind, get,
    modify, ret, createdAll.
  fs_step. destruct root; [|reflexivity]. fs_step.
  destruct (storage env n); fs_step; [reflexivity|].
  destruct (storage env (S n)); fs_step; [reflexivity|].
  destruct (storage env (S (S n))); fs_step; [reflexivity|].
  destruct (storage env (S (S (S n)))); fs_step; [reflexivity|].
  destruct (storage env (S (S (S (S n))))); fs_step; [reflexivity|].
  destruct (storage env (S (S (S (S (S n)))))); reflexivity.
Qed.

(** Settle the storage calls of a run one by one. *)
Ltac storage_cases env :=
  repeat match goal with
         | |- context [match storage env ?k with _ => _ end] =>
             destruct (storage env k)
         end.

Lemma created_elem (path : Path) (existing : list Path) :
  elem_of path (created path existing).
Proof.
  unfold created. destruct (bool_decide_reflect (elem_of path existing)).
  - assumption.
  - apply list_elem_of_here.
Qed.

(** X8. Saving a chapter never throws, and what it leaves behind depends
    on how far it came.  Without a connected directory nothing happens.
    With one it makes up to six storage calls: it opens the novel's
    directory, the chapters directory and the chapter file, each made if it
    does not exist, then opens a writable, writes the chapter text and
    closes.  When all six resolve, the three entries exist and the chapter
    file holds the chapter text.  When call number [j] of the six is the
    first to reject, the later calls are not made, the rejection is written
    on the console, no file content changes, and the entries opened by the
    calls before [j] exist all the same: from the fourth call on the
    chapter file exists without the chapter text. *)
Theorem saveChapter_outcome env novel chapter index s :
  let dir := [safeDirectoryName (NovelConfig.title (Novel.config novel))] in
  let chaptersDir :=
    [safeDirectoryName (NovelConfig.title (Novel.config novel));
     lit "chapters"] in
  let path :=
    [safeDirectoryName (NovelConfig.title (Novel.config novel));
     lit "chapters"; chapterFileName chapter index] in
  let s' := snd (saveChapter env novel chapter index s) in
  fst (saveChapter env novel chapter index s) = Returned tt
  /\ (rootDirectoryHandle s = false -> s' = s)
  /\ (rootDirectoryHandle s = true ->
      (forall k, storageCalls s <= k < storageCalls s + 6 ->
                 storage env k = None) ->
      s' = mkFs true (storageCalls s + 6)
             ((path, Text (chapterFileText chapter index)) :: files s)
             (console s)
             (createdAll [dir; chaptersDir; path] (entries s)))
  /\ (rootDirectoryHandle s = true ->
      forall j e,
        j < 6 ->
        storage env (storageCalls s + j) = Some e ->
        (forall i, i < j -> storage env (storageCalls s + i) = None) ->
        s' = mkFs true (S (storageCalls s + j)) (files s)
               (((if j =? 0 then FailedDirectoryHandle
                  else ErrorSavingChapter (index + 1)), e) :: console s)
               (createdAll (firstn j [dir; chaptersDir; path]) (entries s))
        /\ (3 <= j -> elem_of path (entries s'))).
Proof.
  destruct s as [root n fl con ent]. cbn zeta.
  cbn [rootDirectoryHandle storageCalls files console entries].
  rewrite saveChapter_run. cbv zeta. split; [|split; [|split]].
  - destruct root; cbn [negb]; [|reflexivity].
    storage_cases env; reflexivity.
  - intros ->. reflexivity.
  - intros -> Hok. cbn [negb].
    rewrite (Hok n), (Hok (1 + n)), (Hok (2 + n)), (Hok (3 + n)),
      (Hok (4 + n)), (Hok (5 + n)) by lia.
    cbn [snd]. replace (n + 6) with (6 + n) by lia. reflexivity.
  - intros -> j e Hj He Hfirst. cbn [negb].
    assert (forall i, i < j -> storage env (i + n) = None) as Hbefore
      by (intros i Hi; rewrite Nat.add_comm; auto).
    assert (0 < j -> storage env n = None) as Hzero
      by (intros Hpos; apply (Hbefore 0 Hpos)).
    rewrite (Nat.add_comm n j) in He |- *.
    destruct j as [|[|[|[|[|[|j]]]]]]; [| | | | | |exfalso; clear -Hj; lia].
    + cbn [Nat.add] in He. rewrite He. cbn. split; [reflexivity|lia].
    + rewrite Hzero, He by lia. cbn. split; [reflexivity|lia].
    + rewrite Hzero, (Hbefore 1), He by lia. cbn.
      split; [reflexivity|lia].
    + rewrite Hzero, (Hbefore 1), (Hbefore 2), He by lia.
      cbn [snd entries firstn Nat.eqb Nat.add]. split; [reflexivity|].
      intros _. apply created_elem.
    + rewrite Hzero, (Hbefore 1), (Hbefore 2), (Hbefore 3), He by lia.
      cbn [snd entries firstn Nat.eqb Nat.add]. split; [reflexivity|].
      intros _. apply created_elem.
    + rewrite Hzero, (Hbefore 1), (Hbefore 2), (Hbefore 3),
        (Hbefore 4), He by lia.
      cbn [snd entries firstn Nat.eqb Nat.add]. split; [reflexivity|].
      intros _. apply created_elem.
Qed.

(** A write that rejects: the fifth storage call of the save of the first
    chapter fails.  The save returns, no file content is committed, the
    console has one line, and the novel's directory, the chapters
    directory and the chapter file exist. *)
Lemma saveChapter_outcome_witness :
  saveChapter (Cases.storageFailsAt 4) (novel fiveUnits WRITING)
    (chapter 0 (letters 600)) 0 (mkFs true 0 [] [] [])
  = (Returned tt,
     mkFs true 5 []
       [(ErrorSavingChapter 1, newError (lit "write failed"))]
       [[lit "T"; lit "chapters"; lit "0001_t.txt"];
        [lit "T"; lit "chapters"]; [lit "T"]]).
Proof.
  destruct (saveChapter_outcome (Cases.storageFailsAt 4)
              (novel fiveUnits WRITING) (chapter 0 (letters 600)) 0
              (mkFs true 0 [] [] []))
    as (Hret & _ & _ & Hfail).
  destruct (Hfail eq_refl 4 (newError (lit "write failed")) ltac:(lia)
              eq_refl)
    as (Hstate & _).
  { intros i Hi. destruct i as [|[|[|[|i]]]]; [reflexivity..|lia]. }
  rewrite (surjective_pairing (saveChapter _ _ _ _ _)), Hret, Hstate.
  reflexivity.
Defined.

Lemma trimStart_blank str :
  isEmpty (trimStart str) = forallb isWhiteSpace str.
Proof.
  induction str as [|c str IH]; [reflexivity|]. cbn.
  destruct (isWhiteSpace c); [exact IH|reflexivity].
Qed.

Lemma trimStart_snoc str c :
  isWhiteSpace c = false -> trimStart (str ++ [c]) <> [].
Proof.
  intros Hc. induction str as [|d str IH]; cbn.
  - rewrite Hc. discriminate.
  - destruct (isWhiteSpace d); [exact IH|discriminate].
Qed.

Lemma trim_blank str :
  (0 <? length (trim str)) = negb (forallb isWhiteSpace str).
Proof.
  rewrite <- trimStart_blank. unfold trim, trimEnd.
  destruct (trimStart str) as [|c rest] eqn:Hstart; [reflexivity|].
  assert (isWhiteSpace c = false) as Hc.
  { clear -Hstart. induction str as [|d str IH]; [discriminate|].
    cbn in Hstart. destruct (isWhiteSpace d) eqn:Hd; [auto|].
    injection Hstart as <- _. exact Hd. }
  cbn [isEmpty negb rev]. rewrite length_rev.
  pose proof (trimStart_snoc (rev rest) c Hc) as Hne.
  destruct (trimStart (rev rest ++ [c])); [congruence|reflexivity].
Qed.

Lemma hasBody_test (c : Chapter.t) :
  negb (isEmpty (Chapter.content c))
  && (0 <? length (trim (Chapter.content c)))
  = hasBody c.
Proof.
  unfold hasBody. rewrite trim_blank.
  destruct (Chapter.content c); reflexivity.
Qed.

Lemma saveChaptersFrom_reliable env novel :
  (forall k, storage env k = None) ->
  forall rest i n fl con ent,
    saveChaptersFrom env novel rest i (mkFs true n fl con ent)
    = (Returned tt,
       mkFs true (n + 6 * length (List.filter hasBody rest))
         (chapterFiles (NovelConfig.title (Novel.config novel)) rest i fl)
         con
         (chapterEntries (NovelConfig.title (Novel.config novel)) rest i
            ent)).
Proof.
  intros Hok. induction rest as [|c rest IH]; intros i n fl con ent.
  - cbn. rewrite Nat.add_0_r. reflexivity.
  - cbn [saveChaptersFrom chapterFiles chapterEntries List.filter].
    rewrite hasBody_test.
    unfold bind at 1. destruct (hasBody c).
    + unfold when. rewrite saveChapter_run. cbv zeta. cbn [negb].
      rewrite !Hok.
      rewrite IH. cbn [length]. f_equal. f_equal. lia.
    + unfold when, ret. rewrite IH. reflexivity.
Qed.

(** X9. Saving all chapters with a connected directory and a storage
    that never rejects writes one file for each chapter whose body is not
    blank, named by the chapter's position in the whole list, makes six
    storage calls for each, writes nothing for a chapter with an empty or
    white-space body, and leaves the console as it was.  The entries that
    exist afterwards are those of before and, when a chapter has a body,
    the novel's directory, its chapters directory and the files written. *)
Theorem saveAllChapters_reliable env novel s :
  rootDirectoryHandle s = true ->
  (forall k, storage env k = None) ->
  saveAllChapters env novel s
  = (Returned tt,
     mkFs true
       (storageCalls s + 6 * length (List.filter hasBody (Novel.chapters novel)))
       (chapterFiles (NovelConfig.title (Novel.config novel))
          (Novel.chapters novel) 0 (files s))
       (console s)
       (chapterEntries (NovelConfig.title (Novel.config novel))
          (Novel.chapters novel) 0 (entries s))).
Proof.
  destruct s as [root n fl con ent].
  cbn [rootDirectoryHandle storageCalls files console entries].
  intros -> Hok. unfold saveAllChapters, bind, get, tryCatch.
  cbn [rootDirectoryHandle negb].
  rewrite (saveChaptersFrom_reliable env novel Hok). reflexivity.
Qed.

(** Of five chapters, three with a body: three files, eighteen calls. *)
Lemma saveAllChapters_reliable_witness :
  rootDirectoryHandle (mkFs true 0 [] [] []) = true
  /\ saveAllChapters storyEnv (novel fiveUnits WRITING)
       (mkFs true 0 [] [] [])
     = (Returned tt,
        mkFs true 18
          (chapterFiles (lit "T") fiveUnits 0 []) []
          (chapterEntries (lit "T") fiveUnits 0 [])).
Proof.
  split; [reflexivity|].
  exact (saveAllChapters_reliable storyEnv (novel fiveUnits WRITING)
           (mkFs true 0 [] [] []) eq_refl (fun _ => eq_refl)).
Defined.

End ChapterFiles.

(** ** The library and its actions *)

Section LibraryActions.
Import AppActions.

Lemma persistLibrary_Persisted nv act ready reads stored :
  Persisted (App.persistLibrary (AppState.mk nv act ready stored reads)).
Proof.
  unfold Persisted, App.persistLibrary. cbn [AppState.novels].
  destruct nv as [|n nv]; [left; reflexivity|right; reflexivity].
Qed.

Lemma setNovels_Persisted update s : Persisted (App.setNovels update s).
Proof. apply persistLibrary_Persisted. Qed.

Lemma updateActiveNovel_Persisted env aid u s :
  Persisted s -> Persisted (App.updateActiveNovel env aid u s).
Proof.
  intros Hs. unfold App.updateActiveNovel.
  destruct aid as [id|]; [|exact Hs].
  destruct (isEmpty id); [exact Hs|].
  destruct (App.mapUpdates env id u (AppState.novels s)
              (AppState.clockReads s)) as [novels' reads'].
  apply setNovels_Persisted.
Qed.

Lemma handleDeleteNovel_Persisted id s :
  Persisted (App.handleDeleteNovel id s).
Proof.
  unfold App.handleDeleteNovel.
  pose proof (setNovels_Persisted
                (filter (fun n => Novel.id n <> id)) s) as H.
  destruct (bool_decide (AppState.activeNovelId s = Some id)); exact H.
Qed.

Lemma handleCreateNovel_run env w :
  handleCreateNovel env w
  = let newNovel :=
      Novel.mk (randomUUID env (uuids (inner (ai w))))
        (dateNow env (AppState.clockReads (application w)))
        INITIAL_CONFIG [] [] None SETUP in
    (Returned tt,
     mkWorld
       (mkTimed (mkAi (requests (inner (ai w))) (S (uuids (inner (ai w))))
                   (parseErrors (inner (ai w))))
          (timeline (ai w)))
       (fs w)
       (AppState.mk (newNovel :: AppState.novels (application w))
          (Some (Novel.id newNovel))
          (AppState.isFileSystemReady (application w))
          (Some (newNovel :: AppState.novels (application w)))
          (S (AppState.clockReads (application w))))
       (writer w) (outlineView w)).
Proof. destruct w as [[a tl] f app wr ov]. reflexivity. Qed.

(** X10. The stored copy of the library follows the library: after
    mounting, and after an update of the active novel, a deletion, a
    selection or a creation from a state in which it holds, the stored
    item is the library unless the library is empty.  In such a state
    with a library that is not empty, mounting the application again
    restores exactly the library, with no novel selected. *)
Theorem library_persisted env stored aid u id v w s :
  Persisted (App.mount stored)
  /\ (Persisted s -> Persisted (App.updateActiveNovel env aid u s))
  /\ Persisted (App.handleDeleteNovel id s)
  /\ (Persisted s -> Persisted (App.setActiveNovelId v s))
  /\ Persisted (application (snd (handleCreateNovel env w)))
  /\ (Persisted s -> AppState.novels s <> [] ->
      AppState.novels (App.mount (AppState.localStorage s))
      = AppState.novels s
      /\ AppState.activeNovelId (App.mount (AppState.localStorage s)) = None).
Proof.
  split; [|split; [|split; [|split; [|split]]]].
  - unfold App.mount. destruct stored as [saved|].
    + apply setNovels_Persisted.
    + left. reflexivity.
  - apply updateActiveNovel_Persisted.
  - apply handleDeleteNovel_Persisted.
  - intros Hs. exact Hs.
  - rewrite handleCreateNovel_run. right. reflexivity.
  - intros [Hempty|Hstored] Hne; [contradiction|]. rewrite Hstored.
    unfold App.mount, App.setNovels, App.persistLibrary.
    cbn [AppState.novels AppState.activeNovelId AppState.localStorage
         AppState.isFileSystemReady AppState.clockReads length Nat.ltb
         Nat.leb].
    destruct (AppState.novels s); [contradiction|]. split; reflexivity.
Qed.

Lemma mapUpdates_lookup env id u :
  forall prev reads,
    length (fst (App.mapUpdates env id u prev reads)) = length prev
    /\ forall i n,
         prev !! i = Some n ->
         (Novel.id n <> id ->
          fst (App.mapUpdates env id u prev reads) !! i = Some n)
         /\ (Novel.id n = id ->
             exists now,
               fst (App.mapUpdates env id u prev reads) !! i
               = Some (App.merge n u now)).
Proof.
  induction prev as [|m rest IH]; intros reads.
  - split; [reflexivity|]. intros i n Hi. discriminate.
  - cbn [App.mapUpdates].
    destruct (bool_decide (Novel.id m = id)) eqn:Hm.
    + apply bool_decide_eq_true in Hm.
      destruct (IH (S reads)) as (Hlen & Hrest).
      destruct (App.mapUpdates env id u rest (S reads)) as [rest' reads'].
      cbn [fst length] in *. split; [lia|].
      intros [|i] n Hi.
      * injection Hi as <-. split; [contradiction|].
        intros _. exists (dateNow env reads). reflexivity.
      * exact (Hrest i n Hi).
    + apply bool_decide_eq_false in Hm.
      destruct (IH reads) as (Hlen & Hrest).
      destruct (App.mapUpdates env id u rest reads) as [rest' reads'].
      cbn [fst length] in *. split; [lia|].
      intros [|i] n Hi.
      * injection Hi as <-. split; [reflexivity|contradiction].
      * exact (Hrest i n Hi).
Qed.

(** X11. An update of the active novel touches the novels of the active
    identity only: the library keeps its length, every novel of another
    identity stays at its position unchanged, every novel of the active
    identity is replaced at its position by the merge of itself with the
    update and a reading of the clock, and the selection is kept.  With no
    active identity, or the empty one, the update is dropped. *)
Theorem updateActiveNovel_frame env id u s :
  id <> [] ->
  let s' := App.updateActiveNovel env (Some id) u s in
  length (AppState.novels s') = length (AppState.novels s)
  /\ AppState.activeNovelId s' = AppState.activeNovelId s
  /\ (forall i n,
        AppState.novels s !! i = Some n ->
        (Novel.id n <> id -> AppState.novels s' !! i = Some n)
        /\ (Novel.id n = id ->
            exists now,
              AppState.novels s' !! i = Some (App.merge n u now)))
  /\ App.updateActiveNovel env None u s = s
  /\ App.updateActiveNovel env (Some []) u s = s.
Proof.
  intros Hid. cbn zeta. unfold App.updateActiveNovel.
  destruct id as [|c id]; [congruence|]. cbn [isEmpty].
  destruct (mapUpdates_lookup env (c :: id) u (AppState.novels s)
              (AppState.clockReads s)) as (Hlen & Hlook).
  destruct (App.mapUpdates env (c :: id) u (AppState.novels s)
              (AppState.clockReads s)) as [novels' reads'].
  cbn [fst] in *.
  destruct (persistLibrary_novels
              (AppState.mk novels' (AppState.activeNovelId s)
                 (AppState.isFileSystemReady s) (AppState.localStorage s)
                 reads')) as (Hnov & Hact).
  unfold App.setNovels.
  cbn [AppState.novels AppState.activeNovelId AppState.isFileSystemReady
       AppState.localStorage AppState.clockReads] in *.
  rewrite Hnov, Hact. auto.
Qed.

Lemma updateActiveNovel_frame_witness :
  exists now,
    AppState.novels
      (App.updateActiveNovel storyEnv (Some [1%N])
         (App.mkUpdates None (Some (lit "plan")) None None)
         (application (world (novel fiveUnits OUTLINE) None)))
    !! 0
    = Some (Novel.mk [1%N] now (config 25) (lit "plan") fiveUnits None
              OUTLINE).
Proof.
  destruct (updateActiveNovel_frame storyEnv [1%N]
              (App.mkUpdates None (Some (lit "plan")) None None)
              (application (world (novel fiveUnits OUTLINE) None))
              ltac:(discriminate))
    as (_ & _ & Hlook & _).
  destruct (Hlook 0 (novel fiveUnits OUTLINE) eq_refl) as (_ & Hsame).
  destruct (Hsame eq_refl) as (now & Hnow).
  exists now. exact Hnow.
Defined.

Lemma list_find_filter {A} (P Q : A -> Prop)
  `{forall x, Decision (P x)} `{forall x, Decision (Q x)} (l : list A) :
  (forall x, P x -> Q x) ->
  snd <$> list_find P (filter Q l) = snd <$> list_find P l.
Proof.
  intros HPQ. induction l as [|x l IH]; [reflexivity|].
  rewrite filter_cons. cbn [list_find].
  destruct (decide (P x)) as [HP|HP].
  - rewrite decide_True by auto. cbn [list_find].
    rewrite decide_True by exact HP. reflexivity.
  - destruct (decide (Q x)).
    + cbn [list_find]. rewrite decide_False by exact HP.
      destruct (list_find P (filter Q l)) as [[? ?]|];
        destruct (list_find P l) as [[? ?]|]; cbn in *; congruence.
    + destruct (list_find P (filter Q l)) as [[? ?]|];
        destruct (list_find P l) as [[? ?]|]; cbn in *; congruence.
Qed.

Lemma list_find_none_filter {A} (P Q : A -> Prop)
  `{forall x, Decision (P x)} `{forall x, Decision (Q x)} (l : list A) :
  (forall x, P x -> ~ Q x) ->
  list_find P (filter Q l) = None.
Proof.
  intros HPQ. apply list_find_None. apply Forall_forall.
  intros x [HQ _]%list_elem_of_filter HP. exact (HPQ x HP HQ).
Qed.

Lemma filter_twice (id : Id) (l : list Novel.t) :
  filter (fun n => Novel.id n <> id) (filter (fun n => Novel.id n <> id) l)
  = filter (fun n => Novel.id n <> id) l.
Proof.
  induction l as [|m l IH]; [reflexivity|].
  rewrite filter_cons. destruct (decide (Novel.id m <> id)).
  - rewrite filter_cons, decide_True by assumption. f_equal. exact IH.
  - exact IH.
Qed.

(** X12. Deleting a novel removes every novel of that identity and no
    other; it clears the selection exactly when the deleted identity was
    the selected one, and otherwise the novel shown stays the same;
    deleting the same identity again changes nothing. *)
Theorem handleDeleteNovel_spec id s :
  let s' := App.handleDeleteNovel id s in
  (forall n, n ∈ AppState.novels s'
             <-> n ∈ AppState.novels s /\ Novel.id n <> id)
  /\ (AppState.activeNovelId s = Some id ->
      AppState.activeNovelId s' = None /\ App.activeNovel s' = None)
  /\ (AppState.activeNovelId s <> Some id ->
      AppState.activeNovelId s' = AppState.activeNovelId s
      /\ App.activeNovel s' = App.activeNovel s)
  /\ App.handleDeleteNovel id s' = s'.
Proof.
  cbn zeta.
  assert (AppState.novels (App.handleDeleteNovel id s)
          = filter (fun n => Novel.id n <> id) (AppState.novels s)) as Hnov.
  { unfold App.handleDeleteNovel, App.setNovels.
    destruct (bool_decide (AppState.activeNovelId s = Some id));
      cbn [App.setActiveNovelId AppState.novels];
      rewrite (proj1 (persistLibrary_novels _)); reflexivity. }
  assert (AppState.activeNovelId (App.handleDeleteNovel id s)
          = if bool_decide (AppState.activeNovelId s = Some id)
            then None else AppState.activeNovelId s) as Hact.
  { unfold App.handleDeleteNovel, App.setNovels.
    destruct (bool_decide (AppState.activeNovelId s = Some id));
      cbn [App.setActiveNovelId AppState.activeNovelId];
      [reflexivity|].
    rewrite (proj2 (persistLibrary_novels _)). reflexivity. }
  split; [|split; [|split]].
  - intros n. rewrite Hnov, list_elem_of_filter. tauto.
  - intros Hsel. rewrite Hact, bool_decide_eq_true_2 by exact Hsel.
    split; [reflexivity|]. unfold App.activeNovel.
    rewrite Hact, bool_decide_eq_true_2 by exact Hsel.
    rewrite (proj2 (list_find_None _ _)); [reflexivity|].
    apply Forall_forall. intros n _. discriminate.
  - intros Hsel. rewrite Hact, bool_decide_eq_false_2 by exact Hsel.
    split; [reflexivity|]. unfold App.activeNovel.
    rewrite Hact, bool_decide_eq_false_2 by exact Hsel. rewrite Hnov.
    apply list_find_filter. intros n Hn Heq. apply Hsel.
    rewrite <- Hn, Heq. reflexivity.
  - unfold App.handleDeleteNovel at 1.
    rewrite Hact.
    assert (App.setNovels (filter (fun n => Novel.id n <> id))
              (App.handleDeleteNovel id s)
            = App.handleDeleteNovel id s) as Hsame.
    { unfold App.setNovels. rewrite Hnov.
      rewrite filter_twice.
      rewrite <- Hnov.
      pose proof (handleDeleteNovel_Persisted id s) as Hp.
      destruct (App.handleDeleteNovel id s) as [nv act ready stored reads].
      unfold Persisted, App.persistLibrary in *.
      cbn [AppState.novels AppState.activeNovelId AppState.localStorage
           AppState.isFileSystemReady AppState.clockReads] in *.
      destruct Hp as [-> | ->]; [reflexivity|].
      destruct nv; reflexivity. }
    rewrite Hsame.
    destruct (bool_decide (AppState.activeNovelId s = Some id)) eqn:Hsel.
    + cbn [bool_decide]. rewrite bool_decide_eq_false_2 by discriminate.
      reflexivity.
    + apply bool_decide_eq_false in Hsel.
      rewrite bool_decide_eq_false_2 by exact Hsel. reflexivity.
Qed.

(** X13. Creating a novel puts a novel with a fresh identity, the
    initial configuration, no outline, no chapters and the setup step at the
    head of the library, selects it, shows it and stores the library; the
    services and the writer view are untouched.  When no novel of the
    library had that identity, deleting the new novel gives back the
    library as it was. *)
Theorem handleCreateNovel_spec env w :
  let id := randomUUID env (uuids (inner (ai w))) in
  let newNovel :=
    Novel.mk id (dateNow env (AppState.clockReads (application w)))
      INITIAL_CONFIG [] [] None SETUP in
  let w' := snd (handleCreateNovel env w) in
  fst (handleCreateNovel env w) = Returned tt
  /\ AppState.novels (application w')
     = newNovel :: AppState.novels (application w)
  /\ App.activeNovel (application w') = Some newNovel
  /\ AppState.localStorage (application w')
     = Some (AppState.novels (application w'))
  /\ fs w' = fs w /\ writer w' = writer w
  /\ ((forall n, n ∈ AppState.novels (application w) -> Novel.id n <> id) ->
      AppState.novels (App.handleDeleteNovel id (application w'))
      = AppState.novels (application w)
      /\ AppState.activeNovelId (App.handleDeleteNovel id (application w'))
         = None).
Proof.
  cbn zeta. rewrite handleCreateNovel_run. cbn zeta.
  cbn [fst snd application fs writer AppState.novels AppState.localStorage].
  split; [reflexivity|]. split; [reflexivity|]. split.
  { unfold App.activeNovel.
    cbn [AppState.novels AppState.activeNovelId list_find Novel.id].
    rewrite decide_True by reflexivity. reflexivity. }
  split; [reflexivity|]. split; [reflexivity|]. split; [reflexivity|].
  intros Hfresh.
  unfold App.handleDeleteNovel, App.setNovels.
  cbn [AppState.novels AppState.activeNovelId AppState.localStorage
       AppState.isFileSystemReady AppState.clockReads].
  rewrite bool_decide_eq_true_2 by reflexivity.
  cbn [App.setActiveNovelId AppState.novels AppState.activeNovelId].
  rewrite (proj1 (persistLibrary_novels _)). cbn [AppState.novels].
  split; [|reflexivity].
  rewrite filter_cons, decide_False by (cbn; tauto).
  induction (AppState.novels (application w)) as [|m l IH]; [reflexivity|].
  rewrite filter_cons, decide_True.
  - f_equal. apply IH. intros n Hn. apply Hfresh. right. exact Hn.
  - apply Hfresh. left.
Qed.

End LibraryActions.

(** ** Writing the selected chapter *)





(** ** A continuation run that a failure interrupts *)


Section Interrupted.
Context (env : Env) (n : Novel.t) (ready : bool) (total P : nat).

Let aid (w : World) := AppState.activeNovelId (application w).
Let asked (w : World) := requests (inner (ai w)).



End Interrupted.


Lemma runFailed_facts w2 :
  application (runFailed w2) = application w2
  /\ ai (runFailed w2) = ai w2
  /\ abortBatchRef (writer (runFailed w2)) = false
  /\ isGenerating (writer (runFailed w2)) = false
  /\ batchProgress (writer (runFailed w2)) = None
  /\ alerts (writer (runFailed w2)) = alerts (writer w2) ++ [BatchInterrupted].
Proof.
  destruct w2 as [a f ap [act gen prog lg ab reps al aw] o].
  repeat split.
Qed.



(** ** Planning the chapter list *)

Lemma generateChapterBatch_items env cfg o st sz prev s text items :
  provider env (requests (inner s))
    (BatchRequest cfg (sliceFirst 1500 o) st sz (lastFive prev))
  = Returned text ->
  parse (cleanJson (textOr text (lit "[]"))) = Some (JArray items) ->
  Forall (fun item => item <> JNull) items ->
  exists batch,
    generateChapterBatch env cfg o st sz prev s
    = (Returned batch,
       mkTimed (mkAi (S (requests (inner s)))
                  (uuids (inner s) + length items) (parseErrors (inner s)))
         (timeline s ++ [Invoked]))
    /\ length batch = length items
    /\ Forall (fun c => Chapter.content c = []
                        /\ Chapter.isGenerated c = false) batch.
Proof.
  intros Hp Hparse Hitems. destruct s as [a tl]. cbn [inner timeline] in *.
  destruct (mapItems_chapters env items Hitems
              (mkAi (S (requests a)) (uuids a) (parseErrors a)))
    as (cs & Hcs & Hids & _ & _ & Hblank).
  exists cs. split; [|split; [|exact Hblank]].
  - unfold generateChapterBatch. apply callAIWithRetry_returned.
    unfold bind, generateContent, tryCatch. rewrite Hp, Hparse, Hcs.
    reflexivity.
  - rewrite <- (length_map Chapter.id cs), Hids, length_map, length_seq.
    reflexivity.
Qed.

Lemma generateChapterBatch_thrown env cfg o st sz prev s e :
  provider env (requests (inner s))
    (BatchRequest cfg (sliceFirst 1500 o) st sz (lastFive prev))
  = Thrown e ->
  isTransient e = false ->
  generateChapterBatch env cfg o st sz prev s
  = (Thrown e,
     mkTimed (mkAi (S (requests (inner s))) (uuids (inner s))
                (parseErrors (inner s)))
       (timeline s ++ [Invoked])).
Proof.
  intros Hp Htr. destruct s as [a tl]. cbn [inner timeline] in *.
  unfold generateChapterBatch. apply callAIWithRetry_fatal; [|exact Htr].
  unfold bind, generateContent. rewrite Hp. reflexivity.
Qed.

Section PlanningRuns.
Context (env : Env) (cfg : NovelConfig.t) (o : jsstring) (from : nat).

Let T := NovelConfig.targetChapterCount cfg.

(** What a planning loop leaves alone. *)
Let kept (w w' : World) : Prop :=
  fs w' = fs w /\ application w' = application w /\ writer w' = writer w
  /\ OutlineState.isGenerating (outlineView w')
     = OutlineState.isGenerating (outlineView w)
  /\ OutlineState.alerts (outlineView w') = OutlineState.alerts (outlineView w).

Let blank (c : Chapter.t) : Prop :=
  Chapter.content c = [] /\ Chapter.isGenerated c = false.

Lemma planLoop_finished fuel all w :
  (T <= Z.of_nat (length all))%Z ->
  OutlineView.planLoop (S fuel) env OutlineView.BATCH_SIZE cfg o all w
  = Some (all, Returned tt, w).
Proof.
  intros Hdone. cbn [OutlineView.planLoop]. fold T.
  destruct (Z.ltb_spec (Z.of_nat (length all)) T); [lia|reflexivity].
Qed.

Lemma planLoop_batch fuel q all w :
  length all = 20 * q ->
  requests (inner (ai w)) = from + q ->
  (20 * Z.of_nat q < T)%Z ->
  Cases.AsAsked env T from (S q) ->
  exists batch w1,
    OutlineView.planLoop (S fuel) env OutlineView.BATCH_SIZE cfg o all w
    = OutlineView.planLoop fuel env OutlineView.BATCH_SIZE cfg o
        (all ++ batch) w1
    /\ length batch
       = Z.to_nat (Z.min OutlineView.BATCH_SIZE (T - 20 * Z.of_nat q))
    /\ Forall blank batch
    /\ requests (inner (ai w1)) = from + S q
    /\ kept w w1.
Proof.
  intros Hlen Hreq Hlt Hans.
  assert (Z.of_nat (length all) = (20 * Z.of_nat q)%Z) as Hlen' by lia.
  destruct (Hans q cfg (sliceFirst 1500 o) (lastFive all) ltac:(lia) Hlt)
    as (text & items & Hp & Hparse & Hitems & Hcount).
  rewrite <- Hreq, <- Hlen' in Hp.
  destruct (generateChapterBatch_items env cfg o _ _ all (ai w) text items
              Hp Hparse Hitems) as (batch & Hrun & Hblen & Hblank).
  cbn [OutlineView.planLoop]. fold T.
  destruct (Z.ltb_spec (Z.of_nat (length all)) T) as [_|Hge]; [|lia].
  unfold onAi, zoom. rewrite Hrun.
  unfold bind, onOutlineView, modify, pause, ret.
  eexists. eexists. split; [reflexivity|].
  cbn [ai fs application writer outlineView inner requests].
  split; [rewrite Hblen, Hcount; reflexivity|].
  split; [exact Hblank|]. split; [lia|].
  unfold kept. cbn [ai fs application writer outlineView].
  destruct (outlineView w). repeat split.
Qed.

Lemma planLoop_exact :
  forall fuel q all w,
    length all = 20 * q ->
    requests (inner (ai w)) = from + q ->
    Z.to_nat (T - 20 * Z.of_nat q) < fuel ->
    Cases.AsAsked env T from (q + fuel) ->
    Forall blank all ->
    exists all' w',
      OutlineView.planLoop fuel env OutlineView.BATCH_SIZE cfg o all w
      = Some (all', Returned tt, w')
      /\ Z.of_nat (length all') = Z.max (20 * Z.of_nat q) T
      /\ Forall blank all'
      /\ kept w w'.
Proof.
  induction fuel as [|fuel IH]; intros q all w Hlen Hreq Hfuel Hans Hall;
    [lia|].
  destruct (Z.lt_ge_cases (20 * Z.of_nat q) T) as [Hlt|Hge].
  - destruct (planLoop_batch fuel q all w Hlen Hreq Hlt)
      as (batch & w1 & Hstep & Hblen & Hblank & Hreq1 & Hkept1).
    { intros j cfg' o' prev Hj. apply Hans. lia. }
    rewrite Hstep.
    assert (Forall blank (all ++ batch)) as Hall1
      by (apply Forall_app; auto).
    destruct (Z.le_gt_cases 20 (T - 20 * Z.of_nat q)) as [Hfull|Hlast].
    + destruct (IH (S q) (all ++ batch) w1) as (all' & w' & Hrun & Hl & Hb & Hk).
      * rewrite length_app, Hblen, Hlen. unfold OutlineView.BATCH_SIZE. lia.
      * exact Hreq1.
      * lia.
      * intros j cfg' o' prev Hj. apply Hans. lia.
      * exact Hall1.
      * exists all', w'. split; [exact Hrun|]. split; [lia|].
        split; [exact Hb|].
        unfold kept in *. intuition congruence.
    + destruct fuel as [|fuel]; [lia|].
      rewrite planLoop_finished.
      * exists (all ++ batch), w1. split; [reflexivity|].
        split; [|split; [exact Hall1|exact Hkept1]].
        rewrite length_app, Hblen, Hlen. unfold OutlineView.BATCH_SIZE. lia.
      * rewrite length_app, Hblen, Hlen. unfold OutlineView.BATCH_SIZE. lia.
  - rewrite planLoop_finished by lia.
    exists all, w. split; [reflexivity|]. split; [lia|].
    split; [exact Hall|]. unfold kept. auto.
Qed.

Lemma planLoop_refused e :
  isTransient e = false ->
  forall m fuel q all w,
    length all = 20 * q ->
    requests (inner (ai w)) = from + q ->
    m < fuel ->
    (20 * Z.of_nat (q + m) < T)%Z ->
    Cases.AsAsked env T from (q + m) ->
    (forall req, provider env (from + (q + m)) req = Thrown e) ->
    Forall blank all ->
    exists all' w',
      OutlineView.planLoop fuel env OutlineView.BATCH_SIZE cfg o all w
      = Some (all', Thrown e, w')
      /\ length all' = 20 * (q + m)
      /\ Forall blank all'
      /\ kept w w'.
Proof.
  intros Htr. induction m as [|m IH];
    intros fuel q all w Hlen Hreq Hfuel Hlt Hans Hrefused Hall;
    (destruct fuel as [|fuel]; [lia|]).
  - cbn [OutlineView.planLoop]. fold T.
    destruct (Z.ltb_spec (Z.of_nat (length all)) T) as [_|Hge]; [|lia].
    unfold onAi, zoom.
    rewrite (generateChapterBatch_thrown env cfg o _ _ all (ai w) e);
      [|rewrite Hreq; rewrite Nat.add_0_r in Hrefused; apply Hrefused
       |exact Htr].
    eexists. eexists. split; [reflexivity|]. split; [lia|].
    split; [exact Hall|]. unfold kept.
    cbn [ai fs application writer outlineView]. auto.
  - destruct (planLoop_batch fuel q all w Hlen Hreq ltac:(lia))
      as (batch & w1 & Hstep & Hblen & Hblank & Hreq1 & Hkept1).
    { intros j cfg' o' prev Hj. apply Hans. lia. }
    rewrite Hstep.
    destruct (IH fuel (S q) (all ++ batch) w1) as (all' & w' & Hrun & Hl & Hb & Hk).
    + rewrite length_app, Hblen, Hlen. unfold OutlineView.BATCH_SIZE. lia.
    + exact Hreq1.
    + lia.
    + replace (S q + m) with (q + S m) by lia. exact Hlt.
    + replace (S q + m) with (q + S m) by lia. exact Hans.
    + replace (S q + m) with (q + S m) by lia. exact Hrefused.
    + apply Forall_app; auto.
    + exists all', w'. split; [exact Hrun|]. split; [lia|].
      split; [exact Hb|]. unfold kept in *. intuition congruence.
Qed.

End PlanningRuns.

Lemma updateActiveNovel_active env a u n :
  App.activeNovel a = Some n ->
  Novel.id n <> [] ->
  exists now,
    App.activeNovel (App.updateActiveNovel env (AppState.activeNovelId a) u a)
    = Some (App.merge n u now).
Proof.
  intros Hn Hne. unfold App.activeNovel in Hn.
  destruct a as [novs act ready stored reads].
  cbn [AppState.novels AppState.activeNovelId] in *.
  destruct (list_find _ novs) as [[i x]|] eqn:Hfind; [|discriminate].
  cbn in Hn. injection Hn as ->.
  pose proof Hfind as Hfind'. apply list_find_Some in Hfind' as (_ & Hid & _).
  subst act. unfold App.updateActiveNovel.
  destruct (isEmpty (Novel.id n)) eqn:Hempty.
  { destruct (Novel.id n); [destruct Hne; reflexivity|discriminate]. }
  cbn [AppState.novels AppState.clockReads].
  destruct (mapUpdates_find env (Novel.id n) u _ reads _ _ Hfind)
    as (now & Hnow).
  destruct (App.mapUpdates env (Novel.id n) u novs reads)
    as [novels' reads'].
  cbn [fst] in Hnow. unfold App.setNovels.
  cbn [AppState.novels AppState.activeNovelId AppState.isFileSystemReady
       AppState.localStorage AppState.clockReads].
  destruct (persistLibrary_novels
              (AppState.mk novels' (Some (Novel.id n)) ready stored reads'))
    as (Hnov & Hact).
  exists now. unfold App.activeNovel. rewrite Hnov, Hact.
  cbn [AppState.novels AppState.activeNovelId]. rewrite Hnow. reflexivity.
Qed.

(** X16. Planning with a provider that gives what is asked.  From the
    outline view of a novel with target count T, when every batch call is
    answered with exactly the number of entries it asks for, the press
    returns and the novel shown is the same novel at the writing step with
    exactly T chapters (none when T is not positive), each without a body
    and with the generated flag off; the generating flag and the progress
    of the view are cleared and no alert is shown. *)
Theorem plan_exact env w n fuel :
  App.activeNovel (application w) = Some n ->
  Novel.id n <> [] ->
  Novel.step n = OUTLINE ->
  let T := NovelConfig.targetChapterCount (Novel.config n) in
  Z.to_nat T < fuel ->
  Cases.AsAsked env T (requests (inner (ai w))) fuel ->
  exists w' now planned,
    pressGenerateChapters fuel env w = Some (Returned tt, w')
    /\ App.activeNovel (application w')
       = Some (Novel.mk (Novel.id n) now (Novel.config n) (Novel.outline n)
                 planned (Novel.currentChapterId n) WRITING)
    /\ length planned = Z.to_nat T
    /\ Forall (fun c => Chapter.content c = []
                        /\ Chapter.isGenerated c = false) planned
    /\ OutlineState.isGenerating (outlineView w') = false
    /\ OutlineState.progress (outlineView w') = None
    /\ OutlineState.alerts (outlineView w') = OutlineState.alerts (outlineView w).
Proof.
  intros Hact Hid Hstep T Hfuel Hans.
  unfold pressGenerateChapters, App.outlineProps. rewrite Hact, Hstep.
  unfold OutlineView.handleGenerateChapters.
  cbn [OutlineView.config OutlineView.outline OutlineView.onChaptersGenerated].
  match goal with
  | |- context [OutlineView.planLoop fuel env _ _ _ [] ?x] => set (w0 := x)
  end.
  destruct (planLoop_exact env (Novel.config n) (Novel.outline n)
              (requests (inner (ai w))) fuel 0 [] w0)
    as (all' & w1 & Hloop & Hlen & Hblank & Hfs & Happ & Hwr & Hgen & Hal).
  - reflexivity.
  - subst w0. cbn. lia.
  - fold T. lia.
  - exact Hans.
  - constructor.
  - rewrite Hloop.
    destruct (updateActiveNovel_active env (application w)
                (App.mkUpdates None None (Some all') (Some WRITING)) n
                Hact Hid) as (now & Hnow).
    unfold tryFinally, tryCatch, App.handleChaptersGenerated, onApp, zoom,
      modify.
    eexists. exists now, all'. split; [reflexivity|].
    cbn [ai fs application writer outlineView].
    rewrite Happ. change (application w0) with (application w).
    split; [exact Hnow|]. split; [fold T in Hlen; lia|].
    split; [exact Hblank|]. split; [reflexivity|]. split; [reflexivity|].
    cbn. rewrite Hal. reflexivity.
Qed.

(** X17. Planning that a failure interrupts.  When the first m batch
    calls are answered as asked, with more chapters still to plan, and the
    next call is refused with an error that is not transient, the press
    still returns: one alert is shown and the generating flag and the
    progress are cleared.  With m = 0 the library is left as it was; with
    m > 0 the 20 m chapters planned so far are committed and the novel
    moves to the writing step with them. *)
Theorem plan_interrupted env w n fuel m e :
  App.activeNovel (application w) = Some n ->
  Novel.id n <> [] ->
  Novel.step n = OUTLINE ->
  let T := NovelConfig.targetChapterCount (Novel.config n) in
  m < fuel ->
  (20 * Z.of_nat m < T)%Z ->
  Cases.AsAsked env T (requests (inner (ai w))) m ->
  (forall req, provider env (requests (inner (ai w)) + m) req = Thrown e) ->
  isTransient e = false ->
  exists w',
    pressGenerateChapters fuel env w = Some (Returned tt, w')
    /\ OutlineState.alerts (outlineView w')
       = S (OutlineState.alerts (outlineView w))
    /\ OutlineState.isGenerating (outlineView w') = false
    /\ OutlineState.progress (outlineView w') = None
    /\ (m = 0 -> application w' = application w)
    /\ (0 < m ->
        exists now planned,
          App.activeNovel (application w')
          = Some (Novel.mk (Novel.id n) now (Novel.config n)
                    (Novel.outline n) planned (Novel.currentChapterId n)
                    WRITING)
          /\ length planned = 20 * m
          /\ Forall (fun c => Chapter.content c = []
                              /\ Chapter.isGenerated c = false) planned).
Proof.
  intros Hact Hid Hstep T Hfuel Hmore Hans Hrefused Htr.
  unfold pressGenerateChapters, App.outlineProps. rewrite Hact, Hstep.
  unfold OutlineView.handleGenerateChapters.
  cbn [OutlineView.config OutlineView.outline OutlineView.onChaptersGenerated].
  match goal with
  | |- context [OutlineView.planLoop fuel env _ _ _ [] ?x] => set (w0 := x)
  end.
  destruct (planLoop_refused env (Novel.config n) (Novel.outline n)
              (requests (inner (ai w))) e Htr m fuel 0 [] w0)
    as (all' & w1 & Hloop & Hlen & Hblank & Hfs & Happ & Hwr & Hgen & Hal).
  - reflexivity.
  - subst w0. cbn. lia.
  - exact Hfuel.
  - exact Hmore.
  - exact Hans.
  - exact Hrefused.
  - constructor.
  - rewrite Hloop. cbn [Nat.add] in Hlen.
    unfold tryFinally, tryCatch, throw, bind, onOutlineView, modify, when.
    destruct all' as [|c0 rest].
    + assert (m = 0) as -> by (cbn in Hlen; lia).
      eexists. split; [reflexivity|].
      cbn [ai fs application writer outlineView length Nat.ltb Nat.leb].
      rewrite Happ.
      split; [cbn; rewrite Hal; reflexivity|].
      split; [reflexivity|]. split; [reflexivity|].
      split; [reflexivity|]. intros; lia.
    + assert (0 < m) as Hm by (cbn in Hlen; lia).
      destruct (updateActiveNovel_active env (application w)
                  (App.mkUpdates None None (Some (c0 :: rest)) (Some WRITING))
                  n Hact Hid) as (now & Hnow).
      unfold App.handleChaptersGenerated, onApp, zoom, modify, ret.
      cbn [length Nat.ltb Nat.leb].
      eexists. split; [reflexivity|].
      cbn [ai fs application writer outlineView].
      rewrite Happ. change (application w0) with (application w).
      split; [cbn; rewrite Hal; reflexivity|].
      split; [reflexivity|]. split; [reflexivity|].
      split; [intros; lia|]. intros _.
      exists now, (c0 :: rest). split; [exact Hnow|]. split; [exact Hlen|].
      exact Hblank.
Qed.

Lemma entriesUntil_asked (limit count : nat) :
  2 <= limit -> Cases.AsAsked (Cases.entriesUntil limit) 25 0 count.
Proof.
  intros Hlimit j cfg o prev _ Hj.
  assert (j = 0 \/ j = 1) as [-> | ->] by lia.
  - exists (Some (Cases.entriesText 20)), (replicate 20 (JObject [])).
    split.
    { cbn [Cases.entriesUntil provider Nat.add].
      destruct (Nat.ltb_spec 0 limit); [reflexivity|lia]. }
    split; [vm_compute; reflexivity|].
    split; [|reflexivity].
    apply Forall_forall. intros x [-> _]%elem_of_replicate. discriminate.
  - exists (Some (Cases.entriesText 5)), (replicate 5 (JObject [])).
    split.
    { cbn [Cases.entriesUntil provider Nat.add].
      destruct (Nat.ltb_spec 1 limit); [reflexivity|lia]. }
    split; [vm_compute; reflexivity|].
    split; [|reflexivity].
    apply Forall_forall. intros x [-> _]%elem_of_replicate. discriminate.
Qed.

Lemma entriesUntil_first : Cases.AsAsked (Cases.entriesUntil 1) 25 0 1.
Proof.
  intros j cfg o prev Hj _. assert (j = 0) as -> by lia.
  exists (Some (Cases.entriesText 20)), (replicate 20 (JObject [])).
  split; [reflexivity|]. split; [vm_compute; reflexivity|].
  split; [|reflexivity].
  apply Forall_forall. intros x [-> _]%elem_of_replicate. discriminate.
Qed.

(** A target of 25: a batch of 20 and a batch of 5. *)
Lemma plan_exact_witness :
  exists w' now planned,
    pressGenerateChapters 26 (Cases.entriesUntil 2)
      (world (novel [] OUTLINE) None)
    = Some (Returned tt, w')
    /\ App.activeNovel (application w')
       = Some (Novel.mk [1%N] now (config 25) (lit "outline") planned None
                 WRITING)
    /\ length planned = 25.
Proof.
  destruct (plan_exact (Cases.entriesUntil 2) (world (novel [] OUTLINE) None)
              (novel [] OUTLINE) 26 eq_refl ltac:(discriminate) eq_refl)
    as (w' & now & planned & Hrun & Hact & Hlen & _).
  - vm_compute. lia.
  - apply entriesUntil_asked. lia.
  - exists w', now, planned. auto.
Defined.

(** A target of 25: a batch of 20, then the provider refuses. *)
Lemma plan_interrupted_witness :
  exists w' now planned,
    pressGenerateChapters 26 (Cases.entriesUntil 1)
      (world (novel [] OUTLINE) None)
    = Some (Returned tt, w')
    /\ OutlineState.alerts (outlineView w') = 1
    /\ App.activeNovel (application w')
       = Some (Novel.mk [1%N] now (config 25) (lit "outline") planned None
                 WRITING)
    /\ length planned = 20.
Proof.
  destruct (plan_interrupted (Cases.entriesUntil 1)
              (world (novel [] OUTLINE) None) (novel [] OUTLINE) 26 1
              (newError (lit "quota exceeded"))
              eq_refl ltac:(discriminate) eq_refl)
    as (w' & Hrun & Hal & _ & _ & _ & Hsome).
  - lia.
  - vm_compute. reflexivity.
  - apply entriesUntil_first.
  - intros req. reflexivity.
  - reflexivity.
  - destruct (Hsome ltac:(lia)) as (now & planned & Hact & Hlen & _).
    exists w', now, planned. auto.
Defined.

(** ** Generation under an overloaded provider *)

(** X18. Generating a chapter body under transient failures.  When the
    provider fails the first k requests of the call with transient errors,
    k at most 3, and the next request is final (it is answered, or its
    error is not transient, or k = 3), the call makes exactly k + 1
    requests, waits 2000, 4000, ... before the retries, and ends as that
    last request does: with the answer's text, the fixed text for an
    answer without text, or the last error. *)
Theorem generateChapterContent_retried env cfg c ctx o s k errs :
  let req :=
    ContentRequest cfg (Chapter.title c) (Chapter.summary c) ctx
      (sliceFirst 800 o) in
  let asked := requests (inner s) in
  let run := generateChapterContent env cfg c ctx o s in
  k <= 3 ->
  (forall i, i < k ->
             provider env (asked + i) req = Thrown (errs i)
             /\ isTransient (errs i) = true) ->
  match provider env (asked + k) req with
  | Returned _ => True
  | Thrown e => isTransient e = false \/ k = 3
  end ->
  fst run
  = match provider env (asked + k) req with
    | Returned text => Returned (textOr text emptyContentText)
    | Thrown e => Thrown e
    end
  /\ requests (inner (snd run)) = asked + k + 1
  /\ exists steps,
       timeline (snd run) = timeline s ++ steps
       /\ invocations steps = k + 1
       /\ delays steps
          = map (fun i => (2000 * 2 ^ Z.of_nat i)%Z) (seq 0 k).
Proof.
  intros req asked run Hk Hfail Hfinal. subst run.
  destruct s as [[r u p] tl]. cbn [inner timeline requests] in *.
  subst asked. unfold generateChapterContent. fold req.
  set (operation := (text <- generateContent env req ;;
                     ret (textOr text emptyContentText))).
  destruct (callAIWithRetry_backoff operation k defaultRetries
              defaultBaseDelay (fun i => mkAi (i + r) u p) errs tl Hk)
    as (steps & Hrun & Hinv & Hdel).
  { intros i Hi. destruct (Hfail i Hi) as (Hp & Htr).
    split; [|exact Htr]. unfold operation, bind, generateContent.
    cbn [requests uuids parseErrors].
    rewrite (Nat.add_comm r i) in Hp. rewrite Hp. reflexivity. }
  cbn [Nat.add] in Hrun. rewrite Hrun.
  assert (forall v,
             operation (mkAi (k + r) u p)
             = (match provider env (r + k) req with
                | Returned text => Returned (textOr text emptyContentText)
                | Thrown e => Thrown e
                end, mkAi (S (k + r)) u p) ->
             v = callAIWithRetry operation (defaultRetries - k)
                   (defaultBaseDelay * 2 ^ Z.of_nat k)
                   (mkTimed (mkAi (k + r) u p) (tl ++ steps)) ->
             v = (match provider env (r + k) req with
                  | Returned text => Returned (textOr text emptyContentText)
                  | Thrown e => Thrown e
                  end,
                  mkTimed (mkAi (S (k + r)) u p)
                    ((tl ++ steps) ++ [Invoked]))) as Hlast.
  { intros v Hop ->. destruct (provider env (r + k) req) as [text|e].
    - apply callAIWithRetry_returned. exact Hop.
    - destruct Hfinal as [Htr | ->].
      + apply callAIWithRetry_fatal; assumption.
      + apply callAIWithRetry_exhausted. exact Hop. }
  assert (operation (mkAi (k + r) u p)
          = (match provider env (r + k) req with
             | Returned text => Returned (textOr text emptyContentText)
             | Thrown e => Thrown e
             end, mkAi (S (k + r)) u p)) as Hop.
  { unfold operation, bind, generateContent.
    cbn [requests uuids parseErrors]. rewrite (Nat.add_comm r k).
    destruct (provider env (k + r) req); reflexivity. }
  rewrite (Hlast _ Hop eq_refl).
  cbn [fst snd inner timeline requests].
  split; [reflexivity|]. split; [lia|].
  exists (steps ++ [Invoked]). rewrite app_assoc.
  split; [reflexivity|]. rewrite invocations_app, delays_app, Hinv, Hdel.
  split; [reflexivity|]. cbn [delays]. rewrite app_nil_r. reflexivity.
Qed.

(** Two overloaded requests, then a story: three requests and the waits
    2000 and 4000. *)
Lemma generateChapterContent_retried_witness :
  fst (generateChapterContent (Cases.overloadedUntil 2) (config 25)
         (chapter 0 []) [] [] freshAi)
  = Returned story
  /\ requests (inner (snd (generateChapterContent (Cases.overloadedUntil 2)
                             (config 25) (chapter 0 []) [] [] freshAi)))
     = 3.
Proof.
  destruct (generateChapterContent_retried (Cases.overloadedUntil 2)
              (config 25) (chapter 0 []) [] [] freshAi 2
              (fun _ => mkError (Some 503%Z) None))
    as (Hres & Hreq & _).
  - lia.
  - intros i Hi. assert (i = 0 \/ i = 1) as [-> | ->] by lia;
      split; reflexivity.
  - exact I.
  - split; [exact Hres|exact Hreq].
Defined.

(** ** What every press of the continuation button keeps *)

Lemma addLog_bound msg s : length (logs (addLog msg s)) <= 5.
Proof.
  unfold addLog. cbn [logs]. rewrite length_app, length_drop. cbn [length].
  lia.
Qed.

Lemma addLog_keeps msg s :
  awaited (addLog msg s) = awaited s /\ alerts (addLog msg s) = alerts s.
Proof. split; reflexivity. Qed.

Lemma whilePending_logs env s :
  length (logs s) <= 5 -> length (logs (whilePending env s)) <= 5.
Proof.
  intros Hs. unfold whilePending.
  destruct (stopPressed env (awaited s) && stopButtonShown s).
  - apply addLog_bound.
  - destruct s; exact Hs.
Qed.

Lemma unit_start_facts (s : WriterState.t) (id : Id) (i total : nat) :
  let s1 :=
    setBatchProgress (Some (i + 1, total))
      (addLog (Writing (i + 1) total) (setActiveChapterId (Some id) s)) in
  length (logs s1) <= 5 /\ awaited s1 = awaited s /\ alerts s1 = alerts s.
Proof.
  cbn zeta. split; [|destruct s; split; reflexivity].
  unfold setBatchProgress. cbn [logs]. apply addLog_bound.
Qed.

Lemma batchLoop_bounds env aid n ready total P :
  forall left i lc w,
    length (logs (writer w)) <= 5 ->
    length (logs (writer (snd (batchLoop env
                                 (App.writerPropsFor env aid n ready) total P
                                 left i lc w)))) <= 5
    /\ awaited (writer (snd (batchLoop env
                               (App.writerPropsFor env aid n ready) total P
                               left i lc w)))
       <= awaited (writer w) + 3 * left
    /\ alerts (writer (snd (batchLoop env
                              (App.writerPropsFor env aid n ready) total P
                              left i lc w)))
       = alerts (writer w)
    /\ outlineView (snd (batchLoop env
                           (App.writerPropsFor env aid n ready) total P
                           left i lc w))
       = outlineView w.
Proof.
  induction left as [|left IH]; intros i lc w Hlogs.
  - rewrite batchLoop_done. cbn [snd]. repeat split; [exact Hlogs|lia].
  - destruct (abortBatchRef (writer w)) eqn:Hab.
    { rewrite (batchLoop_aborted _ _ _ _ _ _ _ _ Hab).
      cbn [snd writer outlineView].
      split; [apply addLog_bound|].
      destruct (addLog_keeps UserStopped (writer w)) as (-> & ->).
      repeat split. lia. }
    destruct (lc !! (P + i)) as [c|] eqn:Hc.
    2:{ rewrite (batchLoop_end _ _ _ _ _ _ _ _ Hab Hc).
        cbn [snd writer outlineView].
        split; [apply addLog_bound|].
        destruct (addLog_keeps ReachedLastChapter (writer w)) as (-> & ->).
        repeat split. lia. }
    rewrite (batchLoop_step env aid n ready total P left i lc w c Hab Hc).
    cbn zeta.
    destruct (unit_start_facts (writer w) (Chapter.id c) i total)
      as (Hl1 & Haw1 & Hal1).
    set (s1 := setBatchProgress (Some (i + 1, total))
                 (addLog (Writing (i + 1) total)
                    (setActiveChapterId (Some (Chapter.id c)) (writer w))))
      in *.
    destruct (whilePending_facts env s1) as (_ & _ & W2 & _ & L2 & _).
    pose proof (whilePending_logs env s1 Hl1) as Hl2.
    destruct (generateChapterContent env (Novel.config n) c (getContext c lc)
                (Novel.outline n) (ai w)) as [[text|e] a'].
    + set (s2 := whilePending env s1) in *.
      destruct (whilePending_facts env s2) as (_ & _ & W3 & _ & L3 & _).
      pose proof (whilePending_logs env s2 Hl2) as Hl3.
      set (s3 := whilePending env s2) in *.
      destruct (addLog_keeps ChapterSaved s3) as (W4 & L4).
      pose proof (addLog_bound ChapterSaved s3) as Hl4.
      set (s4 := addLog ChapterSaved s3) in *.
      destruct (whilePending_facts env s4) as (_ & _ & W5 & _ & L5 & _).
      pose proof (whilePending_logs env s4 Hl4) as Hl5.
      match goal with
      | |- context [batchLoop _ _ _ _ left (S i) ?l ?x] =>
          destruct (IH (S i) l x) as (Hl & Haw & Hal & Hov);
            [exact Hl5|]
      end.
      cbn [writer outlineView] in Haw, Hal, Hov.
      split; [exact Hl|]. split; [|split; [|exact Hov]].
      * rewrite W5, W4, W3, W2, Haw1 in Haw. lia.
      * rewrite Hal, L5, L4, L3, L2. exact Hal1.
    + cbn [snd writer outlineView].
      split; [exact Hl2|]. split; [rewrite W2, Haw1; lia|].
      split; [rewrite L2; exact Hal1|reflexivity].
Qed.

Lemma runEnd_more w2 :
  length (logs (writer w2)) <= 5 ->
  length (logs (writer (runEnd w2))) <= 5
  /\ awaited (writer (runEnd w2)) = awaited (writer w2)
  /\ outlineView (runEnd w2) = outlineView w2.
Proof.
  destruct w2 as [a f ap [act gen prog lg ab reps al aw] o].
  unfold runEnd. cbn [writer abortBatchRef outlineView logs]. intros Hlg.
  destruct ab;
    cbv [setAbort setBatchProgress setIsGenerating addLog logs awaited
         activeChapterId isGenerating batchProgress abortBatchRef
         progressReports alerts];
    (split; [|split; reflexivity]).
  - exact Hlg.
  - rewrite length_app, length_drop. cbn [length]. lia.
Qed.

Lemma runFailed_more w2 :
  length (logs (writer (runFailed w2))) <= 5
  /\ awaited (writer (runFailed w2)) = awaited (writer w2)
  /\ outlineView (runFailed w2) = outlineView w2.
Proof.
  destruct w2 as [a f ap [act gen prog lg ab reps al aw] o].
  unfold runFailed. cbn [writer outlineView].
  cbv [setAbort setBatchProgress setIsGenerating addLog alert logs awaited
       activeChapterId isGenerating batchProgress abortBatchRef
       progressReports alerts].
  split; [|split; reflexivity].
  rewrite length_app, length_drop. cbn [length]. lia.
Qed.

(** X19. Whatever the provider, the storage and the user do, a press of
    the continuation button returns normally.  If no generation was flagged
    as running before, none is after; a log of at most five lines stays at
    most five lines; at most thirty awaited steps pass, which is ten units;
    at most one alert is shown; and the outline view is untouched. *)
Theorem pressBatchGenerate_always env w :
  let w' := snd (pressBatchGenerate env w) in
  fst (pressBatchGenerate env w) = Returned tt
  /\ (isGenerating (writer w) = false -> isGenerating (writer w') = false)
  /\ (length (logs (writer w)) <= 5 -> length (logs (writer w')) <= 5)
  /\ awaited (writer w') <= awaited (writer w) + 30
  /\ length (alerts (writer w')) <= S (length (alerts (writer w)))
  /\ outlineView w' = outlineView w.
Proof.
  cbn zeta. unfold pressBatchGenerate.
  destruct (App.writerProps env (application w)) as [props|] eqn:Hprops.
  2:{ cbn [fst snd]. repeat split; auto; lia. }
  unfold App.writerProps in Hprops.
  destruct (App.activeNovel (application w)) as [n|]; [|discriminate].
  destruct (Novel.step n); try discriminate. injection Hprops as <-.
  rewrite handleBatchGenerate_eq.
  destruct (isGenerating (writer w)) eqn:Hgen.
  { cbn [fst snd]. repeat split; auto; try lia. }
  destruct (bool_decide (length (chapters _) = 0)).
  { cbn [fst snd writer outlineView].
    destruct (writer w) as [act gen prog lg ab reps al aw].
    cbn in *. rewrite length_app. cbn. repeat split; auto; lia. }
  cbn zeta.
  match goal with
  | |- context [findStartIndex ?a ?b] => set (P := findStartIndex a b)
  end.
  destruct (length (chapters _) <=? P).
  { cbn [fst snd writer outlineView].
    destruct (writer w) as [act gen prog lg ab reps al aw].
    cbn in *. rewrite length_app. cbn. repeat split; auto; lia. }
  destruct (runStart_facts w P) as (_ & _ & Haw0 & _ & Hal0).
  assert (length (logs (writer (runStart w P))) <= 5) as Hl0.
  { unfold runStart. cbn [writer]. apply addLog_bound. }
  destruct (batchLoop_bounds env (AppState.activeNovelId (application w)) n
              (AppState.isFileSystemReady (application w))
              chaptersToGenCount P chaptersToGenCount 0 (Novel.chapters n)
              (runStart w P) Hl0) as (Hl & Haw & Hal & Hov).
  cbn [chapters App.writerPropsFor].
  rewrite Haw0 in Haw. rewrite Hal0 in Hal.
  change (outlineView (runStart w P)) with (outlineView w) in Hov.
  destruct (batchLoop env _ chaptersToGenCount P chaptersToGenCount 0
              (Novel.chapters n) (runStart w P)) as [[lc'|e] w2];
    cbn [fst snd] in *; unfold chaptersToGenCount in Haw.
  - destruct (runEnd_facts w2) as (_ & _ & Hg & _ & _ & Hal2).
    destruct (runEnd_more w2 Hl) as (Hl2 & Haw2 & Hov2).
    rewrite Hg, Hal2, Haw2, Hov2, Hal.
    repeat split; auto; lia.
  - destruct (runFailed_facts w2) as (_ & _ & _ & Hg & _ & Hal2).
    destruct (runFailed_more w2) as (Hl2 & Haw2 & Hov2).
    rewrite Hg, Hal2, Haw2, Hov2, Hal, length_app. cbn [length].
    repeat split; auto; lia.
Qed.

(** ** Replacing a chapter from the writer view *)

(** X20. Replacing a chapter in the library from the writer view, with
    the callback the application gives to the view.  The active novel's
    list becomes the list of the render with every chapter of the updated
    chapter's identity replaced by it, whatever the library held: the list
    keeps its length and its identities, chapters of other identities stay
    as the render had them, and a chapter whose identity is not in the list
    changes nothing in it.  Services and the writer state are untouched. *)
Theorem updateChapterInState_spec env w n ready u :
  is_Some (App.activeNovel (application w)) ->
  AppState.activeNovelId (application w) <> Some [] ->
  let props :=
    App.writerPropsFor env (AppState.activeNovelId (application w)) n ready in
  let replaced := WriterActions.replaceChapter u (Novel.chapters n) in
  exists w',
    WriterActions.updateChapterInState props u w = (Returned tt, w')
    /\ App.activeChapters (application w') = Some replaced
    /\ ai w' = ai w /\ fs w' = fs w /\ writer w' = writer w
    /\ length replaced = length (Novel.chapters n)
    /\ map Chapter.id replaced = map Chapter.id (Novel.chapters n)
    /\ (forall i c,
          Novel.chapters n !! i = Some c ->
          replaced !! i
          = Some (if bool_decide (Chapter.id c = Chapter.id u) then u else c))
    /\ ((forall c, c ∈ Novel.chapters n -> Chapter.id c <> Chapter.id u) ->
        replaced = Novel.chapters n).
Proof.
  intros Hact Hne. cbn zeta.
  destruct (updateActiveNovel_chapters env (application w)
              (WriterActions.replaceChapter u (Novel.chapters n)) Hact Hne)
    as (_ & _ & Hch).
  unfold WriterActions.updateChapterInState.
  cbn [onUpdateChapters chapters App.writerPropsFor].
  unfold onApp, zoom, modify. eexists. split; [reflexivity|].
  cbn [ai fs application writer].
  split; [exact Hch|]. split; [reflexivity|]. split; [reflexivity|].
  split; [reflexivity|]. unfold WriterActions.replaceChapter.
  split; [apply length_map|]. split; [|split].
  - rewrite map_map. apply map_ext. intros c.
    destruct (bool_decide (Chapter.id c = Chapter.id u)) eqn:Hc;
      [|reflexivity].
    apply bool_decide_eq_true in Hc. congruence.
  - intros i c Hi. change (map ?f ?l) with (f <$> l).
    rewrite list_lookup_fmap, Hi. reflexivity.
  - intros Hfresh. clear Hch.
    induction (Novel.chapters n) as [|c cs IH]; [reflexivity|].
    cbn [map]. rewrite bool_decide_eq_false_2 by (apply Hfresh; left).
    f_equal. apply IH. intros x Hx. apply Hfresh. right. exact Hx.
Qed.

Lemma updateChapterInState_spec_witness :
  exists w',
    WriterActions.updateChapterInState
      (App.writerPropsFor storyEnv (Some [1%N]) (novel threeUnits WRITING)
         true)
      (Chapter.mk [2%N] (lit "t") (lit "s") story false)
      (world (novel threeUnits WRITING) None)
    = (Returned tt, w')
    /\ App.activeChapters (application w')
       = Some [chapter 0 (letters 50); chapter 1 (letters 49);
               chapter 2 story].
Proof.
  destruct (updateChapterInState_spec storyEnv
              (world (novel threeUnits WRITING) None)
              (novel threeUnits WRITING) true
              (Chapter.mk [2%N] (lit "t") (lit "s") story false))
    as (w' & Hrun & Hch & _).
  - vm_compute. eauto.
  - discriminate.
  - exists w'. split; [exact Hrun|exact Hch].
Defined.

(** ** Saving the configuration and drafting the outline *)

Section ConfigSaving.
Import ConfigSave.

#[local] Arguments FileSystemService.saveNovelConfig : simpl never.
#[local] Arguments FileSystemService.saveOutline : simpl never.
#[local] Arguments generateOutline : simpl never.
#[local] Arguments App.setNovels : simpl never.

Lemma updateActiveNovel_id env aid u s :
  AppState.activeNovelId (App.updateActiveNovel env aid u s)
  = AppState.activeNovelId s.
Proof.
  unfold App.updateActiveNovel. destruct aid as [id|]; [|reflexivity].
  destruct (isEmpty id); [reflexivity|].
  destruct (App.mapUpdates env id u (AppState.novels s)
              (AppState.clockReads s)) as [novels' reads'].
  unfold App.setNovels. rewrite (proj2 (persistLibrary_novels _)).
  reflexivity.
Qed.

Lemma replaceNovel_active (s : AppState.t) (x updated : Novel.t) :
  App.activeNovel s = Some x ->
  Novel.id updated = Novel.id x ->
  App.activeNovel
    (App.setNovels (replaceNovel (AppState.activeNovelId s) updated) s)
  = Some updated
  /\ AppState.localStorage
       (App.setNovels (replaceNovel (AppState.activeNovelId s) updated) s)
     = Some (AppState.novels
               (App.setNovels (replaceNovel (AppState.activeNovelId s) updated)
                  s)).
Proof.
  intros Hact Hid. pose proof (activeNovel_id _ _ Hact) as Haid.
  unfold App.activeNovel in *. unfold App.setNovels.
  destruct s as [novs act ready stored reads].
  cbn [AppState.novels AppState.activeNovelId AppState.isFileSystemReady
       AppState.localStorage AppState.clockReads] in *.
  subst act.
  assert (list_find (fun n => Some (Novel.id n) = Some (Novel.id x))
            (replaceNovel (Some (Novel.id x)) updated novs)
          <> None
          /\ snd <$> list_find (fun n => Some (Novel.id n) = Some (Novel.id x))
                       (replaceNovel (Some (Novel.id x)) updated novs)
             = Some updated) as (Hsome & Hfound).
  { clear -Hact Hid. induction novs as [|n novs IH]; [discriminate|].
    cbn [list_find] in Hact. cbn [replaceNovel map list_find].
    destruct (decide (Some (Novel.id n) = Some (Novel.id x))) as [Hn|Hn].
    - rewrite bool_decide_eq_true_2 by exact Hn.
      rewrite decide_True by congruence. split; [discriminate|reflexivity].
    - rewrite bool_decide_eq_false_2 by exact Hn.
      rewrite decide_False by exact Hn.
      destruct (list_find _ novs) as [[j y]|] eqn:Hrest; [|discriminate].
      assert (snd <$> Some (j, y) = Some x) as Hy by (cbn in *; congruence).
      destruct (IH Hy) as (Hs & Hf).
      fold (replaceNovel (Some (Novel.id x)) updated novs).
      destruct (list_find _ (replaceNovel (Some (Novel.id x)) updated novs))
        as [[k z]|]; [|congruence].
      split; [discriminate|exact Hf]. }
  unfold App.persistLibrary.
  cbn [AppState.novels AppState.activeNovelId AppState.isFileSystemReady
       AppState.localStorage AppState.clockReads].
  destruct (replaceNovel (Some (Novel.id x)) updated novs) as [|m rest]
    eqn:Hrep; [destruct Hsome; reflexivity|].
  cbn [length Nat.ltb Nat.leb AppState.novels AppState.activeNovelId
       AppState.localStorage].
  split; [exact Hfound|reflexivity].
Qed.

Lemma generateOutline_nonempty answers cfg s outline s' :
  generateOutline answers cfg s = (Returned outline, s') -> outline <> [].
Proof.
  unfold generateOutline. intros Hrun.
  apply callAIWithRetry_inv in Hrun. destruct Hrun as (x & x' & Hop).
  unfold bind, generateOutlineContent in Hop.
  destruct (answers _ _) as [t|e]; [|discriminate].
  cbn in Hop. injection Hop as <- _. apply textOr_nonempty. discriminate.
Qed.

Lemma handleConfigSave_run env answers aid a ready newConfig w gen al :
  handleConfigSave env answers aid a ready newConfig (mkView w gen al)
  = let app1 :=
      App.updateActiveNovel env aid
        (App.mkUpdates (Some newConfig) None None None) (application w) in
    let f1 :=
      if ready
      then snd (FileSystemService.saveNovelConfig env (withConfig a newConfig)
                  (fs w))
      else fs w in
    match generateOutline answers newConfig (ai w) with
    | (Returned outline, a') =>
        (Returned tt,
         mkView
           (mkWorld a'
              (if ready
               then snd (FileSystemService.saveOutline env
                           (withOutline a newConfig outline) f1)
               else f1)
              (App.setNovels
                 (replaceNovel aid (withOutline a newConfig outline)) app1)
              (writer w) (outlineView w))
           false al)
    | (Thrown _, a') =>
        (Returned tt,
         mkView (mkWorld a' f1 app1 (writer w) (outlineView w)) false (S al))
    end.
Proof.
  cbn zeta.
  set (app1 := App.updateActiveNovel env aid
                 (App.mkUpdates (Some newConfig) None None None)
                 (application w)).
  assert (exists f1,
             (if ready
              then snd (FileSystemService.saveNovelConfig env
                          (withConfig a newConfig) (fs w))
              else fs w) = f1
             /\ saveConfigToDisk env ready (withConfig a newConfig)
                  (mkWorld (ai w) (fs w) app1 (writer w) (outlineView w))
                = (Returned tt,
                   mkWorld (ai w) f1 app1 (writer w) (outlineView w)))
    as (f1 & Hf1 & Hsave1).
  { unfold saveConfigToDisk. destruct ready.
    - unfold onFs, zoom. cbn [fs].
      destruct (Total_saveNovelConfig env (withConfig a newConfig) (fs w))
        as ([] & Hret).
      destruct (FileSystemService.saveNovelConfig env
                  (withConfig a newConfig) (fs w)) as [r f'].
      cbn [fst snd] in *. subst r. eexists. split; reflexivity.
    - eexists. split; reflexivity. }
  rewrite Hf1.
  unfold handleConfigSave, setIsGenerating, tryFinally, tryCatch.
  unfold bind at 1. unfold modify at 1. cbn [shown appGenerating appAlerts].
  unfold bind at 1. unfold onWorld at 1, zoom at 1, onApp at 1, zoom at 1,
    modify at 1. cbn [shown appGenerating appAlerts application ai fs writer
                        outlineView].
  fold app1.
  unfold bind at 1. unfold onWorld at 1, zoom at 1.
  cbn [shown appGenerating appAlerts]. rewrite Hsave1.
  unfold bind at 1. unfold onWorld at 1, zoom at 1, onAi at 1, zoom at 1.
  cbn [shown appGenerating appAlerts application ai fs writer outlineView].
  destruct (generateOutline answers newConfig (ai w)) as [[outline|e] a'].
  - unfold bind at 1. unfold onWorld at 1, zoom at 1, onApp at 1, zoom at 1,
      modify at 1.
    cbn [shown appGenerating appAlerts application ai fs writer outlineView].
    unfold onWorld, zoom, saveOutlineToDisk.
    cbn [shown appGenerating appAlerts].
    destruct ready.
    + unfold onFs, zoom. cbn [fs].
      destruct (Total_saveOutline env (withOutline a newConfig outline) f1)
        as ([] & Hret).
      destruct (FileSystemService.saveOutline env
                  (withOutline a newConfig outline) f1) as [r f2].
      cbn [fst snd] in *. subst r. reflexivity.
    + reflexivity.
  - reflexivity.
Qed.

(** X21. Submitting the setup form of the novel shown.  The handler
    always returns and clears the generating flag.  When the outline call
    returns, the novel shown becomes the novel of the render with the new
    configuration, the outline returned, which is never empty, and the
    outline step; its modification time is the one of the render; the
    library is stored; no alert is shown; with a connected directory the
    configuration and then the outline are saved.  When the outline call
    throws, the novel keeps its step and outline, has the new configuration
    and a new modification time, one alert is shown and only the
    configuration is saved. *)
Theorem submitConfig_outline env answers newConfig v a :
  App.activeNovel (application (shown v)) = Some a ->
  Novel.id a <> [] ->
  Novel.step a = SETUP ->
  let w := shown v in
  let ready := AppState.isFileSystemReady (application w) in
  let after := snd (submitConfig env answers newConfig v) in
  let configSaved :=
    if ready
    then snd (FileSystemService.saveNovelConfig env (withConfig a newConfig)
                (fs w))
    else fs w in
  fst (submitConfig env answers newConfig v) = Returned tt
  /\ appGenerating after = false
  /\ match generateOutline answers newConfig (ai w) with
     | (Returned outline, a') =>
         ai (shown after) = a'
         /\ App.activeNovel (application (shown after))
            = Some (withOutline a newConfig outline)
         /\ outline <> []
         /\ AppState.localStorage (application (shown after))
            = Some (AppState.novels (application (shown after)))
         /\ appAlerts after = appAlerts v
         /\ fs (shown after)
            = (if ready
               then snd (FileSystemService.saveOutline env
                           (withOutline a newConfig outline) configSaved)
               else fs w)
     | (Thrown _, a') =>
         ai (shown after) = a'
         /\ (exists now,
               App.activeNovel (application (shown after))
               = Some (Novel.mk (Novel.id a) now newConfig (Novel.outline a)
                         (Novel.chapters a) (Novel.currentChapterId a) SETUP))
         /\ appAlerts after = S (appAlerts v)
         /\ fs (shown after) = configSaved
     end.
Proof.
  intros Hact Hid Hstep. cbn zeta.
  unfold submitConfig. rewrite Hact, Hstep.
  destruct v as [w gen al]. cbn [shown appGenerating appAlerts] in *.
  rewrite handleConfigSave_run. cbn zeta.
  destruct (updateActiveNovel_active env (application w)
              (App.mkUpdates (Some newConfig) None None None) a Hact Hid)
    as (now & Hnow).
  pose proof (updateActiveNovel_id env (AppState.activeNovelId (application w))
                (App.mkUpdates (Some newConfig) None None None)
                (application w)) as Haid.
  set (app1 := App.updateActiveNovel env
                 (AppState.activeNovelId (application w))
                 (App.mkUpdates (Some newConfig) None None None)
                 (application w)) in *.
  destruct (generateOutline answers newConfig (ai w)) as [[outline|e] a']
    eqn:Hrun; cbn [fst snd shown appGenerating appAlerts ai fs application].
  - pose proof (generateOutline_nonempty _ _ _ _ _ Hrun) as Hne.
    destruct (replaceNovel_active app1 _ (withOutline a newConfig outline)
                Hnow eq_refl) as (Hact2 & Hstored2).
    rewrite Haid in Hact2, Hstored2.
    split; [reflexivity|]. split; [reflexivity|]. split; [reflexivity|].
    split; [exact Hact2|]. split; [exact Hne|]. split; [exact Hstored2|].
    split; [reflexivity|].
    destruct (AppState.isFileSystemReady (application w)); reflexivity.
  - split; [reflexivity|]. split; [reflexivity|]. split; [reflexivity|].
    split; [|split; reflexivity].
    exists now. rewrite Hnow. unfold App.merge.
    cbn [App.newConfig App.newOutline App.newChapters App.newStep default].
    rewrite Hstep. reflexivity.
Qed.

(** The provider answers the outline request without text: the outline
    is the fixed text and the novel moves on to the outline step. *)
Lemma submitConfig_outline_witness :
  App.activeNovel
    (application
       (shown (snd (submitConfig storyEnv (fun _ _ => Returned None)
                      (config 30)
                      (mkView (world (novel [] SETUP) None) false 0)))))
  = Some (Novel.mk [1%N] 0 (config 30) outlineFailedText [] None OUTLINE).
Proof.
  destruct (submitConfig_outline storyEnv (fun _ _ => Returned None)
              (config 30) (mkView (world (novel [] SETUP) None) false 0)
              (novel [] SETUP) eq_refl ltac:(discriminate) eq_refl)
    as (_ & _ & Hcase).
  change (generateOutline (fun _ _ => Returned None) (config 30)
            (ai (shown (mkView (world (novel [] SETUP) None) false 0))))
    with (Returned outlineFailedText, mkTimed (mkAi 1 0 0) [Invoked])
    in Hcase.
  destruct Hcase as (_ & Hact & _). exact Hact.
Defined.

End ConfigSaving.
